(** * SQL Server to BigQuery replication with change tracking

    A shallow embedding of the replication engine
    ([connector/sql_server_connector.py], [connector/big_query_connector.py],
    [connector/state_manager.py], [connector/replicator.py], [main.py]),
    followed by the properties of the synchronisation state machine.

    The two databases, the checkpoint file and the clock are the world the
    program runs in.  Every call that leaves the process (a query, a load
    job, a file access) may raise; the Python code turns each such
    exception into an empty result or a [False] return value, and the
    model does the same, asking an oracle whether the call raises.

    A string is a sequence of characters with code points below 256. *)

From Stdlib Require Import ZArith Ascii String OrderedTypeEx.
From stdpp Require Import gmap strings list sorting.

Local Open Scope string_scope.
Local Open Scope list_scope.

(** ** Python strings *)

Module Py.

(** [str.split(sep)] for a one-character separator. *)
Fixpoint split (sep : ascii) (s : string) : list string :=
  match s with
  | EmptyString => [EmptyString]
  | String c rest =>
      if Ascii.eqb c sep then EmptyString :: split sep rest
      else match split sep rest with
           | w :: ws => String c w :: ws
           | [] => [String c EmptyString]
           end
  end.

(** The characters for which [str.isspace] holds: the ASCII ones, NEL
    (U+0085) and the no-break space (U+00A0). *)
Definition is_space (c : ascii) : bool :=
  let n := nat_of_ascii c in
  ((9 <=? n)%nat && (n <=? 13)%nat) || ((28 <=? n)%nat && (n <=? 32)%nat)
  || (n =? 133)%nat || (n =? 160)%nat.

Fixpoint lstrip (s : string) : string :=
  match s with
  | String c rest => if is_space c then lstrip rest else s
  | EmptyString => EmptyString
  end.

Fixpoint rstrip (s : string) : string :=
  match s with
  | EmptyString => EmptyString
  | String c rest =>
      match rstrip rest with
      | EmptyString => if is_space c then EmptyString else String c EmptyString
      | rest' => String c rest'
      end
  end.

(** [str.strip()] *)
Definition strip (s : string) : string := rstrip (lstrip s).

(** The capital letters: A to Z, and the accented ones of U+00C0 to U+00DE,
    the multiplication sign (U+00D7) apart. *)
Definition lower_ascii (c : ascii) : ascii :=
  let n := nat_of_ascii c in
  if ((65 <=? n)%nat && (n <=? 90)%nat)
     || ((192 <=? n)%nat && (n <=? 222)%nat && negb (n =? 215)%nat)
  then ascii_of_nat (n + 32) else c.

(** [str.lower()] *)
Fixpoint lower (s : string) : string :=
  match s with
  | EmptyString => EmptyString
  | String c rest => String (lower_ascii c) (lower rest)
  end.

(** Truth value of an optional string: [None] and [''] are false. *)
Definition truthy (o : option string) : bool :=
  match o with
  | Some s => negb (String.eqb s EmptyString)
  | None => false
  end.

(** [list.index]; [None] stands for [ValueError]. *)
Fixpoint index {A} `{EqDecision A} (x : A) (l : list A) : option nat :=
  match l with
  | [] => None
  | y :: l' => if decide (x = y) then Some 0 else S <$> index x l'
  end.

(** [x in l] *)
Definition contains {A} `{EqDecision A} (x : A) (l : list A) : bool :=
  bool_decide (x ∈ l).

End Py.

(** ** Values, rows and data frames *)

(** A cell of a result set. *)
Inductive value : Type :=
  | VNull
  | VInt (z : Z)
  | VStr (s : string).

Global Instance value_eq_dec : EqDecision value.
Proof. solve_decision. Defined.

(** A pyodbc row. *)
Abbreviation tuple := (list value).

(** [dict(zip(columns, row))]: the column names of a result set are distinct,
    so the pairs are kept as they come. *)
Abbreviation rowdict := (list (string * value)).

(** [pd.DataFrame(list_of_dicts)], one dict per row. *)
Abbreviation DataFrame := (list (list (string * value))).

(** [df.empty]: no rows, or no columns. *)
Definition df_empty (df : DataFrame) : bool :=
  forallb (fun r : rowdict => match r with [] => true | _ => false end) df.

Definition to_dicts (columns : list string) (batch : list tuple) : DataFrame :=
  map (fun row : tuple => zip columns row) batch.

(** Order of the values of a key column: NULL first, then integers, then
    strings in ordinal order. *)
Definition value_compare (a b : value) : comparison :=
  match a, b with
  | VNull, VNull => Eq
  | VNull, _ => Lt
  | _, VNull => Gt
  | VInt x, VInt y => Z.compare x y
  | VInt _, VStr _ => Lt
  | VStr _, VInt _ => Gt
  | VStr x, VStr y => String.compare x y
  end.

Definition value_le (a b : value) : Prop := value_compare a b ≠ Gt.

Global Instance value_le_dec a b : Decision (value_le a b).
Proof. unfold value_le. solve_decision. Defined.

(** SQL [k > v]: unknown, hence not selected, when either side is NULL. *)
Definition sql_gt (k v : value) : bool :=
  match k, v with
  | VNull, _ | _, VNull => false
  | _, _ => match value_compare v k with Lt => true | _ => false end
  end.

(** SQL [a = b] *)
Definition sql_eq (a b : value) : bool :=
  match a, b with
  | VNull, _ | _, VNull => false
  | _, _ => bool_decide (a = b)
  end.

(** ** The source database *)

(** One row of the schema query of [get_table_schema]. *)
Record ColumnMeta : Type := {
  column_name : string;
  data_type : string;
  max_length : Z;
  precision : Z;
  scale : Z;
  nullable : bool
}.

Inductive ChangeOp : Type := Inserted | Updated | Deleted.

Global Instance ChangeOp_eq_dec : EqDecision ChangeOp.
Proof. solve_decision. Defined.

(** One row of [CHANGETABLE(CHANGES t, v)]: the version of the change, the
    operation and the primary-key values of the row, in key order. *)
Record Change : Type := {
  ch_version : Z;
  ch_op : ChangeOp;
  ch_key : tuple
}.

Record SrcTable : Type := {
  st_tracked : bool;                (* listed in sys.change_tracking_tables *)
  st_columns : list ColumnMeta;     (* by column_id *)
  st_pk : list string;              (* primary-key columns, by key_ordinal *)
  st_rows : list tuple;             (* one value per column *)
  st_changes : list Change
}.

Record Source : Type := {
  src_tables : gmap string SrcTable;
  src_version : Z                   (* CHANGE_TRACKING_CURRENT_VERSION() *)
}.

(** The statements the connector sends, with their parameters. *)
Inductive Query : Type :=
  | QSchema (t : string)
  | QTracked (t : string)
  | QVersion
  | QPrimaryKey (t : string)
  | QCount (t : string)
  | QOffset (t : string) (offset batch_size : nat)
  | QTop (t pk : string) (batch_size : nat)
  | QTopAfter (t pk : string) (batch_size : nat) (last_pk_value : value)
  | QChanged (t : string) (pk_columns : list string) (since : Z)
  | QDeleted (t : string) (pk_columns : list string) (since : Z).

(** What SQL Server answers.  [None] is a statement the server rejects
    (unknown table or column), which the driver raises as an exception. *)
Module Sql.

Definition names (tb : SrcTable) : list string :=
  map column_name (st_columns tb).

(** The value of column [pk] in a row. *)
Definition key_of (columns : list string) (pk : string) (row : tuple) : value :=
  default VNull (i ← Py.index pk columns; row !! i).

Definition by_key (columns : list string) (pk : string) : relation tuple :=
  fun r1 r2 => value_le (key_of columns pk r1) (key_of columns pk r2).

Global Instance by_key_dec columns pk r1 r2 : Decision (by_key columns pk r1 r2).
Proof. unfold by_key. apply _. Defined.

Definition order_by (columns : list string) (pk : string)
    (rows : list tuple) : list tuple :=
  merge_sort (by_key columns pk) rows.

Definition schema (t : string) (src : Source) : option (list ColumnMeta) :=
  Some (from_option st_columns [] (src_tables src !! t)).

Definition tracked (t : string) (src : Source) : option (list bool) :=
  Some (from_option (fun tb => [st_tracked tb]) [] (src_tables src !! t)).

Definition version (src : Source) : option (list Z) :=
  Some [src_version src].

Definition primary_key (t : string) (src : Source) : option (list string) :=
  Some (from_option st_pk [] (src_tables src !! t)).

Definition count (t : string) (src : Source) : option (list nat) :=
  tb ← src_tables src !! t; Some [length (st_rows tb)].

(** [SELECT * ... ORDER BY (SELECT NULL) OFFSET o ROWS FETCH NEXT b ROWS ONLY] *)
Definition offset (t : string) (o b : nat) (src : Source) : option (list tuple) :=
  tb ← src_tables src !! t; Some (take b (drop o (st_rows tb))).

(** [SELECT TOP b * FROM t ORDER BY pk] *)
Definition top (t pk : string) (b : nat) (src : Source) : option (list tuple) :=
  tb ← src_tables src !! t;
  _ ← Py.index pk (names tb);
  Some (take b (order_by (names tb) pk (st_rows tb))).

(** [SELECT TOP b * FROM t WHERE pk > ? ORDER BY pk] *)
Definition top_after (t pk : string) (b : nat) (v : value) (src : Source)
    : option (list tuple) :=
  tb ← src_tables src !! t;
  _ ← Py.index pk (names tb);
  Some (take b (order_by (names tb) pk
          (filter (fun r => sql_gt (key_of (names tb) pk r) v = true) (st_rows tb)))).

(** [CHANGETABLE(CHANGES t, since)]: the changes after version [since]. *)
Definition changetable (tb : SrcTable) (since : Z) : list Change :=
  filter (fun c => (since < ch_version c)%Z) (st_changes tb).

Definition op_letter (o : ChangeOp) : value :=
  match o with
  | Inserted => VStr "I"
  | Updated => VStr "U"
  | Deleted => VStr "D"
  end.

Definition keys_match (columns pks : list string) (row key : tuple) : bool :=
  forallb (fun '(pk, k) => sql_eq (key_of columns pk row) k) (zip pks key)
  && bool_decide (length key = length pks).

(** [SELECT t.*, CT.SYS_CHANGE_OPERATION FROM t INNER JOIN CHANGETABLE(...) CT
     ON t.pk = CT.pk ... WHERE CT.SYS_CHANGE_OPERATION IN ('I', 'U')] *)
Definition changed (t : string) (pks : list string) (since : Z) (src : Source)
    : option (list tuple) :=
  tb ← src_tables src !! t;
  if negb (st_tracked tb) then None
  else if negb (forallb (fun pk => Py.contains pk (names tb)) pks) then None
  else Some (row ← st_rows tb;
             c ← changetable tb since;
             if bool_decide (ch_op c ≠ Deleted) && keys_match (names tb) pks row (ch_key c)
             then [row ++ [op_letter (ch_op c)]] else []).

(** [SELECT pk, ... FROM CHANGETABLE(...) CT WHERE CT.SYS_CHANGE_OPERATION = 'D'] *)
Definition deleted (t : string) (pks : list string) (since : Z) (src : Source)
    : option (list tuple) :=
  tb ← src_tables src !! t;
  if negb (st_tracked tb) then None
  else if negb (forallb (fun pk => Py.contains pk (st_pk tb)) pks) then None
  else Some (map ch_key (filter (fun c => ch_op c = Deleted) (changetable tb since))).

End Sql.

(** ** The warehouse and the checkpoint file *)

(** [bigquery.SchemaField] *)
Record SchemaField : Type := {
  field_name : string;
  field_type : string;
  mode : string
}.

Record TgtTable : Type := {
  tt_schema : list SchemaField;
  tt_clustering : option (list string);   (* [table.clustering_fields] *)
  tt_rows : DataFrame
}.

Inductive WriteDisposition : Type := WRITE_TRUNCATE | WRITE_APPEND.

(** An entry of the state document. *)
Record TableState : Type := {
  last_sync_version : option Z;
  last_sync_time : option string
}.

(** [replication_state.json] on disk. *)
Inductive StateFile : Type :=
  | Missing
  | Unparsable
  | Document (doc : gmap string TableState).

(** ** The world *)

(** Calls that leave the process and may raise.  [LoadJob] is the [try]
    block of [load_dataframe] and [WriteState] the [with] block of
    [_save_state]; of a [WriteState] that raises, [OpenState] tells whether
    it was [open] that raised. *)
Inductive Op : Type :=
  | SqlConnect
  | BqConnect
  | GetDataset
  | CreateDataset
  | Execute (q : Query)
  | GetTable (t : string)
  | CreateTable (t : string)
  | LoadJob (t : string) (d : WriteDisposition)
  | DeleteJob (t : string)
  | ReadState
  | OpenState
  | WriteState.

(** A call that was made, whether it raised, and how many rows it returned
    or carried. *)
Inductive Event : Type :=
  | Call (op : Op) (raised : bool) (rows : nat).

Record World : Type := {
  w_source : Source;
  w_dataset : bool;                      (* is the dataset [BQ_DATASET] there? *)
  w_target : gmap string TgtTable;       (* the tables of the dataset *)
  w_file : StateFile;
  w_now : string;                        (* [datetime.now().isoformat()] *)
  w_raises : nat → Op → bool;            (* does the n-th call raise? *)
  w_garbled : nat → gmap string TgtTable;
    (* what the n-th call leaves of the warehouse, when it is a statement
       whose text is not the one that was meant *)
  w_trace : list Event;                  (* the calls made so far, oldest first *)
  w_state : gmap string TableState       (* [StateManager.state] of the process *)
}.

Definition with_trace (tr : list Event) (w : World) : World :=
  {| w_source := w_source w; w_dataset := w_dataset w; w_target := w_target w;
     w_file := w_file w; w_now := w_now w; w_raises := w_raises w;
     w_garbled := w_garbled w; w_trace := tr; w_state := w_state w |}.

Definition with_dataset (ds : bool) (w : World) : World :=
  {| w_source := w_source w; w_dataset := ds; w_target := w_target w;
     w_file := w_file w; w_now := w_now w; w_raises := w_raises w;
     w_garbled := w_garbled w; w_trace := w_trace w; w_state := w_state w |}.

Definition with_target (tg : gmap string TgtTable) (w : World) : World :=
  {| w_source := w_source w; w_dataset := w_dataset w; w_target := tg;
     w_file := w_file w; w_now := w_now w; w_raises := w_raises w;
     w_garbled := w_garbled w; w_trace := w_trace w; w_state := w_state w |}.

Definition with_file (f : StateFile) (w : World) : World :=
  {| w_source := w_source w; w_dataset := w_dataset w; w_target := w_target w;
     w_file := f; w_now := w_now w; w_raises := w_raises w;
     w_garbled := w_garbled w; w_trace := w_trace w; w_state := w_state w |}.

Definition with_state (st : gmap string TableState) (w : World) : World :=
  {| w_source := w_source w; w_dataset := w_dataset w; w_target := w_target w;
     w_file := w_file w; w_now := w_now w; w_raises := w_raises w;
     w_garbled := w_garbled w; w_trace := w_trace w; w_state := st |}.

(** ** Computations in the world *)

Definition M (A : Type) : Type := World → A * World.

Definition ret {A} (a : A) : M A := fun w => (a, w).

Definition bind {A B} (m : M A) (k : A → M B) : M B :=
  fun w => let (a, w') := m w in k a w'.

Notation "'let*' x ':=' m 'in' k" := (bind m (fun x => k))
  (at level 10, x pattern, m at level 100, k at level 200).

Definition gets {A} (f : World → A) : M A := fun w => (f w, w).

Definition modify (f : World → World) : M unit := fun w => (tt, f w).

(** Ask whether the next call raises. *)
Definition raises (op : Op) : M bool :=
  fun w => (w_raises w (length (w_trace w)) op, w).

(** The world after some more calls. *)
Definition extend (tr : list Event) (w : World) : World :=
  with_trace (w_trace w ++ tr) w.

Definition log (op : Op) (raised : bool) (rows : nat) : M unit :=
  modify (extend [Call op raised rows]).

(** How a block that may raise, or a loop, ends. *)
Inductive completion (A : Type) : Type :=
  | Normal (a : A)
  | Exception
  | OutOfFuel.
Arguments Normal {A} a.
Arguments Exception {A}.
Arguments OutOfFuel {A}.

(** ** [SQLServerConnection] *)

Module SQLServerConnection.

(** The type of the rows a statement returns. *)
Definition row_type (q : Query) : Type :=
  match q with
  | QSchema _ => ColumnMeta
  | QTracked _ => bool
  | QVersion => Z
  | QPrimaryKey _ => string
  | QCount _ => nat
  | _ => tuple
  end.

Definition answer (q : Query) : Source → option (list (row_type q)) :=
  match q with
  | QSchema t => Sql.schema t
  | QTracked t => Sql.tracked t
  | QVersion => Sql.version
  | QPrimaryKey t => Sql.primary_key t
  | QCount t => Sql.count t
  | QOffset t o b => Sql.offset t o b
  | QTop t pk b => Sql.top t pk b
  | QTopAfter t pk b v => Sql.top_after t pk b v
  | QChanged t pks since => Sql.changed t pks since
  | QDeleted t pks since => Sql.deleted t pks since
  end.

Definition connect : M bool :=
  let* raised := raises SqlConnect in
  let* _ := log SqlConnect raised 0 in
  ret (negb raised).

Definition close : M unit := ret tt.

(** Any exception of the driver is logged and turned into [[]]. *)
Definition execute_query (q : Query) : M (list (row_type q)) :=
  let* raised := raises (Execute q) in
  let* src := gets w_source in
  match (if raised then None else answer q src) with
  | Some rows =>
      let* _ := log (Execute q) false (length rows) in
      ret rows
  | None =>
      let* _ := log (Execute q) true 0 in
      ret []
  end.

(** [cursor.description] after [SELECT * FROM t ...] returned rows. *)
Definition description (t : string) : M (list string) :=
  gets (fun w => from_option Sql.names [] (src_tables (w_source w) !! t)).

(** A column as [get_table_schema] returns it; [is_primary_key] is the key
    the replicator adds. *)
Record Column : Type := {
  name : string;
  type : string;
  col_max_length : Z;
  col_precision : Z;
  col_scale : Z;
  is_nullable : bool;
  is_primary_key : option bool
}.

Definition column_of (row : ColumnMeta) : Column :=
  {| name := column_name row; type := data_type row;
     col_max_length := max_length row; col_precision := precision row;
     col_scale := scale row; is_nullable := nullable row;
     is_primary_key := None |}.

Definition get_table_schema (table_name : string) : M (list Column) :=
  let* results := execute_query (QSchema table_name) in
  ret (map column_of results).

Definition is_change_tracking_enabled (table_name : string) : M bool :=
  let* result := execute_query (QTracked table_name) in
  match result with
  | [] => ret false
  | enabled :: _ => ret enabled
  end.

Definition get_change_tracking_current_version : M Z :=
  let* result := execute_query QVersion in
  match result with
  | [] => ret 0%Z
  | v :: _ => ret v
  end.

Definition get_primary_key_columns (table_name : string) : M (list string) :=
  let* results := execute_query (QPrimaryKey table_name) in
  match results with
  | [] => ret []
  | _ => ret results
  end.

(** [range(0, stop, step)] for a positive [step], unrolled at most [n] times. *)
Fixpoint range_from (n start stop step : nat) : list nat :=
  match n with
  | 0 => []
  | S n' => if (start <? stop)%nat then start :: range_from n' (start + step) stop step
            else []
  end.

Fixpoint offset_loop (table_name : string) (batch_size : nat)
    (offsets : list nat) (all_data : DataFrame) : M DataFrame :=
  match offsets with
  | [] => ret all_data
  | offset :: rest =>
      let* batch := execute_query (QOffset table_name offset batch_size) in
      match batch with
      | [] => ret all_data
      | _ =>
          let* columns := description table_name in
          offset_loop table_name batch_size rest (all_data ++ to_dicts columns batch)
      end
  end.

(** [range] raises [ValueError] for a zero step. *)
Definition _get_all_data_with_offset (table_name : string)
    (batch_size total_rows : nat) : M (completion DataFrame) :=
  match batch_size with
  | 0 => ret Exception
  | _ =>
      let* df := offset_loop table_name batch_size
                   (range_from total_rows 0 total_rows batch_size) [] in
      ret (Normal df)
  end.

(** The body of [while True] in [_get_all_data_with_pk].  The loop has no
    bound in the source; [fuel] bounds its unrolling here. *)
Fixpoint pk_loop (fuel : nat) (table_name pk_column : string) (batch_size : nat)
    (last_pk_value : option value) (all_data : DataFrame)
    : M (completion DataFrame) :=
  match fuel with
  | 0 => ret OutOfFuel
  | S fuel' =>
      let* batch :=
        match last_pk_value return M (list tuple) with
        | None => execute_query (QTop table_name pk_column batch_size)
        | Some v => execute_query (QTopAfter table_name pk_column batch_size v)
        end in
      match batch with
      | [] => ret (Normal all_data)
      | _ =>
          let* columns := description table_name in
          let all_data' := all_data ++ to_dicts columns batch in
          match (i ← Py.index pk_column columns; row ← last batch; row !! i) with
          | None => ret Exception
          | Some v =>
              if (length batch <? batch_size)%nat then ret (Normal all_data')
              else pk_loop fuel' table_name pk_column batch_size (Some v) all_data'
          end
      end
  end.

(** Every batch that does not end the loop moves the cursor past at least
    one more row of the table, so one more unrolling than the table has rows
    is enough ([pk_loop_enough_fuel] below). *)
Definition _get_all_data_with_pk (table_name pk_column : string)
    (batch_size total_rows : nat) : M (completion DataFrame) :=
  let* rows := gets (fun w => from_option st_rows [] (src_tables (w_source w) !! table_name)) in
  pk_loop (S (length rows)) table_name pk_column batch_size None [].

(** The [except] clause of [get_all_data] returns an empty frame. *)
Definition get_all_data (table_name : string) (batch_size : nat) : M DataFrame :=
  let* count_result := execute_query (QCount table_name) in
  let total_rows := match count_result with n :: _ => n | [] => 0 end in
  if (total_rows =? 0)%nat then ret []
  else
    let* pk_columns := get_primary_key_columns table_name in
    let* r :=
      match pk_columns with
      | [] => _get_all_data_with_offset table_name batch_size total_rows
      | pk :: _ => _get_all_data_with_pk table_name pk batch_size total_rows
      end in
    match r with
    | Normal df => ret df
    | Exception | OutOfFuel => ret []
    end.

(** The two queries of [get_changed_data] sit in a [try] block, but
    [execute_query] has already turned every exception of the driver into
    an empty result, so its handler is never entered here. *)
Definition get_changed_data (table_name : string) (last_sync_version : Z)
    : M (DataFrame * DataFrame * Z) :=
  let* enabled := is_change_tracking_enabled table_name in
  if negb enabled then ret ([], [], 0%Z)
  else
    let* current_version := get_change_tracking_current_version in
    if (current_version <=? last_sync_version)%Z then ret ([], [], current_version)
    else
      let* pk_columns := get_primary_key_columns table_name in
      match pk_columns with
      | [] => ret ([], [], 0%Z)
      | _ =>
          let* changed_rows :=
            execute_query (QChanged table_name pk_columns last_sync_version) in
          let* columns := description table_name in
          let changed_df :=
            to_dicts (columns ++ ["SYS_CHANGE_OPERATION"]) changed_rows in
          let* deleted_rows :=
            execute_query (QDeleted table_name pk_columns last_sync_version) in
          let deleted_df := to_dicts pk_columns deleted_rows in
          ret (changed_df, deleted_df, current_version)
      end.

End SQLServerConnection.

(** ** [BigQueryConnection] *)

Module BigQueryConnection.
Import SQLServerConnection.

(** [get_dataset] raises [NotFound] for a dataset that is not there, and any
    exception it raises leads to [create_dataset], which raises [Conflict]
    for a dataset that is there.  An exception of [create_dataset] is logged
    and goes no further. *)
Definition _ensure_dataset_exists : M unit :=
  let* raised := raises GetDataset in
  let* found := gets w_dataset in
  if negb raised && found then log GetDataset false 0
  else
    let* _ := log GetDataset true 0 in
    let* raised := raises CreateDataset in
    let* found := gets w_dataset in
    if raised || found then log CreateDataset true 0
    else
      let* _ := modify (with_dataset true) in
      log CreateDataset false 0.

(** The construction of the client may raise; once the client is there the
    result is [True], whatever became of the dataset. *)
Definition connect : M bool :=
  let* raised := raises BqConnect in
  let* _ := log BqConnect raised 0 in
  if raised then ret false
  else
    let* _ := _ensure_dataset_exists in
    ret true.

Definition close : M unit := ret tt.

(** [get_table] raises [NotFound] for a table that is not there; every
    exception means [False]. *)
Definition table_exists (table_name : string) : M bool :=
  let* raised := raises (GetTable table_name) in
  let* tables := gets w_target in
  let found := negb raised && bool_decide (is_Some (tables !! table_name)) in
  let* _ := log (GetTable table_name) (negb found) 0 in
  ret found.

Definition bq_type (sql_type : string) : string :=
  if Py.contains sql_type ["char"; "varchar"; "nvarchar"; "nchar"; "text"; "ntext"]
  then "STRING"
  else if Py.contains sql_type ["int"; "smallint"; "tinyint"] then "INTEGER"
  else if String.eqb sql_type "bigint" then "INTEGER"
  else if Py.contains sql_type ["decimal"; "numeric"; "money"; "smallmoney"]
  then "NUMERIC"
  else if Py.contains sql_type ["float"; "real"] then "FLOAT"
  else if Py.contains sql_type ["date"; "datetime"; "datetime2"; "smalldatetime"]
  then "DATETIME"
  else if String.eqb sql_type "time" then "TIME"
  else if String.eqb sql_type "bit" then "BOOLEAN"
  else if Py.contains sql_type ["binary"; "varbinary"; "image"] then "BYTES"
  else if String.eqb sql_type "uniqueidentifier" then "STRING"
  else "STRING".

Definition _convert_schema (sql_schema : list Column) : list SchemaField :=
  map (fun column =>
         {| field_name := name column;
            field_type := bq_type (Py.lower (type column));
            mode := if is_nullable column then "NULLABLE" else "REQUIRED" |})
      sql_schema.

(** [[col['name'] for col in schema_columns if col.get('is_primary_key')]] *)
Definition flagged_columns (schema_columns : list Column) : list string :=
  map name (filter (fun col => is_primary_key col = Some true) schema_columns).

(** [table.clustering_fields], set only for a non-empty list. *)
Definition clustering_fields (schema_columns : list Column) : option (list string) :=
  match flagged_columns schema_columns with
  | [] => None
  | pk_columns => Some (take 4 pk_columns)
  end.

(** [client.create_table] raises [Conflict] for a table that is there. *)
Definition create_table (table_name : string) (schema_columns : list Column) : M bool :=
  let bq_schema := _convert_schema schema_columns in
  let clustering := clustering_fields schema_columns in
  let* raised := raises (CreateTable table_name) in
  let* tables := gets w_target in
  if raised || bool_decide (is_Some (tables !! table_name)) then
    let* _ := log (CreateTable table_name) true 0 in
    ret false
  else
    let* _ := modify (with_target
      (<[table_name := {| tt_schema := bq_schema; tt_clustering := clustering;
                          tt_rows := [] |}]> tables)) in
    let* _ := log (CreateTable table_name) false 0 in
    ret true.

(** The job is to be built from [io.BytesIO(df.to_parquet())], and the
    module does not import [io] ([main.py] imports it into its own namespace
    only).  For every non-empty frame the [try] block therefore raises, at
    the latest with [NameError] when the arguments of [load_table_from_file]
    are evaluated, before any job is sent; the [except] clause logs the
    exception and returns [False].  The event records that exception. *)
Definition load_dataframe (df : DataFrame) (table_name : string)
    (write_disposition : WriteDisposition) : M bool :=
  if df_empty df then ret true
  else
    let* _ := log (LoadJob table_name write_disposition) true (length df) in
    ret false.

Definition lookup_cell (c : string) (r : rowdict) : option value :=
  match list_find (fun kv : string * value => fst kv = c) r with
  | Some (_, (_, v)) => Some v
  | None => None
  end.

(** One parenthesised conjunct of the [DELETE] statement: [pk = value] or
    [pk IS NULL] for every key column of the row. *)
Definition condition (key : rowdict) (r : rowdict) : bool :=
  forallb (fun '(pk, v) =>
             match v, lookup_cell pk r with
             | VNull, Some VNull => true
             | VNull, _ => false
             | _, Some x => sql_eq x v
             | _, None => false
             end) key.

(** The statement is text: the name of the table is put between backquotes,
    the names of the key columns are written as they are, and a string value
    is put between quotes, all without escaping.  The text is the statement
    that was meant when the table name holds no backquote or backslash, the
    column names are identifiers, and the strings hold no quote or
    backslash. *)
Definition quotable (table_name : string) : bool :=
  negb (existsb (fun c => Ascii.eqb c "`" || Ascii.eqb c "\")
                (list_ascii_of_string table_name)).

Definition letter (c : ascii) : bool :=
  let n := nat_of_ascii c in
  ((65 <=? n)%nat && (n <=? 90)%nat) || ((97 <=? n)%nat && (n <=? 122)%nat)
  || (n =? 95)%nat.

Definition digit (c : ascii) : bool :=
  let n := nat_of_ascii c in (48 <=? n)%nat && (n <=? 57)%nat.

Definition identifier (column : string) : bool :=
  match column with
  | EmptyString => false
  | String c rest =>
      letter c && forallb (fun c => letter c || digit c) (list_ascii_of_string rest)
  end.

Definition plain (v : value) : bool :=
  match v with
  | VStr s => negb (existsb (fun c => Ascii.eqb c "'" || Ascii.eqb c "\")
                            (list_ascii_of_string s))
  | _ => true
  end.

Definition plain_frame (pk_df : DataFrame) : bool :=
  forallb (fun key : rowdict =>
             forallb (fun '(pk, v) => identifier pk && plain v) key) pk_df.

(** A statement that was not the one meant may fail to parse, which raises;
    it may also be another statement, or a script of several, and what it
    then does to the warehouse is not the connector's to say: the world
    supplies the outcome. *)
Definition delete_rows (table_name : string) (pk_df : DataFrame) : M bool :=
  if df_empty pk_df then ret true
  else
    let* raised := raises (DeleteJob table_name) in
    let* tables := gets w_target in
    if quotable table_name && plain_frame pk_df then
      match (if raised then None else tables !! table_name) with
      | None =>
          let* _ := log (DeleteJob table_name) true (length pk_df) in
          ret false
      | Some tb =>
          let kept := filter (fun r => existsb (fun key => condition key r) pk_df = false)
                             (tt_rows tb) in
          let* _ := modify (with_target
            (<[table_name := {| tt_schema := tt_schema tb;
                                tt_clustering := tt_clustering tb;
                                tt_rows := kept |}]> tables)) in
          let* _ := log (DeleteJob table_name) false (length pk_df) in
          ret true
      end
    else if raised then
      let* _ := log (DeleteJob table_name) true (length pk_df) in
      ret false
    else
      let* garbled := gets (fun w => w_garbled w (length (w_trace w))) in
      let* _ := modify (with_target garbled) in
      let* _ := log (DeleteJob table_name) false (length pk_df) in
      ret true.

End BigQueryConnection.

(** ** [StateManager] *)

Module StateManager.

(** [json.load] of a file that is there; unreadable or malformed content
    ends in the [except] clause. *)
Definition _load_state : M (gmap string TableState) :=
  let* file := gets w_file in
  match file with
  | Missing => ret ∅
  | _ =>
      let* raised := raises ReadState in
      match (if raised then None
             else match file with Document doc => Some doc | _ => None end) with
      | Some doc =>
          let* _ := log ReadState false 0 in
          ret doc
      | None =>
          let* _ := log ReadState true 0 in
          ret ∅
      end
  end.

(** [StateManager.__init__] *)
Definition init : M unit :=
  let* state := _load_state in
  modify (with_state state).

(** [open(file, 'w')] empties the file before [json.dump] writes to it.
    When [open] itself raises, the file is as it was; an exception after it
    leaves the file cut off, which no later [json.load] can parse.  The
    [except] clause logs the error and returns. *)
Definition _save_state : M unit :=
  let* raised := raises WriteState in
  if raised then
    let* at_open := raises OpenState in
    let* _ := if at_open then ret tt else modify (with_file Unparsable) in
    log WriteState true 0
  else
    let* state := gets w_state in
    let* _ := modify (with_file (Document state)) in
    log WriteState false 0.

Definition get_last_sync_version (table_name : string) : M Z :=
  let* state := gets w_state in
  ret (default 0%Z (state !! table_name ≫= last_sync_version)).

Definition update_sync_version (table_name : string) (version : Z) : M unit :=
  let* now := gets w_now in
  let* _ := modify (fun w => with_state
    (<[table_name := {| last_sync_version := Some version;
                        last_sync_time := Some now |}]> (w_state w)) w) in
  _save_state.

End StateManager.

(** ** Configuration *)

(** The environment variables the modules read when they are imported. *)
Record Config : Type := {
  SQL_SERVER : option string;
  SQL_DATABASE : option string;
  BQ_PROJECT_ID : option string;
  BQ_DATASET : option string;
  TABLES_TO_REPLICATE_env : option string;
  BATCH_SIZE : nat
}.

(** [os.getenv('TABLES_TO_REPLICATE', '').split(',')] *)
Definition TABLES_TO_REPLICATE (cfg : Config) : list string :=
  Py.split "," (default EmptyString (TABLES_TO_REPLICATE_env cfg)).

(** ** [Replicator] *)

Module Replicator.
Import SQLServerConnection.

(** [Replicator.__init__] builds the two connection objects and the
    [StateManager], which reads the state file. *)
Definition init : M unit := StateManager.init.

(** Both connections are attempted before the results are combined. *)
Definition initialize : M bool :=
  let* sql_connected := SQLServerConnection.connect in
  let* bq_connected := BigQueryConnection.connect in
  ret (sql_connected && bq_connected).

Definition close : M unit :=
  let* _ := SQLServerConnection.close in
  BigQueryConnection.close.

(** [for col in schema: if col['name'] in pk_columns: col['is_primary_key'] = True] *)
Definition mark_primary_keys (pk_columns : list string) (schema : list Column)
    : list Column :=
  map (fun col =>
         if Py.contains (name col) pk_columns then
           {| name := name col; type := type col;
              col_max_length := col_max_length col;
              col_precision := col_precision col; col_scale := col_scale col;
              is_nullable := is_nullable col; is_primary_key := Some true |}
         else col)
      schema.

Definition replicate_table (cfg : Config) (table_name : string) : M bool :=
  let* enabled := is_change_tracking_enabled table_name in
  if negb enabled then ret false
  else
    let* schema := get_table_schema table_name in
    match schema with
    | [] => ret false
    | _ =>
        let* pk_columns := get_primary_key_columns table_name in
        let schema := mark_primary_keys pk_columns schema in
        let* found := BigQueryConnection.table_exists table_name in
        if negb found then
          let* created := BigQueryConnection.create_table table_name schema in
          if negb created then ret false
          else
            let* df := get_all_data table_name (BATCH_SIZE cfg) in
            let* loaded :=
              if df_empty df then ret true
              else BigQueryConnection.load_dataframe df table_name WRITE_TRUNCATE in
            if negb loaded then ret false
            else
              let* current_version := get_change_tracking_current_version in
              let* _ := StateManager.update_sync_version table_name current_version in
              ret true
        else
          let* last_sync_version := StateManager.get_last_sync_version table_name in
          let* (changed_df, deleted_df, current_version) :=
            get_changed_data table_name last_sync_version in
          if (current_version =? 0)%Z then ret false
          else
            let* appended :=
              if negb (df_empty changed_df)
              then BigQueryConnection.load_dataframe changed_df table_name WRITE_APPEND
              else ret true in
            if negb appended then ret false
            else
              let* removed :=
                if negb (df_empty deleted_df)
                then BigQueryConnection.delete_rows table_name deleted_df
                else ret true in
              if negb removed then ret false
              else
                let* _ := StateManager.update_sync_version table_name current_version in
                ret true
    end.

(** The body of [for table_name in TABLES_TO_REPLICATE]. *)
Fixpoint replicate_tables (cfg : Config) (tables : list string) (success : bool)
    : M bool :=
  match tables with
  | [] => ret success
  | table_name :: rest =>
      let table_name := Py.strip table_name in
      if String.eqb table_name EmptyString then replicate_tables cfg rest success
      else
        let* table_success := replicate_table cfg table_name in
        replicate_tables cfg rest (if table_success then success else false)
  end.

Definition replicate_all_tables (cfg : Config) : M bool :=
  replicate_tables cfg (TABLES_TO_REPLICATE cfg) true.

End Replicator.

(** ** [main] *)

(** The exit code of the process. *)
Definition main (cfg : Config) : M Z :=
  if negb (Py.truthy (SQL_SERVER cfg)) || negb (Py.truthy (SQL_DATABASE cfg))
  then ret 1%Z
  else if negb (Py.truthy (BQ_PROJECT_ID cfg)) || negb (Py.truthy (BQ_DATASET cfg))
  then ret 1%Z
  else
    match TABLES_TO_REPLICATE cfg with
    | [] => ret 1%Z
    | _ =>
        let* _ := Replicator.init in
        let* initialized := Replicator.initialize in
        if negb initialized then ret 1%Z
        else
          let* success := Replicator.replicate_all_tables cfg in
          let* _ := Replicator.close in
          ret (if success then 0%Z else 1%Z)
    end.

(** ** Observations used in the statements *)

(** The rows [execute_query] hands back, and whether it caught an exception. *)
Definition query_failed (q : Query) (w : World) : bool :=
  w_raises w (length (w_trace w)) (Execute q)
  || bool_decide (SQLServerConnection.answer q (w_source w) = None).

Definition query_result (q : Query) (w : World) : list (SQLServerConnection.row_type q) :=
  if w_raises w (length (w_trace w)) (Execute q) then []
  else default [] (SQLServerConnection.answer q (w_source w)).

(** The operation never raises in this run. *)
Definition never_raises (w : World) (op : Op) : Prop :=
  ∀ n, w_raises w n op = false.

(** What [get_last_sync_version] returns in a world. *)
Definition stored_version (t : string) (w : World) : Z :=
  default 0%Z (w_state w !! t ≫= last_sync_version).

(** The state file after an attempt to write [doc] to it. *)
Definition written (raised at_open : bool) (old : StateFile)
    (doc : gmap string TableState) : StateFile :=
  if raised then (if at_open then old else Unparsable) else Document doc.

(** The version the state file holds for a table, if it holds one. *)
Definition persisted_version (t : string) (w : World) : option Z :=
  match w_file w with
  | Document doc => doc !! t ≫= last_sync_version
  | _ => None
  end.

(** The calls made between two worlds of one run. *)
Definition calls_since (w w' : World) : list Event :=
  drop (length (w_trace w)) (w_trace w').

(** Calls of the InitialLoad path: a table created, a row count or a batch
    of the full scan, a Replace load. *)
Definition initial_load_call (e : Event) : bool :=
  match e with
  | Call (CreateTable _) false _ => true
  | Call (Execute (QCount _)) _ _ => true
  | Call (Execute (QOffset _ _ _)) _ _ => true
  | Call (Execute (QTop _ _ _)) _ _ => true
  | Call (Execute (QTopAfter _ _ _ _)) _ _ => true
  | Call (LoadJob _ WRITE_TRUNCATE) _ _ => true
  | _ => false
  end.

(** Calls that change the content of a target table. *)
Definition target_write (e : Event) : bool :=
  match e with
  | Call (LoadJob _ _) _ _ => true
  | Call (DeleteJob _) _ _ => true
  | Call (CreateTable _) _ _ => true
  | _ => false
  end.

(** A start of the process in a world left by an earlier run: nothing has
    been called yet, and the state manager has not read the file. *)
Definition restart (oracle : nat → Op → bool) (w : World) : World :=
  {| w_source := w_source w; w_dataset := w_dataset w; w_target := w_target w;
     w_file := w_file w; w_now := w_now w; w_raises := oracle;
     w_garbled := w_garbled w; w_trace := []; w_state := ∅ |}.


(** Calls that neither belong to the InitialLoad path nor write to the target. *)
Definition read_only_call (e : Event) : bool :=
  negb (initial_load_call e) && negb (target_write e).

(** The current version, as a change set reports it. *)
Definition new_version (r : DataFrame * DataFrame * Z) : Z := snd r.

(** Primary-key columns of a source table, [[]] when it has none. *)
Definition pk_of (t : string) (w : World) : list string :=
  from_option st_pk [] (src_tables (w_source w) !! t).

(** Change tracking is enabled on a table of the source. *)
Definition tracked (t : string) (w : World) : bool :=
  from_option st_tracked false (src_tables (w_source w) !! t).

Definition is_query (e : Event) : bool :=
  match e with
  | Call (Execute _) _ _ => true
  | _ => false
  end.

(** The two calls of [_ensure_dataset_exists]. *)
Definition dataset_call (e : Event) : bool :=
  match e with
  | Call GetDataset _ _ | Call CreateDataset _ _ => true
  | _ => false
  end.

(** A computation that only sends queries to the source: it leaves the
    world as it found it, with those queries added to the trace. *)
Definition quiet {A} (m : M A) : Prop :=
  ∀ w, ∃ tr, snd (m w) = extend tr w ∧ Forall (fun e => is_query e = true) tr.

(** ** Scenarios *)

Module Scenario.

Definition column (n ty : string) : ColumnMeta :=
  {| column_name := n; data_type := ty; max_length := 4; precision := 10;
     scale := 0; nullable := false |}.

(** A tracked table [orders(id, amount)] with primary key [id]. *)
Definition orders (rows : list tuple) : SrcTable :=
  {| st_tracked := true;
     st_columns := [column "id" "int"; column "amount" "int"];
     st_pk := ["id"];
     st_rows := rows;
     st_changes := [] |}.

Definition three_rows : list tuple :=
  [[VInt 1; VInt 10]; [VInt 2; VInt 20]; [VInt 3; VInt 30]].

Definition source (tb : SrcTable) (v : Z) : Source :=
  {| src_tables := {[ "orders" := tb ]}; src_version := v |}.

(** The target table [orders] as [create_table] makes it, still empty. *)
Definition created : TgtTable :=
  {| tt_schema := [ {| field_name := "id"; field_type := "INTEGER"; mode := "REQUIRED" |};
                    {| field_name := "amount"; field_type := "INTEGER"; mode := "REQUIRED" |} ];
     tt_clustering := Some ["id"];
     tt_rows := [] |}.

Definition checkpoint (v : Z) : gmap string TableState :=
  {[ "orders" := {| last_sync_version := Some v;
                    last_sync_time := Some "2024-04-30T06:00:00" |} ]}.

Definition healthy : nat → Op → bool := fun _ _ => false.

Definition batches_fail : nat → Op → bool :=
  fun _ op => match op with Execute (QTop _ _ _) => true | _ => false end.

Definition disk_full : nat → Op → bool :=
  fun _ op => match op with WriteState => true | _ => false end.

Definition cfg : Config :=
  {| SQL_SERVER := Some "sql01"; SQL_DATABASE := Some "sales";
     BQ_PROJECT_ID := Some "analytics"; BQ_DATASET := Some "replica";
     TABLES_TO_REPLICATE_env := Some "orders"; BATCH_SIZE := 1000 |}.

(** A process that has just started: nothing called, nothing read.  The
    dataset is there. *)
Definition world (src : Source) (tgt : gmap string TgtTable) (file : StateFile)
    (oracle : nat → Op → bool) : World :=
  {| w_source := src; w_dataset := true; w_target := tgt; w_file := file;
     w_now := "2024-05-01T06:00:00"; w_raises := oracle;
     w_garbled := fun _ => ∅; w_trace := []; w_state := ∅ |}.

(** A process whose state manager has read [state]. *)
Definition running (src : Source) (tgt : gmap string TgtTable)
    (state : gmap string TableState) (oracle : nat → Op → bool) : World :=
  with_state state (world src tgt (Document state) oracle).

(** First run over [orders]: the target is empty and there is no state file. *)
Definition first_run : World :=
  world (source (orders three_rows) 7) ∅ Missing healthy.

(** First run over [orders]: the first batch of the full scan fails. *)
Definition first_run_scan_fails : World :=
  world (source (orders three_rows) 7) ∅ Missing batches_fail.

(** A later run: the target table exists, the checkpoint is at 50, and the
    feed of the source is at version [v]. *)
Definition later_run (v : Z) (oracle : nat → Op → bool) : World :=
  running (source (orders three_rows) v) {[ "orders" := created ]}
          (checkpoint 50) oracle.

(** A run after an initial load made while the feed was at version 0. *)
Definition fresh_feed : World :=
  running (source (orders three_rows) 0) {[ "orders" := created ]}
          (checkpoint 0) healthy.

(** First run over an empty [orders]; the state file cannot be written. *)
Definition first_run_disk_full : World :=
  world (source (orders []) 7) ∅ Missing disk_full.

(** A tracked table without a primary key, and its target table. *)
Definition keyless : SrcTable :=
  {| st_tracked := true;
     st_columns := [column "id" "int"; column "amount" "int"];
     st_pk := [];
     st_rows := three_rows;
     st_changes := [] |}.

Definition created_keyless : TgtTable :=
  {| tt_schema := tt_schema created; tt_clustering := None; tt_rows := [] |}.

Definition keyless_run (v : Z) : World :=
  running (source keyless v) {[ "orders" := created_keyless ]}
          (checkpoint 50) healthy.

(** A tracked table whose primary key [(region, id)] does not follow the
    order of its columns. *)
Definition regional : SrcTable :=
  {| st_tracked := true;
     st_columns := [column "id" "int"; column "region" "varchar"; column "amount" "int"];
     st_pk := ["region"; "id"];
     st_rows := [];
     st_changes := [] |}.

Definition regional_first_run : World :=
  world (source regional 7) ∅ Missing healthy.

(** [orders] with 2,500 rows, stored by descending [id]. *)
Definition order_row (n : nat) : tuple := [VInt (Z.of_nat n); VInt 7].

Definition many_rows : list tuple :=
  map order_row (reverse (seq 1 2500)).

Definition large_first_run : World :=
  world (source (orders many_rows) 7) ∅ Missing healthy.

(** The state file is there and is not JSON. *)
Definition garbled_file : World :=
  world (source (orders three_rows) 7) {[ "orders" := created ]} Unparsable healthy.

(** No table is listed. *)
Definition cfg_no_tables : Config :=
  {| SQL_SERVER := Some "sql01"; SQL_DATABASE := Some "sales";
     BQ_PROJECT_ID := Some "analytics"; BQ_DATASET := Some "replica";
     TABLES_TO_REPLICATE_env := None; BATCH_SIZE := 1000 |}.

End Scenario.

(** The rows a keyed batch is taken from: all rows for the first batch, then
    the rows beyond the last key seen. *)
Definition remaining (tb : SrcTable) (pk : string) (last_pk_value : option value)
    : list tuple :=
  match last_pk_value with
  | None => st_rows tb
  | Some v => filter (fun r => sql_gt (Sql.key_of (Sql.names tb) pk r) v = true) (st_rows tb)
  end.

(** The statement of a keyed batch, the rows it returns and whether it failed. *)
Definition batch_query (t pk : string) (b : nat) (last_pk_value : option value) : Query :=
  match last_pk_value with
  | None => QTop t pk b
  | Some v => QTopAfter t pk b v
  end.

Definition batch_rows (t pk : string) (b : nat) (last_pk_value : option value)
    (w : World) : list tuple :=
  match last_pk_value with
  | None => query_result (QTop t pk b) w
  | Some v => query_result (QTopAfter t pk b v) w
  end.

Definition batch_failed (t pk : string) (b : nat) (last_pk_value : option value)
    (w : World) : bool :=
  query_failed (batch_query t pk b last_pk_value) w.

(** The key the cursor holds after [m] rows of the sorted table. *)
Definition cursor_after (tb : SrcTable) (pk : string) (m : nat) : option value :=
  match m with
  | 0 => None
  | S n => Sql.key_of (Sql.names tb) pk
             <$> Sql.order_by (Sql.names tb) pk (st_rows tb) !! n
  end.

(** The keys of a table under a key column are distinct and not NULL, and the
    column is the [i]-th of the table's columns. *)
Definition keyed_by (tb : SrcTable) (pk : string) (i : nat) : Prop :=
  Py.index pk (Sql.names tb) = Some i ∧
  NoDup (map (Sql.key_of (Sql.names tb) pk) (st_rows tb)) ∧
  Forall (fun r => Sql.key_of (Sql.names tb) pk r ≠ VNull) (st_rows tb).

(** No keyed batch over the table raises in this run. *)
Definition batches_never_raise (w : World) (t pk : string) : Prop :=
  ∀ n b last_pk_value,
    w_raises w n (Execute (batch_query t pk b last_pk_value)) = false.

(** ** Further observations *)

(** No call raises in this run. *)
Definition nothing_raises (w : World) : Prop := ∀ n op, w_raises w n op = false.

(** The number of rows an event records, and whether its call raised. *)
Definition rows_of (e : Event) : nat :=
  match e with Call _ _ n => n end.

Definition has_raised (e : Event) : bool :=
  match e with Call _ r _ => r end.

(** A batch query of a full scan. *)
Definition is_batch (e : Event) : bool :=
  match e with
  | Call (Execute (QOffset _ _ _)) _ _ => true
  | Call (Execute (QTop _ _ _)) _ _ => true
  | Call (Execute (QTopAfter _ _ _ _)) _ _ => true
  | _ => false
  end.

(** A batch that came back without an exception. *)
Definition batch_ok (e : Event) : bool := is_batch e && negb (has_raised e).

(** A load job. *)
Definition is_load (e : Event) : bool :=
  match e with
  | Call (LoadJob _ _) _ _ => true
  | _ => false
  end.

(** A frame whose rows are rows of table [t] of the source, keyed by the
    names of its columns. *)
Definition rows_of_table (t : string) (src : Source) (df : DataFrame) : Prop :=
  Forall (fun d => ∃ tb row, src_tables src !! t = Some tb ∧ row ∈ st_rows tb ∧
                             d = zip (Sql.names tb) row) df.

(** No table of [after] holds a row that [before] did not hold: a table
    that was there has lost rows at most, a new table is empty. *)
Definition no_row_added (before after : gmap string TgtTable) : Prop :=
  ∀ t tb', after !! t = Some tb' →
    match before !! t with
    | Some tb => tt_rows tb' `sublist_of` tt_rows tb
    | None => tt_rows tb' = []
    end.

(** A table of the warehouse after some change: still laid out as before. *)
Definition same_layout (tb tb' : TgtTable) : Prop :=
  tt_schema tb' = tt_schema tb ∧ tt_clustering tb' = tt_clustering tb.

(** Every table of [before] is still there in [after], laid out as before. *)
Definition keeps_tables (before after : gmap string TgtTable) : Prop :=
  ∀ t tb, before !! t = Some tb → ∃ tb', after !! t = Some tb' ∧ same_layout tb tb'.

(** The identifiers [main] insists on are all set and not empty. *)
Definition config_complete (cfg : Config) : bool :=
  Py.truthy (SQL_SERVER cfg) && Py.truthy (SQL_DATABASE cfg)
  && Py.truthy (BQ_PROJECT_ID cfg) && Py.truthy (BQ_DATASET cfg).

(** The table names a run works on: the entries of the list, stripped, the
    blank ones left out. *)
Definition table_names (ts : list string) : list string :=
  filter (fun t => t ≠ EmptyString) (Py.strip <$> ts).

(** The BigQuery types [_convert_schema] can give a column. *)
Definition bq_types : list string :=
  ["STRING"; "INTEGER"; "NUMERIC"; "FLOAT"; "DATETIME"; "TIME"; "BOOLEAN"; "BYTES"].

(** No query raises in this run. *)
Definition reads_never_raise (w : World) : Prop :=
  ∀ n q, w_raises w n (Execute q) = false.


(** The deletes of a source can be written into a statement as they are:
    the names of the key columns of its tables are identifiers, and the key
    values its change feeds record hold no quote and no backslash. *)
Definition plain_keys (src : Source) : Prop :=
  ∀ t tb, src_tables src !! t = Some tb →
    Forall (fun pk => BigQueryConnection.identifier pk = true) (st_pk tb) ∧
    Forall (fun c => Forall (fun v => BigQueryConnection.plain v = true) (ch_key c))
           (st_changes tb).

(** The names of the tables listed can be put between backquotes. *)
Definition quotable_names (cfg : Config) : Prop :=
  Forall (fun t => BigQueryConnection.quotable (Py.strip t) = true)
         (TABLES_TO_REPLICATE cfg).

(** ** More scenarios *)

Module Cases.

(** Five orders, stored out of the order of their keys. *)
Definition five_rows : list tuple :=
  Scenario.order_row <$> [5; 3; 1; 4; 2]%nat.

(** The configuration of [Scenario.cfg] with batches of two rows. *)
Definition cfg_pairs : Config :=
  {| SQL_SERVER := Some "sql01"; SQL_DATABASE := Some "sales";
     BQ_PROJECT_ID := Some "analytics"; BQ_DATASET := Some "replica";
     TABLES_TO_REPLICATE_env := Some "orders"; BATCH_SIZE := 2 |}.

(** A first run over a table [orders]: nothing in the warehouse, no state
    file, the feed at version 7. *)
Definition first_run_of (tb : SrcTable) (oracle : nat → Op → bool) : World :=
  Scenario.world (Scenario.source tb 7) ∅ Missing oracle.

(** [orders] with three rows that all belong to one region, the first
    column of its key. *)
Definition one_region : SrcTable :=
  {| st_tracked := true;
     st_columns := [Scenario.column "region" "varchar"; Scenario.column "id" "int"];
     st_pk := ["region"; "id"];
     st_rows := [[VStr "north"; VInt 1]; [VStr "north"; VInt 2]; [VStr "north"; VInt 3]];
     st_changes := [] |}.

Definition counts_fail : nat → Op → bool :=
  fun _ op => match op with Execute (QCount _) => true | _ => false end.

Definition change_queries_fail : nat → Op → bool :=
  fun _ op =>
    match op with
    | Execute (QChanged _ _ _) | Execute (QDeleted _ _ _) => true
    | _ => false
    end.

Definition lookups_fail : nat → Op → bool :=
  fun _ op => match op with GetTable _ => true | _ => false end.

Definition source_down : nat → Op → bool :=
  fun _ op => match op with SqlConnect => true | _ => false end.

(** A first run while the source cannot be reached and the dataset is not
    there yet. *)
Definition before_the_dataset : World :=
  with_dataset false
    (first_run_of (Scenario.orders Scenario.three_rows) source_down).

(** [orders] after version 50: order 2 was updated at version 51, order 3
    inserted at 52 and order 9 deleted at 53. *)
Definition changed_orders : SrcTable :=
  {| st_tracked := true;
     st_columns := [Scenario.column "id" "int"; Scenario.column "amount" "int"];
     st_pk := ["id"];
     st_rows := Scenario.three_rows;
     st_changes :=
       [ {| ch_version := 51; ch_op := Updated; ch_key := [VInt 2] |};
         {| ch_version := 52; ch_op := Inserted; ch_key := [VInt 3] |};
         {| ch_version := 53; ch_op := Deleted; ch_key := [VInt 9] |} ] |}.

(** The table of the warehouse as version 50 left it: orders 1, 2 and 9. *)
Definition replica : TgtTable :=
  {| tt_schema := tt_schema Scenario.created;
     tt_clustering := Some ["id"];
     tt_rows := [ [("id", VInt 1); ("amount", VInt 10)];
                  [("id", VInt 2); ("amount", VInt 15)];
                  [("id", VInt 9); ("amount", VInt 90)] ] |}.

(** A later run: the checkpoint is at 50 and the feed at 55. *)
Definition catching_up (oracle : nat → Op → bool) : World :=
  Scenario.running (Scenario.source changed_orders 55) {[ "orders" := replica ]}
                   (Scenario.checkpoint 50) oracle.

(** The change set that run fetches. *)
Definition upserts : DataFrame :=
  [ [("id", VInt 2); ("amount", VInt 20); ("SYS_CHANGE_OPERATION", VStr "U")];
    [("id", VInt 3); ("amount", VInt 30); ("SYS_CHANGE_OPERATION", VStr "I")] ].

Definition deletes : DataFrame := [ [("id", VInt 9)] ].



End Cases.

(** A write of the state file. *)
Definition is_state_write (e : Event) : bool :=
  match e with
  | Call WriteState _ _ => true
  | _ => false
  end.
(** * Properties *)

(** ** Running computations *)

Lemma bind_run {A B} (m : M A) (k : A → M B) w a w' :
  m w = (a, w') → bind m k w = k a w'.
Proof. unfold bind. by intros ->. Qed.

Lemma bind_eta {A B} (m : M A) (k : A → M B) w :
  bind m k w = k (fst (m w)) (snd (m w)).
Proof. unfold bind. by destruct (m w). Qed.

Lemma extend_extend tr1 tr2 w : extend tr2 (extend tr1 w) = extend (tr1 ++ tr2) w.
Proof. unfold extend, with_trace; simpl. by rewrite app_assoc. Qed.

Lemma extend_nil w : extend [] w = w.
Proof. destruct w; unfold extend, with_trace; simpl. by rewrite app_nil_r. Qed.

Lemma with_target_extend tg tr w :
  with_target tg (extend tr w) = extend tr (with_target tg w).
Proof. reflexivity. Qed.

Lemma with_state_extend st tr w :
  with_state st (extend tr w) = extend tr (with_state st w).
Proof. reflexivity. Qed.

Lemma with_file_extend f tr w :
  with_file f (extend tr w) = extend tr (with_file f w).
Proof. reflexivity. Qed.

Lemma with_dataset_extend ds tr w :
  with_dataset ds (extend tr w) = extend tr (with_dataset ds w).
Proof. reflexivity. Qed.

Lemma calls_since_app w w' tr :
  w_trace w' = w_trace w ++ tr → calls_since w w' = tr.
Proof. unfold calls_since. intros ->. by rewrite drop_app_length. Qed.

(** ** Reading a field of an updated world *)

Lemma w_source_extend tr w : w_source (extend tr w) = w_source w.
Proof. reflexivity. Qed.

Lemma w_dataset_extend tr w : w_dataset (extend tr w) = w_dataset w.
Proof. reflexivity. Qed.

Lemma w_target_extend tr w : w_target (extend tr w) = w_target w.
Proof. reflexivity. Qed.

Lemma w_file_extend tr w : w_file (extend tr w) = w_file w.
Proof. reflexivity. Qed.

Lemma w_now_extend tr w : w_now (extend tr w) = w_now w.
Proof. reflexivity. Qed.

Lemma w_raises_extend tr w : w_raises (extend tr w) = w_raises w.
Proof. reflexivity. Qed.

Lemma w_garbled_extend tr w : w_garbled (extend tr w) = w_garbled w.
Proof. reflexivity. Qed.

Lemma w_trace_extend tr w : w_trace (extend tr w) = w_trace w ++ tr.
Proof. reflexivity. Qed.

Lemma w_state_extend tr w : w_state (extend tr w) = w_state w.
Proof. reflexivity. Qed.

Lemma w_source_with_dataset ds w : w_source (with_dataset ds w) = w_source w.
Proof. reflexivity. Qed.

Lemma w_dataset_with_dataset ds w : w_dataset (with_dataset ds w) = ds.
Proof. reflexivity. Qed.

Lemma w_target_with_dataset ds w : w_target (with_dataset ds w) = w_target w.
Proof. reflexivity. Qed.

Lemma w_file_with_dataset ds w : w_file (with_dataset ds w) = w_file w.
Proof. reflexivity. Qed.

Lemma w_now_with_dataset ds w : w_now (with_dataset ds w) = w_now w.
Proof. reflexivity. Qed.

Lemma w_raises_with_dataset ds w : w_raises (with_dataset ds w) = w_raises w.
Proof. reflexivity. Qed.

Lemma w_garbled_with_dataset ds w : w_garbled (with_dataset ds w) = w_garbled w.
Proof. reflexivity. Qed.

Lemma w_trace_with_dataset ds w : w_trace (with_dataset ds w) = w_trace w.
Proof. reflexivity. Qed.

Lemma w_state_with_dataset ds w : w_state (with_dataset ds w) = w_state w.
Proof. reflexivity. Qed.

Lemma w_source_with_target tg w : w_source (with_target tg w) = w_source w.
Proof. reflexivity. Qed.

Lemma w_dataset_with_target tg w : w_dataset (with_target tg w) = w_dataset w.
Proof. reflexivity. Qed.

Lemma w_target_with_target tg w : w_target (with_target tg w) = tg.
Proof. reflexivity. Qed.

Lemma w_file_with_target tg w : w_file (with_target tg w) = w_file w.
Proof. reflexivity. Qed.

Lemma w_now_with_target tg w : w_now (with_target tg w) = w_now w.
Proof. reflexivity. Qed.

Lemma w_raises_with_target tg w : w_raises (with_target tg w) = w_raises w.
Proof. reflexivity. Qed.

Lemma w_garbled_with_target tg w : w_garbled (with_target tg w) = w_garbled w.
Proof. reflexivity. Qed.

Lemma w_trace_with_target tg w : w_trace (with_target tg w) = w_trace w.
Proof. reflexivity. Qed.

Lemma w_state_with_target tg w : w_state (with_target tg w) = w_state w.
Proof. reflexivity. Qed.

Lemma w_source_with_file f w : w_source (with_file f w) = w_source w.
Proof. reflexivity. Qed.

Lemma w_dataset_with_file f w : w_dataset (with_file f w) = w_dataset w.
Proof. reflexivity. Qed.

Lemma w_target_with_file f w : w_target (with_file f w) = w_target w.
Proof. reflexivity. Qed.

Lemma w_file_with_file f w : w_file (with_file f w) = f.
Proof. reflexivity. Qed.

Lemma w_now_with_file f w : w_now (with_file f w) = w_now w.
Proof. reflexivity. Qed.

Lemma w_raises_with_file f w : w_raises (with_file f w) = w_raises w.
Proof. reflexivity. Qed.

Lemma w_garbled_with_file f w : w_garbled (with_file f w) = w_garbled w.
Proof. reflexivity. Qed.

Lemma w_trace_with_file f w : w_trace (with_file f w) = w_trace w.
Proof. reflexivity. Qed.

Lemma w_state_with_file f w : w_state (with_file f w) = w_state w.
Proof. reflexivity. Qed.

Lemma w_source_with_state st w : w_source (with_state st w) = w_source w.
Proof. reflexivity. Qed.

Lemma w_dataset_with_state st w : w_dataset (with_state st w) = w_dataset w.
Proof. reflexivity. Qed.

Lemma w_target_with_state st w : w_target (with_state st w) = w_target w.
Proof. reflexivity. Qed.

Lemma w_file_with_state st w : w_file (with_state st w) = w_file w.
Proof. reflexivity. Qed.

Lemma w_now_with_state st w : w_now (with_state st w) = w_now w.
Proof. reflexivity. Qed.

Lemma w_raises_with_state st w : w_raises (with_state st w) = w_raises w.
Proof. reflexivity. Qed.

Lemma w_garbled_with_state st w : w_garbled (with_state st w) = w_garbled w.
Proof. reflexivity. Qed.

Lemma w_trace_with_state st w : w_trace (with_state st w) = w_trace w.
Proof. reflexivity. Qed.

Lemma w_state_with_state st w : w_state (with_state st w) = st.
Proof. reflexivity. Qed.

Create Rewrite HintDb world.

#[local] Hint Rewrite
  w_source_extend
  w_dataset_extend
  w_target_extend
  w_file_extend
  w_now_extend
  w_raises_extend
  w_garbled_extend
  w_trace_extend
  w_state_extend
  w_source_with_dataset
  w_dataset_with_dataset
  w_target_with_dataset
  w_file_with_dataset
  w_now_with_dataset
  w_raises_with_dataset
  w_garbled_with_dataset
  w_trace_with_dataset
  w_state_with_dataset
  w_source_with_target
  w_dataset_with_target
  w_target_with_target
  w_file_with_target
  w_now_with_target
  w_raises_with_target
  w_garbled_with_target
  w_trace_with_target
  w_state_with_target
  w_source_with_file
  w_dataset_with_file
  w_target_with_file
  w_file_with_file
  w_now_with_file
  w_raises_with_file
  w_garbled_with_file
  w_trace_with_file
  w_state_with_file
  w_source_with_state
  w_dataset_with_state
  w_target_with_state
  w_file_with_state
  w_now_with_state
  w_raises_with_state
  w_garbled_with_state
  w_trace_with_state
  w_state_with_state
  : world.

Ltac tidy :=
  cbv beta zeta;
  repeat first [ rewrite with_target_extend | rewrite with_state_extend
               | rewrite with_file_extend | rewrite with_dataset_extend
               | rewrite extend_extend ];
  autorewrite with world in *;
  cbn [app negb]; rewrite <- ?app_assoc; cbn [app].

Lemma execute_query_run q w :
  SQLServerConnection.execute_query q w =
    (query_result q w,
     extend [Call (Execute q) (query_failed q w) (length (query_result q w))] w).
Proof.
  unfold SQLServerConnection.execute_query, query_result, query_failed, bind, raises, gets.
  destruct (w_raises w _ _); [done|].
  destruct (SQLServerConnection.answer q (w_source w)); done.
Qed.

Section methods.
Import SQLServerConnection.

Lemma is_change_tracking_enabled_run t w :
  is_change_tracking_enabled t w =
    (hd false (query_result (QTracked t) w),
     extend [Call (Execute (QTracked t)) (query_failed (QTracked t) w)
                  (length (query_result (QTracked t) w))] w).
Proof.
  unfold is_change_tracking_enabled.
  rewrite (bind_run _ _ _ _ _ (execute_query_run _ _)).
  by destruct (query_result _ _).
Qed.

Lemma get_change_tracking_current_version_run w :
  get_change_tracking_current_version w =
    (hd 0%Z (query_result QVersion w),
     extend [Call (Execute QVersion) (query_failed QVersion w)
                  (length (query_result QVersion w))] w).
Proof.
  unfold get_change_tracking_current_version.
  rewrite (bind_run _ _ _ _ _ (execute_query_run _ _)).
  by destruct (query_result _ _).
Qed.

Lemma get_primary_key_columns_run t w :
  get_primary_key_columns t w =
    (query_result (QPrimaryKey t) w,
     extend [Call (Execute (QPrimaryKey t)) (query_failed (QPrimaryKey t) w)
                  (length (query_result (QPrimaryKey t) w))] w).
Proof.
  unfold get_primary_key_columns.
  rewrite (bind_run _ _ _ _ _ (execute_query_run _ _)).
  by destruct (query_result _ _).
Qed.

Lemma get_table_schema_run t w :
  get_table_schema t w =
    (map column_of (query_result (QSchema t) w),
     extend [Call (Execute (QSchema t)) (query_failed (QSchema t) w)
                  (length (query_result (QSchema t) w))] w).
Proof.
  unfold get_table_schema.
  by rewrite (bind_run _ _ _ _ _ (execute_query_run _ _)).
Qed.

End methods.

Lemma calls_since_extend tr w : calls_since w (extend tr w) = tr.
Proof. unfold calls_since; simpl. by rewrite drop_app_length. Qed.

Section stores.
Import BigQueryConnection StateManager.

Lemma table_exists_run t w :
  let found := negb (w_raises w (length (w_trace w)) (GetTable t))
               && bool_decide (is_Some (w_target w !! t)) in
  table_exists t w = (found, extend [Call (GetTable t) (negb found) 0] w).
Proof. reflexivity. Qed.

Lemma create_table_run t schema w :
  create_table t schema w =
    if w_raises w (length (w_trace w)) (CreateTable t)
       || bool_decide (is_Some (w_target w !! t))
    then (false, extend [Call (CreateTable t) true 0] w)
    else (true, extend [Call (CreateTable t) false 0]
                  (with_target (<[t := {| tt_schema := _convert_schema schema;
                                          tt_clustering := clustering_fields schema;
                                          tt_rows := [] |}]> (w_target w)) w)).
Proof.
  unfold create_table, bind, raises, gets. simpl.
  by destruct (_ || _).
Qed.

Lemma load_dataframe_run df t d w :
  load_dataframe df t d w =
    if df_empty df then (true, w)
    else (false, extend [Call (LoadJob t d) true (length df)] w).
Proof. unfold load_dataframe. by destruct (df_empty df). Qed.

Lemma get_last_sync_version_run t w :
  get_last_sync_version t w = (stored_version t w, w).
Proof. reflexivity. Qed.

Lemma update_sync_version_run t v w :
  let st := <[t := {| last_sync_version := Some v;
                      last_sync_time := Some (w_now w) |}]> (w_state w) in
  let raised := w_raises w (length (w_trace w)) WriteState in
  let at_open := w_raises w (length (w_trace w)) OpenState in
  update_sync_version t v w =
    (tt, extend [Call WriteState raised 0]
           (with_file (written raised at_open (w_file w) st) (with_state st w))).
Proof.
  unfold update_sync_version, _save_state, written, bind, raises, gets, modify; simpl.
  destruct (w_raises w _ WriteState); cbn; [|done].
  destruct (w_raises w _ OpenState); [|done].
  by destruct w.
Qed.

End stores.

(** ** The checkpoint file at start-up *)




(** With an unreadable state file the run goes on: the table is fetched
    again from version 0 and the file is rewritten. *)
Example unreadable_state_file_replays_from_zero :
  let w := Scenario.garbled_file in
  let r := main Scenario.cfg w in
  fst r = 0%Z ∧
  w_trace (snd r) =
    [Call ReadState true 0;
     Call SqlConnect false 0; Call BqConnect false 0; Call GetDataset false 0;
     Call (Execute (QTracked "orders")) false 1;
     Call (Execute (QSchema "orders")) false 2;
     Call (Execute (QPrimaryKey "orders")) false 1;
     Call (GetTable "orders") false 0;
     Call (Execute (QTracked "orders")) false 1;
     Call (Execute QVersion) false 1;
     Call (Execute (QPrimaryKey "orders")) false 1;
     Call (Execute (QChanged "orders" ["id"] 0)) false 0;
     Call (Execute (QDeleted "orders" ["id"] 0)) false 0;
     Call WriteState false 0] ∧
  persisted_version "orders" (snd r) = Some 7%Z.
Proof. vm_compute. repeat split; reflexivity. Qed.

(** ** The table list *)

Lemma split_nonempty sep s : Py.split sep s ≠ [].
Proof. destruct s as [|c s]; simpl; [done|]. by repeat case_match. Qed.

(** The list [main] tests is never empty, so its third guard never fires. *)
Lemma TABLES_TO_REPLICATE_nonempty cfg : TABLES_TO_REPLICATE cfg ≠ [].
Proof. apply split_nonempty. Qed.

Lemma with_dataset_same w : with_dataset (w_dataset w) w = w.
Proof. by destruct w. Qed.

Section connections.
Import BigQueryConnection.

(** [_ensure_dataset_exists] looks the dataset up and, when the lookup
    raises, tries to create it. *)
Lemma _ensure_dataset_exists_run w :
  let found := negb (w_raises w (length (w_trace w)) GetDataset) && w_dataset w in
  let failed := w_raises w (S (length (w_trace w))) CreateDataset || w_dataset w in
  _ensure_dataset_exists w =
    (tt, if found then extend [Call GetDataset false 0] w
         else if failed
         then extend [Call GetDataset true 0; Call CreateDataset true 0] w
         else extend [Call GetDataset true 0; Call CreateDataset false 0]
                (with_dataset true w)).
Proof.
  unfold _ensure_dataset_exists, bind, raises, gets, log, modify; cbn.
  destruct (negb _ && _); [done|]. cbn.
  rewrite length_app, Nat.add_1_r.
  destruct (_ || _); cbn; by rewrite ?with_dataset_extend, ?extend_extend.
Qed.

(** It touches nothing but the dataset. *)
Lemma _ensure_dataset_exists_step w :
  ∃ tr ds, _ensure_dataset_exists w = (tt, extend tr (with_dataset ds w)) ∧
           Forall (fun e => dataset_call e = true) tr.
Proof.
  rewrite _ensure_dataset_exists_run. cbv zeta.
  destruct (negb _ && _); [|destruct (_ || _)].
  - exists [Call GetDataset false 0], (w_dataset w).
    rewrite with_dataset_same. split; [done|]. by repeat constructor.
  - exists [Call GetDataset true 0; Call CreateDataset true 0], (w_dataset w).
    rewrite with_dataset_same. split; [done|]. by repeat constructor.
  - exists [Call GetDataset true 0; Call CreateDataset false 0], true.
    split; [done|]. by repeat constructor.
Qed.

Lemma connect_run w :
  let raised := w_raises w (length (w_trace w)) BqConnect in
  let w1 := extend [Call BqConnect raised 0] w in
  connect w = (negb raised, if raised then w1 else snd (_ensure_dataset_exists w1)).
Proof.
  cbv zeta. unfold connect, bind, raises, log, modify, ret. cbv beta iota.
  destruct (w_raises w _ _); [done|].
  by destruct (_ensure_dataset_exists _) as [[] ?].
Qed.

Lemma initialize_run w :
  let sql_raised := w_raises w (length (w_trace w)) SqlConnect in
  let bq_raised := w_raises w (S (length (w_trace w))) BqConnect in
  let w2 := extend [Call SqlConnect sql_raised 0; Call BqConnect bq_raised 0] w in
  Replicator.initialize w =
    (negb sql_raised && negb bq_raised,
     if bq_raised then w2 else snd (_ensure_dataset_exists w2)).
Proof.
  cbv zeta. unfold Replicator.initialize, SQLServerConnection.connect.
  unfold bind, raises, log, modify, ret. cbv beta iota.
  pose proof (connect_run
    (extend [Call SqlConnect (w_raises w (length (w_trace w)) SqlConnect) 0] w)) as H.
  cbv zeta in H. destruct (connect _) as [b w']. injection H as -> ->.
  autorewrite with world. rewrite length_app, Nat.add_1_r, !extend_extend. cbn [app].
  by destruct (w_raises w (S _) _).
Qed.

(** The calls of [initialize]: the two connections, then those of
    [_ensure_dataset_exists] when the client was built. *)
Lemma initialize_step w :
  let sql_raised := w_raises w (length (w_trace w)) SqlConnect in
  let bq_raised := w_raises w (S (length (w_trace w))) BqConnect in
  ∃ tr ds,
    Replicator.initialize w =
      (negb sql_raised && negb bq_raised,
       extend (Call SqlConnect sql_raised 0 :: Call BqConnect bq_raised 0 :: tr)
              (with_dataset ds w)) ∧
    Forall (fun e => dataset_call e = true) tr ∧
    (bq_raised = true → tr = [] ∧ ds = w_dataset w).
Proof.
  cbv zeta. rewrite initialize_run. cbv zeta.
  destruct (w_raises w (S _) _).
  - exists [], (w_dataset w). by rewrite with_dataset_same.
  - match goal with |- context [_ensure_dataset_exists ?w0] =>
      destruct (_ensure_dataset_exists_step w0) as (tr & ds & -> & Htr) end.
    exists tr, ds. cbn [snd]. rewrite with_dataset_extend, extend_extend.
    by repeat split.
Qed.

End connections.

(** C7.  With the source and target identifiers set and no table listed
    ([TABLES_TO_REPLICATE] unset or empty), [main] does not abort: it reads
    the state file, attempts both connections (the second one looks the
    dataset up once the client is built) and, when both succeed, runs over
    an empty table list and exits with code 0. *)
Theorem C7_no_table_listed_connects_and_exits_0 cfg w :
  Py.truthy (SQL_SERVER cfg) = true →
  Py.truthy (SQL_DATABASE cfg) = true →
  Py.truthy (BQ_PROJECT_ID cfg) = true →
  Py.truthy (BQ_DATASET cfg) = true →
  default EmptyString (TABLES_TO_REPLICATE_env cfg) = EmptyString →
  let w1 := snd (StateManager.init w) in
  let sql_raised := w_raises w1 (length (w_trace w1)) SqlConnect in
  let bq_raised := w_raises w1 (S (length (w_trace w1))) BqConnect in
  let w2 := extend [Call SqlConnect sql_raised 0; Call BqConnect bq_raised 0] w1 in
  main cfg w =
    (if sql_raised || bq_raised then 1%Z else 0%Z,
     if bq_raised then w2 else snd (BigQueryConnection._ensure_dataset_exists w2)).
Proof.
  intros H1 H2 H3 H4 Ht. unfold main, Replicator.init.
  rewrite H1, H2, H3, H4. simpl.
  unfold TABLES_TO_REPLICATE. rewrite Ht. simpl.
  destruct (StateManager.init w) as [[] w1] eqn:Hinit.
  rewrite (bind_run _ _ _ _ _ Hinit).
  rewrite (bind_run _ _ _ _ _ (initialize_run w1)). simpl.
  destruct (w_raises w1 (length (w_trace w1)) SqlConnect);
    [by destruct (w_raises w1 _ _)|].
  destruct (w_raises w1 (S (length (w_trace w1))) BqConnect); [done|].
  simpl. unfold Replicator.replicate_all_tables, TABLES_TO_REPLICATE.
  by rewrite Ht.
Qed.

Lemma C7_witness :
  let cfg := Scenario.cfg_no_tables in
  let w := Scenario.world (Scenario.source (Scenario.orders Scenario.three_rows) 7)
                          ∅ Missing Scenario.healthy in
  let w1 := snd (StateManager.init w) in
  let sql_raised := w_raises w1 (length (w_trace w1)) SqlConnect in
  let bq_raised := w_raises w1 (S (length (w_trace w1))) BqConnect in
  let w2 := extend [Call SqlConnect sql_raised 0; Call BqConnect bq_raised 0] w1 in
  main cfg w =
    (if sql_raised || bq_raised then 1%Z else 0%Z,
     if bq_raised then w2 else snd (BigQueryConnection._ensure_dataset_exists w2)).
Proof.
  apply (C7_no_table_listed_connects_and_exits_0 Scenario.cfg_no_tables
           (Scenario.world (Scenario.source (Scenario.orders Scenario.three_rows) 7)
                           ∅ Missing Scenario.healthy));
    reflexivity.
Defined.

(** A run with no table listed, spelled out: the table list is the single
    empty name, both connections are made, the dataset is looked up, and
    the exit code is 0. *)
Lemma main_without_tables :
  let w := Scenario.world (Scenario.source (Scenario.orders Scenario.three_rows) 7)
                          ∅ Missing Scenario.healthy in
  TABLES_TO_REPLICATE Scenario.cfg_no_tables = [EmptyString] ∧
  fst (main Scenario.cfg_no_tables w) = 0%Z ∧
  w_trace (snd (main Scenario.cfg_no_tables w)) =
    [Call SqlConnect false 0; Call BqConnect false 0; Call GetDataset false 0].
Proof. vm_compute. repeat split; reflexivity. Qed.

(** ** [get_changed_data] *)

Section changes.
Import SQLServerConnection.

Lemma query_version w :
  query_result QVersion w =
    if w_raises w (length (w_trace w)) (Execute QVersion) then []
    else [src_version (w_source w)].
Proof. reflexivity. Qed.

Lemma query_tracked t w :
  hd false (query_result (QTracked t) w) =
    negb (w_raises w (length (w_trace w)) (Execute (QTracked t))) && tracked t w.
Proof.
  unfold query_result, tracked; simpl.
  destruct (w_raises w _ _); [done|]. simpl.
  by destruct (src_tables (w_source w) !! t).
Qed.

Lemma query_primary_key t w :
  query_result (QPrimaryKey t) w =
    if w_raises w (length (w_trace w)) (Execute (QPrimaryKey t)) then []
    else pk_of t w.
Proof. reflexivity. Qed.

Lemma query_schema t w :
  query_result (QSchema t) w =
    if w_raises w (length (w_trace w)) (Execute (QSchema t)) then []
    else from_option st_columns [] (src_tables (w_source w) !! t).
Proof. reflexivity. Qed.

Lemma stored_version_insert t v now st w :
  w_state w = <[t := {| last_sync_version := Some v; last_sync_time := now |}]> st →
  stored_version t w = v.
Proof. unfold stored_version. intros ->. by rewrite lookup_insert_eq. Qed.

Lemma stored_version_extend t tr w :
  stored_version t (extend tr w) = stored_version t w.
Proof. reflexivity. Qed.

(** The three ways [get_changed_data] ends, one equation for each. *)
Lemma get_changed_data_run t since w :
  let w1 := extend [Call (Execute (QTracked t)) (query_failed (QTracked t) w)
                         (length (query_result (QTracked t) w))] w in
  let v := hd 0%Z (query_result QVersion w1) in
  let w2 := extend [Call (Execute QVersion) (query_failed QVersion w1)
                         (length (query_result QVersion w1))] w1 in
  let pks := query_result (QPrimaryKey t) w2 in
  let w3 := extend [Call (Execute (QPrimaryKey t)) (query_failed (QPrimaryKey t) w2)
                         (length pks)] w2 in
  let changed := query_result (QChanged t pks since) w3 in
  let w4 := extend [Call (Execute (QChanged t pks since))
                         (query_failed (QChanged t pks since) w3) (length changed)] w3 in
  let deleted := query_result (QDeleted t pks since) w4 in
  let w5 := extend [Call (Execute (QDeleted t pks since))
                         (query_failed (QDeleted t pks since) w4) (length deleted)] w4 in
  get_changed_data t since w =
    if negb (hd false (query_result (QTracked t) w)) then ([], [], 0%Z, w1)
    else if (v <=? since)%Z then ([], [], v, w2)
    else match pks with
         | [] => ([], [], 0%Z, w3)
         | _ => (to_dicts (from_option Sql.names [] (src_tables (w_source w) !! t)
                           ++ ["SYS_CHANGE_OPERATION"]) changed,
                 to_dicts pks deleted, v, w5)
         end.
Proof.
  intros. unfold get_changed_data.
  rewrite (bind_run _ _ _ _ _ (is_change_tracking_enabled_run t w)).
  destruct (negb _); [done|]. fold w1.
  rewrite (bind_run _ _ _ _ _ (get_change_tracking_current_version_run w1)).
  fold v w2. destruct (v <=? since)%Z; [done|].
  rewrite (bind_run _ _ _ _ _ (get_primary_key_columns_run t w2)).
  fold pks w3. destruct pks as [|pk pks'] eqn:Hpks; [done|].
  rewrite (bind_run _ _ _ _ _ (execute_query_run _ w3)).
  unfold description at 1. unfold bind at 1. unfold gets at 1.
  rewrite (bind_run _ _ _ _ _ (execute_query_run _ _)).
  reflexivity.
Qed.

(** [get_changed_data] only reads: it adds queries to the trace, none of
    them part of a full scan. *)
Lemma get_changed_data_quiet t since w :
  ∃ tr, snd (get_changed_data t since w) = extend tr w ∧
        Forall (fun e => read_only_call e = true) tr.
Proof.
  pose proof (get_changed_data_run t since w) as H. cbv zeta in H. rewrite H.
  repeat case_match; simpl; repeat rewrite extend_extend; simpl;
    eexists; (split; [reflexivity|]); repeat constructor.
Qed.

(** The version reported is the current version of the feed, or 0. *)
Lemma get_changed_data_version t since w :
  new_version (fst (get_changed_data t since w)) = 0%Z ∨
  new_version (fst (get_changed_data t since w)) = src_version (w_source w).
Proof.
  pose proof (get_changed_data_run t since w) as H. cbv zeta in H. rewrite H.
  rewrite query_version. simpl.
  repeat case_match; simpl; auto.
Qed.

End changes.

(** ** Stepping through a pass

    Each method leaves the world it found, with the calls it made added to
    the trace.  The lemmas below give the result of a method and name the
    call; the flags of the event stay abstract. *)

Section steps.
Import SQLServerConnection BigQueryConnection.

Lemma is_change_tracking_enabled_step t w :
  ∃ failed n, is_change_tracking_enabled t w =
    (negb (w_raises w (length (w_trace w)) (Execute (QTracked t))) && tracked t w,
     extend [Call (Execute (QTracked t)) failed n] w).
Proof. do 2 eexists. by rewrite is_change_tracking_enabled_run, query_tracked. Qed.

Lemma get_table_schema_step t w :
  ∃ failed n, get_table_schema t w =
    (map column_of (query_result (QSchema t) w),
     extend [Call (Execute (QSchema t)) failed n] w).
Proof. do 2 eexists. by rewrite get_table_schema_run. Qed.

Lemma get_primary_key_columns_step t w :
  ∃ failed n, get_primary_key_columns t w =
    (query_result (QPrimaryKey t) w,
     extend [Call (Execute (QPrimaryKey t)) failed n] w).
Proof. do 2 eexists. by rewrite get_primary_key_columns_run. Qed.

Lemma get_change_tracking_current_version_step w :
  ∃ failed n, get_change_tracking_current_version w =
    ((if w_raises w (length (w_trace w)) (Execute QVersion) then 0
      else src_version (w_source w))%Z,
     extend [Call (Execute QVersion) failed n] w).
Proof.
  exists (query_failed QVersion w), (length (query_result QVersion w)).
  rewrite get_change_tracking_current_version_run. f_equal.
  rewrite query_version. by destruct (w_raises w _ _).
Qed.

Lemma table_exists_step t w :
  ∃ found, found = negb (w_raises w (length (w_trace w)) (GetTable t))
                   && bool_decide (is_Some (w_target w !! t)) ∧
    table_exists t w = (found, extend [Call (GetTable t) (negb found) 0] w).
Proof. eexists. split; [reflexivity|]. apply table_exists_run. Qed.

Lemma get_changed_data_step t since w :
  ∃ r tr, get_changed_data t since w = (r, extend tr w) ∧
          Forall (fun e => read_only_call e = true) tr.
Proof.
  destruct (get_changed_data_quiet t since w) as (tr & E & Htr).
  destruct (get_changed_data t since w) as [r w'] eqn:Hrun. simpl in E.
  exists r, tr. by subst w'.
Qed.

End steps.

(** ** The full scan only reads *)

Section quiet.
Import SQLServerConnection.

Lemma quiet_ret {A} (a : A) : quiet (ret a).
Proof. intros w. exists []. by rewrite extend_nil. Qed.

Lemma quiet_gets {A} (f : World → A) : quiet (gets f).
Proof. intros w. exists []. by rewrite extend_nil. Qed.

Lemma quiet_bind {A B} (m : M A) (k : A → M B) :
  quiet m → (∀ a, quiet (k a)) → quiet (bind m k).
Proof.
  intros Hm Hk w. rewrite bind_eta.
  destruct (Hm w) as (tr1 & -> & H1).
  destruct (Hk (fst (m w)) (extend tr1 w)) as (tr2 & -> & H2).
  exists (tr1 ++ tr2). rewrite extend_extend. split; [done|].
  by apply Forall_app.
Qed.

Lemma quiet_execute_query q : quiet (execute_query q).
Proof.
  intros w. rewrite execute_query_run. eexists. split; [reflexivity|].
  by repeat constructor.
Qed.

Lemma quiet_get_primary_key_columns t : quiet (get_primary_key_columns t).
Proof.
  intros w. rewrite get_primary_key_columns_run. eexists. split; [reflexivity|].
  by repeat constructor.
Qed.

Lemma quiet_offset_loop t bs offsets all_data : quiet (offset_loop t bs offsets all_data).
Proof.
  revert all_data. induction offsets as [|o rest IH]; intros all_data; simpl.
  - apply quiet_ret.
  - apply quiet_bind; [apply (quiet_execute_query (QOffset t o bs))|].
    intros [|row batch]; [apply quiet_ret|].
    apply quiet_bind; [apply quiet_gets|]. intros columns. apply IH.
Qed.

Lemma quiet_pk_loop fuel t pk bs last_pk_value all_data :
  quiet (pk_loop fuel t pk bs last_pk_value all_data).
Proof.
  revert last_pk_value all_data.
  induction fuel as [|fuel IH]; intros last_pk_value all_data; simpl.
  - apply quiet_ret.
  - apply quiet_bind.
    { destruct last_pk_value as [v|];
        [apply (quiet_execute_query (QTopAfter t pk bs v))
        |apply (quiet_execute_query (QTop t pk bs))]. }
    intros [|row batch]; [apply quiet_ret|].
    apply quiet_bind; [apply quiet_gets|]. intros columns.
    destruct (_ ≫= _); [|apply quiet_ret].
    destruct (_ <? _)%nat; [apply quiet_ret|apply IH].
Qed.

Lemma quiet_get_all_data t bs : quiet (get_all_data t bs).
Proof.
  unfold get_all_data.
  apply quiet_bind; [apply (quiet_execute_query (QCount t))|]. intros count_result.
  destruct (_ =? 0)%nat; [apply quiet_ret|].
  apply quiet_bind; [apply quiet_get_primary_key_columns|]. intros pk_columns.
  apply quiet_bind.
  - destruct pk_columns as [|pk pks].
    + unfold _get_all_data_with_offset. destruct bs; [apply quiet_ret|].
      apply quiet_bind; [apply quiet_offset_loop|]. intros; apply quiet_ret.
    + unfold _get_all_data_with_pk.
      apply quiet_bind; [apply quiet_gets|]. intros; apply quiet_pk_loop.
  - intros [df| |]; apply quiet_ret.
Qed.

Lemma get_all_data_step t bs w :
  ∃ df tr, get_all_data t bs w = (df, extend tr w) ∧
           Forall (fun e => is_query e = true) tr.
Proof.
  destruct (quiet_get_all_data t bs w) as (tr & E & Htr).
  destruct (get_all_data t bs w) as [df w'] eqn:Hrun. simpl in E.
  exists df, tr. by subst w'.
Qed.

End quiet.

(** ** Stepping through the stores *)

Section store_steps.
Import BigQueryConnection StateManager.

Lemma create_table_step t schema w :
  create_table t schema w = (false, extend [Call (CreateTable t) true 0] w) ∨
  (w_target w !! t = None ∧
   create_table t schema w =
     (true, extend [Call (CreateTable t) false 0]
              (with_target (<[t := {| tt_schema := _convert_schema schema;
                                      tt_clustering := clustering_fields schema;
                                      tt_rows := [] |}]> (w_target w)) w))).
Proof.
  rewrite create_table_run.
  destruct (w_raises w _ _); [by left|].
  case_bool_decide as Hex; [by left|]. right. split; [|done].
  by apply eq_None_not_Some.
Qed.

(** A load of a frame that is not empty fails, and leaves the warehouse
    alone. *)
Lemma load_dataframe_step df t d w :
  df_empty df = false →
  load_dataframe df t d w = (false, extend [Call (LoadJob t d) true (length df)] w).
Proof. intros Hne. by rewrite load_dataframe_run, Hne. Qed.

(** A delete job fails, or it leaves some warehouse behind. *)
Lemma delete_rows_step t pk_df w :
  df_empty pk_df = false →
  delete_rows t pk_df w = (false, extend [Call (DeleteJob t) true (length pk_df)] w) ∨
  ∃ tg,
    delete_rows t pk_df w =
      (true, extend [Call (DeleteJob t) false (length pk_df)] (with_target tg w)).
Proof.
  intros Hne. unfold delete_rows, bind, raises, gets. rewrite Hne.
  destruct (quotable t && plain_frame pk_df).
  - destruct (w_raises w _ _); [by left|].
    destruct (w_target w !! t) as [tb|] eqn:Htb; [|by left].
    right. by eexists.
  - destruct (w_raises w _ _); [by left|]. right. by eexists.
Qed.

Lemma update_sync_version_step t v w :
  ∃ raised at_open,
    raised = w_raises w (length (w_trace w)) WriteState ∧
    at_open = w_raises w (length (w_trace w)) OpenState ∧
    update_sync_version t v w =
      (tt, extend [Call WriteState raised 0]
             (let st := <[t := {| last_sync_version := Some v;
                                  last_sync_time := Some (w_now w) |}]> (w_state w) in
              with_file (written raised at_open (w_file w) st) (with_state st w))).
Proof. do 2 eexists. do 2 (split; [reflexivity|]). apply update_sync_version_run. Qed.

End store_steps.

Ltac step_by E k w := rewrite (bind_run _ k w _ _ E); clear E; tidy.

(** One method call at the head of the computation in the goal. *)
Ltac step :=
  lazymatch goal with
  | |- context [bind (SQLServerConnection.is_change_tracking_enabled ?t) ?k ?w] =>
      let E := fresh "E" in
      destruct (is_change_tracking_enabled_step t w) as (? & ? & E); step_by E k w
  | |- context [bind (SQLServerConnection.get_table_schema ?t) ?k ?w] =>
      let E := fresh "E" in
      destruct (get_table_schema_step t w) as (? & ? & E); step_by E k w
  | |- context [bind (SQLServerConnection.get_primary_key_columns ?t) ?k ?w] =>
      let E := fresh "E" in
      destruct (get_primary_key_columns_step t w) as (? & ? & E); step_by E k w
  | |- context [bind SQLServerConnection.get_change_tracking_current_version ?k ?w] =>
      let E := fresh "E" in
      destruct (get_change_tracking_current_version_step w) as (? & ? & E); step_by E k w
  | |- context [bind (BigQueryConnection.table_exists ?t) ?k ?w] =>
      let E := fresh "E" in let found := fresh "found" in let H := fresh "Hfound" in
      destruct (table_exists_step t w) as (found & H & E); step_by E k w
  | |- context [bind (StateManager.get_last_sync_version ?t) ?k ?w] =>
      rewrite (bind_run _ k w _ _ (get_last_sync_version_run t w)); tidy
  | |- context [bind (StateManager.update_sync_version ?t ?v) ?k ?w] =>
      let E := fresh "E" in let r := fresh "raised" in let H := fresh "Hraised" in
      let o := fresh "at_open" in let Ho := fresh "Hopen" in
      destruct (update_sync_version_step t v w) as (r & o & H & Ho & E); step_by E k w
  | |- context [bind (SQLServerConnection.get_all_data ?t ?bs) ?k ?w] =>
      let E := fresh "E" in let df := fresh "df" in
      let tr := fresh "scan" in let H := fresh "Hscan" in
      destruct (get_all_data_step t bs w) as (df & tr & E & H); step_by E k w
  | |- context [bind (BigQueryConnection.create_table ?t ?s) ?k ?w] =>
      let E := fresh "E" in let H := fresh "Hfree" in
      destruct (create_table_step t s w) as [E|[H E]]; step_by E k w
  | |- context [bind (SQLServerConnection.get_changed_data ?t ?s) ?k ?w] =>
      let E := fresh "E" in let Hver := fresh "Hversion" in
      let tr := fresh "fetch" in let H := fresh "Hfetch" in
      let ch := fresh "changed_df" in let del := fresh "deleted_df" in
      let v := fresh "current_version" in
      pose proof (get_changed_data_version t s w) as Hver;
      destruct (get_changed_data_step t s w) as ([[ch del] v] & tr & E & H);
      rewrite E in *; cbn [fst snd new_version] in Hver; step_by E k w
  | |- context [bind (BigQueryConnection.load_dataframe ?df ?t ?d) ?k ?w] =>
      let E := fresh "E" in
      pose proof (load_dataframe_step df t d w ltac:(assumption)) as E; step_by E k w
  | |- context [bind (BigQueryConnection.delete_rows ?t ?df) ?k ?w] =>
      let E := fresh "E" in
      destruct (delete_rows_step t df w ltac:(assumption)) as [E|(? & E)];
      step_by E k w
  | |- context [bind (ret ?a) ?k ?w] =>
      change (bind (ret a) k w) with (k a w); tidy
  end.

(** The end of a computation: [ret] gives the result and the world. *)
Ltac leaf :=
  cbv [ret];
  let H := fresh in let Hb := fresh "Hresult" in
  intros H; apply pair_equal_spec in H as [Hb <-];
  try discriminate Hb;
  try (match type of Hb with _ = ?b => is_var b; subst b end);
  cbn.

(** ** What a pass does to the checkpoint *)

Section passes.
Import SQLServerConnection.

(** A pass that fails leaves the state manager and its file alone.  A pass
    that succeeds has called [update_sync_version] once, with 0 or with the
    current version of the feed; the file holds the new state unless the
    write raised, and is either untouched or cut off when it did. *)
Lemma replicate_table_checkpoint cfg t w :
  let r := Replicator.replicate_table cfg t w in
  (fst r = false ∧ w_state (snd r) = w_state w ∧ w_file (snd r) = w_file w) ∨
  (fst r = true ∧
   ∃ v raised at_open,
     (v = src_version (w_source w) ∨
      v = 0%Z ∧ w_target w !! t = None ∧ ¬ never_raises w (Execute QVersion)) ∧
     w_state (snd r) = <[t := {| last_sync_version := Some v;
                                 last_sync_time := Some (w_now w) |}]> (w_state w) ∧
     w_file (snd r) = written raised at_open (w_file w) (w_state (snd r)) ∧
     last (w_trace (snd r)) = Some (Call WriteState raised 0)).
Proof.
  cbv zeta. destruct (Replicator.replicate_table cfg t w) as [b w'] eqn:Hrun.
  revert Hrun. unfold Replicator.replicate_table.
  step. destruct (negb _); [leaf; auto|].
  step. destruct (map column_of _) as [|c cs]; [leaf; auto|].
  step. step. destruct found; cbn [negb].
  - step. step. destruct (Z.eqb_spec current_version 0); [leaf; auto|].
    destruct Hversion as [?| ->]; [done|].
    destruct (df_empty changed_df) eqn:Hd; cbn [negb]; step; try (leaf; by auto).
    all: destruct (df_empty deleted_df) eqn:Hd0; cbn [negb]; step; try (leaf; by auto).
    all: step; leaf; right; split; [done|];
      exists (src_version (w_source w)), raised, at_open.
    all: repeat split; auto; by repeat first [rewrite last_app | rewrite last_cons].
  - step; [leaf; auto|]. step.
    destruct (df_empty df) eqn:Hdf; step; try (leaf; by auto).
    all: step; step; leaf; right; split; [done|].
    all: match goal with |- context [w_raises ?w0 ?n (Execute QVersion)] =>
           destruct (w_raises w0 n (Execute QVersion)) eqn:Hr end.
    all: eexists _, raised, at_open;
      (split; [|repeat split; by repeat first [rewrite last_app | rewrite last_cons]]).
    all: first [by left | right; repeat split; [done|]; intros Hn; by rewrite Hn in Hr].
Qed.

End passes.

Section paths.
Import SQLServerConnection.

Lemma read_only_not_initial tr :
  Forall (fun e => read_only_call e = true) tr →
  Forall (fun e => initial_load_call e = false) tr.
Proof.
  intros H. eapply Forall_impl; [exact H|].
  intros e. unfold read_only_call. by destruct (initial_load_call e).
Qed.

(** Once the target table exists, a pass never takes the InitialLoad path:
    whatever the source holds and whichever calls raise, it creates no
    table, scans nothing and loads nothing in Replace mode. *)
Lemma existing_table_is_never_reloaded cfg t w :
  is_Some (w_target w !! t) →
  Forall (fun e => initial_load_call e = false)
         (calls_since w (snd (Replicator.replicate_table cfg t w))).
Proof.
  intros Hex.
  destruct (Replicator.replicate_table cfg t w) as [b w'] eqn:Hrun.
  revert Hrun. unfold Replicator.replicate_table.
  step. destruct (negb _).
  { leaf. erewrite calls_since_app by (cbn; reflexivity). by repeat constructor. }
  step. destruct (map column_of _) as [|c cs].
  { leaf. erewrite calls_since_app by (cbn; reflexivity). by repeat constructor. }
  step. step. destruct found; cbn [negb].
  - step. step. apply read_only_not_initial in Hfetch.
    assert (∀ rest,
      Forall (fun e => initial_load_call e = false) rest →
      Forall (fun e => initial_load_call e = false)
        (Call (Execute (QTracked t)) x x0 :: Call (Execute (QSchema t)) x1 x2
         :: Call (Execute (QPrimaryKey t)) x3 x4 :: Call (GetTable t) false 0
         :: fetch ++ rest)) as Hall.
    { intros rest Hrest. repeat (constructor; [done|]). by apply Forall_app. }
    destruct (_ =? _)%Z.
    { leaf. erewrite calls_since_app by (cbn; reflexivity).
      rewrite <- (app_nil_r fetch). by apply Hall. }
    destruct (df_empty changed_df) eqn:Hd; cbn [negb]; step.
    all: try (leaf; erewrite calls_since_app by (cbn; reflexivity);
              apply Hall; by repeat constructor).
    all: destruct (df_empty deleted_df) eqn:Hd0; cbn [negb]; step.
    all: try (leaf; erewrite calls_since_app by (cbn; reflexivity);
              first [ rewrite <- (app_nil_r fetch); by apply Hall
                    | apply Hall; by repeat constructor ]).
    all: step; leaf; erewrite calls_since_app by (cbn; reflexivity).
    all: apply Hall; by repeat constructor.
  - step.
    + leaf. erewrite calls_since_app by (cbn; reflexivity). by repeat constructor.
    + destruct Hex as [tb Htb]. congruence.
Qed.

End paths.

(** ** C1: a failed initial load *)

Section failed_load.
Import SQLServerConnection.

(** C1 (as the code has it).  When the initial-load pass of a table reports
    failure after it has created the target table, no checkpoint has been
    written: the state manager and its file are as before.  The next pass
    over that table never goes back to the InitialLoad path: whatever the
    source then holds and whichever calls raise, it creates no table,
    issues no row count and no scan batch, and loads nothing in Replace
    mode.  When its tracking and schema reads succeed, it makes three reads
    and looks the target table up.  If the lookup raises, it attempts
    [create_table], which fails on the table that is there, and reports
    failure.  Otherwise it takes the Incremental path from the stored
    watermark, which is 0 for a table that was never synced: the calls that
    follow the lookup are those of [get_changed_data] with that watermark,
    then calls that are no queries; the pass fails when the version
    fetched is 0, and the version it stores when it succeeds is the one
    fetched. *)
Theorem C1_failed_initial_load_resumes_incrementally cfg t w :
  let w1 := snd (Replicator.replicate_table cfg t w) in
  fst (Replicator.replicate_table cfg t w) = false →
  w_target w !! t = None →
  is_Some (w_target w1 !! t) →
  (w_state w1 = w_state w ∧ w_file w1 = w_file w) ∧
  ∀ cfg' w2, w_target w2 = w_target w1 →
    let r2 := Replicator.replicate_table cfg' t w2 in
    Forall (fun e => initial_load_call e = false) (calls_since w2 (snd r2)) ∧
    (w_state w2 !! t = None → stored_version t w2 = 0%Z) ∧
    (tracked t w2 = true →
     from_option st_columns [] (src_tables (w_source w2) !! t) ≠ [] →
     never_raises w2 (Execute (QTracked t)) →
     never_raises w2 (Execute (QSchema t)) →
     ∃ reads,
       length reads = 3 ∧ Forall (fun e => is_query e = true) reads ∧
       let lookup_raised := w_raises w2 (length (w_trace w2) + 3) (GetTable t) in
       let w3 := extend (reads ++ [Call (GetTable t) lookup_raised 0]) w2 in
       let fetched := get_changed_data t (stored_version t w2) w3 in
       if lookup_raised
       then r2 = (false, extend [Call (CreateTable t) true 0] w3)
       else ∃ rest,
         calls_since w3 (snd r2) = calls_since w3 (snd fetched) ++ rest ∧
         Forall (fun e => is_query e = false) rest ∧
         (new_version (fst fetched) = 0%Z → fst r2 = false) ∧
         (fst r2 = true → stored_version t (snd r2) = new_version (fst fetched))).
Proof.
  intros w1 Hfail Hfree Hex. split.
  { destruct (replicate_table_checkpoint cfg t w) as [(_ & ? & ?)|(Hok & _)]; [done|].
    congruence. }
  intros cfg' w2 Htg r2. rewrite <- Htg in Hex.
  split; [by apply existing_table_is_never_reloaded|].
  split; [unfold stored_version; by intros ->|].
  intros Htr Hcols Ht Hs. subst r2.
  destruct (Replicator.replicate_table cfg' t w2) as [b w'] eqn:Hrun.
  revert Hrun. unfold Replicator.replicate_table.
  step. rewrite Ht, Htr. cbn [negb andb].
  step. rewrite query_schema. autorewrite with world. rewrite Hs.
  destruct (from_option st_columns [] _) as [|c cs] eqn:Hc; [done|]. cbn [map].
  step. step.
  rewrite length_app in Hfound. cbn [length] in Hfound.
  rewrite (bool_decide_eq_true_2 _ Hex), andb_true_r in Hfound.
  destruct (w_raises w2 (length (w_trace w2) + 3) (GetTable t)) eqn:Hl;
    cbn [negb] in Hfound; subst found; cbn [negb].
  - step; [|destruct Hex; congruence].
    leaf. exists [Call (Execute (QTracked t)) x x0; Call (Execute (QSchema t)) x1 x2;
            Call (Execute (QPrimaryKey t)) x3 x4]. split; [done|]. split; [by repeat constructor|].
    cbv zeta. by rewrite extend_extend.
  - step. rewrite stored_version_extend.
    match goal with |- context [bind (get_changed_data t ?s) ?k ?w3] =>
      destruct (get_changed_data_step t s w3) as ([[ch del] v] & tr & E & Htr');
      rewrite (bind_run _ k w3 _ _ E) end.
    tidy.
    assert (∀ b w' rest,
      w_trace w' = w_trace w2 ++ Call (Execute (QTracked t)) x x0
                   :: Call (Execute (QSchema t)) x1 x2
                   :: Call (Execute (QPrimaryKey t)) x3 x4
                   :: Call (GetTable t) false 0 :: tr ++ rest →
      Forall (fun e => is_query e = false) rest →
      (v = 0%Z → b = false) →
      (b = true → stored_version t w' = v) →
      ∃ reads,
        length reads = 3 ∧ Forall (fun e => is_query e = true) reads ∧
        let w3 := extend (reads ++ [Call (GetTable t) false 0]) w2 in
        let fetched := get_changed_data t (stored_version t w2) w3 in
        ∃ rest,
          calls_since w3 (b, w').2 = calls_since w3 fetched.2 ++ rest ∧
          Forall (fun e => is_query e = false) rest ∧
          (new_version fetched.1 = 0%Z → (b, w').1 = false) ∧
          ((b, w').1 = true → stored_version t (b, w').2 = new_version fetched.1))
      as Hend.
    { intros b0 w0 rest Htrace Hrest Hzero Hstored.
      exists [Call (Execute (QTracked t)) x x0; Call (Execute (QSchema t)) x1 x2;
            Call (Execute (QPrimaryKey t)) x3 x4]. split; [done|]. split; [by repeat constructor|].
      cbv zeta. cbn [app]. rewrite E. cbn [fst snd new_version].
      exists rest. rewrite calls_since_extend.
      split; [|done].
      apply calls_since_app. rewrite Htrace. autorewrite with world.
      by rewrite <- app_assoc. }
    destruct (Z.eqb_spec v 0) as [Hv|Hv].
    { cbv [ret]. intros [= <- <-].
      apply (Hend _ _ []); [autorewrite with world; by rewrite app_nil_r|done..]. }
    destruct (df_empty ch) eqn:Hd; cbn [negb]; step.
    2: { cbv [ret]. intros [= <- <-].
         eapply Hend; [autorewrite with world; reflexivity|by repeat constructor|done..]. }
    destruct (df_empty del) eqn:Hd0; cbn [negb]; step.
    + step. cbv [ret]. intros [= <- <-].
      eapply Hend; [autorewrite with world; reflexivity|by repeat constructor|done|].
      intros _. by eapply stored_version_insert.
    + cbv [ret]. intros [= <- <-].
      eapply Hend; [autorewrite with world; reflexivity|by repeat constructor|done..].
    + step. cbv [ret]. intros [= <- <-].
      eapply Hend; [autorewrite with world; reflexivity|by repeat constructor|done|].
      intros _. by eapply stored_version_insert.
Qed.

End failed_load.

Lemma C1_witness :
  let w := Scenario.first_run in
  let t := "orders" in
  let w1 := snd (Replicator.replicate_table Scenario.cfg t w) in
  (w_state w1 = w_state w ∧ w_file w1 = w_file w) ∧
  ∀ cfg' w2, w_target w2 = w_target w1 →
    let r2 := Replicator.replicate_table cfg' t w2 in
    Forall (fun e => initial_load_call e = false) (calls_since w2 (snd r2)) ∧
    (w_state w2 !! t = None → stored_version t w2 = 0%Z) ∧
    (tracked t w2 = true →
     from_option st_columns [] (src_tables (w_source w2) !! t) ≠ [] →
     never_raises w2 (Execute (QTracked t)) →
     never_raises w2 (Execute (QSchema t)) →
     ∃ reads,
       length reads = 3 ∧ Forall (fun e => is_query e = true) reads ∧
       let lookup_raised := w_raises w2 (length (w_trace w2) + 3) (GetTable t) in
       let w3 := extend (reads ++ [Call (GetTable t) lookup_raised 0]) w2 in
       let fetched :=
         SQLServerConnection.get_changed_data t (stored_version t w2) w3 in
       if lookup_raised
       then r2 = (false, extend [Call (CreateTable t) true 0] w3)
       else ∃ rest,
         calls_since w3 (snd r2) = calls_since w3 (snd fetched) ++ rest ∧
         Forall (fun e => is_query e = false) rest ∧
         (new_version (fst fetched) = 0%Z → fst r2 = false) ∧
         (fst r2 = true → stored_version t (snd r2) = new_version (fst fetched))).
Proof.
  apply (C1_failed_initial_load_resumes_incrementally Scenario.cfg "orders"
           Scenario.first_run).
  - vm_compute. reflexivity.
  - vm_compute. reflexivity.
  - vm_compute. eexists. reflexivity.
Defined.

Lemma C1_counterexample :
  let w1 := snd (main Scenario.cfg Scenario.first_run) in
  let w2 := snd (main Scenario.cfg (restart Scenario.healthy w1)) in
  (* the first run creates the table, scans the source, and fails to load *)
  w_target Scenario.first_run !! "orders" = None ∧
  fst (main Scenario.cfg Scenario.first_run) = 1%Z ∧
  w_trace w1 =
    [Call SqlConnect false 0; Call BqConnect false 0; Call GetDataset false 0;
     Call (Execute (QTracked "orders")) false 1;
     Call (Execute (QSchema "orders")) false 2;
     Call (Execute (QPrimaryKey "orders")) false 1;
     Call (GetTable "orders") true 0;
     Call (CreateTable "orders") false 0;
     Call (Execute (QCount "orders")) false 1;
     Call (Execute (QPrimaryKey "orders")) false 1;
     Call (Execute (QTop "orders" "id" 1000)) false 3;
     Call (LoadJob "orders" WRITE_TRUNCATE) true 3] ∧
  w_target w1 !! "orders" = Some Scenario.created ∧
  w_file w1 = Missing ∧
  (* the next run takes the Incremental path and reports success *)
  fst (main Scenario.cfg (restart Scenario.healthy w1)) = 0%Z ∧
  w_trace w2 =
    [Call SqlConnect false 0; Call BqConnect false 0; Call GetDataset false 0;
     Call (Execute (QTracked "orders")) false 1;
     Call (Execute (QSchema "orders")) false 2;
     Call (Execute (QPrimaryKey "orders")) false 1;
     Call (GetTable "orders") false 0;
     Call (Execute (QTracked "orders")) false 1;
     Call (Execute QVersion) false 1;
     Call (Execute (QPrimaryKey "orders")) false 1;
     Call (Execute (QChanged "orders" ["id"] 0)) false 0;
     Call (Execute (QDeleted "orders" ["id"] 0)) false 0;
     Call WriteState false 0] ∧
  forallb (fun e => negb (initial_load_call e)) (w_trace w2) = true ∧
  w_target w2 !! "orders" = Some Scenario.created ∧
  persisted_version "orders" w2 = Some 7%Z.
Proof. vm_compute. repeat split; reflexivity. Qed.

(** A full scan that fails does not fail the pass: [execute_query] returns
    no rows, the loop ends, and the empty frame is taken for an empty
    table.  The target stays empty and the checkpoint is written. *)
Example failed_scan_is_taken_for_an_empty_table :
  let w := Scenario.first_run_scan_fails in
  let r := Replicator.replicate_table Scenario.cfg "orders" w in
  fst r = true ∧
  calls_since w (snd r) =
    [Call (Execute (QTracked "orders")) false 1;
     Call (Execute (QSchema "orders")) false 2;
     Call (Execute (QPrimaryKey "orders")) false 1;
     Call (GetTable "orders") true 0;
     Call (CreateTable "orders") false 0;
     Call (Execute (QCount "orders")) false 1;
     Call (Execute (QPrimaryKey "orders")) false 1;
     Call (Execute (QTop "orders" "id" 1000)) true 0;
     Call (Execute QVersion) false 1;
     Call WriteState false 0] ∧
  w_target (snd r) !! "orders" = Some Scenario.created ∧
  persisted_version "orders" (snd r) = Some 7%Z.
Proof. vm_compute. repeat split; reflexivity. Qed.

(** ** C2: the versions written *)

(** C2 (as the code has it).  [update_sync_version] is called with the
    current version of the feed as the pass read it, without comparing it
    with the stored one.  When reading that version does not fail and the
    feed is not behind the stored version, a pass leaves the stored version
    as it is or moves it to the current version of the feed, so it does
    not decrease. *)
Theorem C2_checkpoint_does_not_decrease_unless_feed_is_behind cfg t w :
  never_raises w (Execute QVersion) →
  (stored_version t w ≤ src_version (w_source w))%Z →
  let w' := snd (Replicator.replicate_table cfg t w) in
  (w_state w' = w_state w ∨ stored_version t w' = src_version (w_source w)) ∧
  (stored_version t w ≤ stored_version t w')%Z.
Proof.
  intros Hread Hle w'.
  destruct (replicate_table_checkpoint cfg t w)
    as [(_ & Hst & _)|(_ & v & raised & at_open & Hv & Hst & _)]; fold w' in Hst.
  - split; [by left|]. unfold stored_version. by rewrite Hst.
  - destruct Hv as [->|(_ & _ & Hn)]; [|done].
    apply stored_version_insert in Hst. rewrite Hst. split; [by right|done].
Qed.

Lemma C2_witness :
  let w := Scenario.later_run 55 Scenario.healthy in
  let w' := snd (Replicator.replicate_table Scenario.cfg "orders" w) in
  (w_state w' = w_state w ∨ stored_version "orders" w' = src_version (w_source w)) ∧
  (stored_version "orders" w ≤ stored_version "orders" w')%Z.
Proof.
  apply (C2_checkpoint_does_not_decrease_unless_feed_is_behind
           Scenario.cfg "orders" (Scenario.later_run 55 Scenario.healthy)).
  - intros n. reflexivity.
  - vm_compute. discriminate.
Defined.

Lemma C2_counterexample :
  let w := Scenario.later_run 40 Scenario.healthy in
  let r := Replicator.replicate_table Scenario.cfg "orders" w in
  stored_version "orders" w = 50%Z ∧
  fst r = true ∧
  calls_since w (snd r) =
    [Call (Execute (QTracked "orders")) false 1;
     Call (Execute (QSchema "orders")) false 2;
     Call (Execute (QPrimaryKey "orders")) false 1;
     Call (GetTable "orders") false 0;
     Call (Execute (QTracked "orders")) false 1;
     Call (Execute QVersion) false 1;
     Call WriteState false 0] ∧
  stored_version "orders" (snd r) = 40%Z ∧
  persisted_version "orders" (snd r) = Some 40%Z ∧
  (stored_version "orders" (snd r) < stored_version "orders" w)%Z.
Proof. vm_compute. repeat split; reflexivity. Qed.

(** ** C6: a checkpoint write that fails *)

(** C6 (as the code has it).  [update_sync_version] updates the state in
    memory, attempts the write and returns; when the write raises, nothing
    is reported to the caller, and the file is as it was only if [open]
    itself raised: otherwise it has been emptied and holds no state that
    can be read.  A pass that reports success has ended with that call,
    whether or not the write raised: the file holds the new state only when
    it did not. *)
Theorem C6_checkpoint_write_failure_is_not_reported cfg t v w :
  let raised := w_raises w (length (w_trace w)) WriteState in
  let at_open := w_raises w (length (w_trace w)) OpenState in
  let w' := snd (StateManager.update_sync_version t v w) in
  let r := Replicator.replicate_table cfg t w in
  (fst (StateManager.update_sync_version t v w) = tt ∧
   stored_version t w' = v ∧
   calls_since w w' = [Call WriteState raised 0] ∧
   w_file w' = if raised then (if at_open then w_file w else Unparsable)
               else Document (w_state w')) ∧
  (fst r = true →
   ∃ raised' at_open' : bool,
     last (w_trace (snd r)) = Some (Call WriteState raised' 0) ∧
     w_file (snd r) = if raised' then (if at_open' then w_file w else Unparsable)
                      else Document (w_state (snd r))).
Proof.
  cbv zeta. split.
  - rewrite update_sync_version_run. cbv zeta. unfold written.
    destruct (w_raises w _ OpenState), (w_raises w _ WriteState); cbn;
      (split; [done|]); (split; [by eapply stored_version_insert|]);
      (split; [by apply calls_since_app|done]).
  - destruct (replicate_table_checkpoint cfg t w)
      as [(Hr & _)|(_ & v' & raised & at_open & _ & _ & Hfile & Hlast)].
    + rewrite Hr. done.
    + intros _. by exists raised, at_open.
Qed.

(** A run that exits with code 0 although the write of the checkpoint
    raised: the state file, which held version 50, is left cut off, and the
    next run starts from version 0. *)
Lemma C6_counterexample :
  let w := Scenario.later_run 55 Scenario.disk_full in
  let r := main Scenario.cfg (restart Scenario.disk_full w) in
  let r' := main Scenario.cfg (restart Scenario.healthy (snd r)) in
  persisted_version "orders" w = Some 50%Z ∧
  fst r = 0%Z ∧
  w_trace (snd r) =
    [Call ReadState false 0;
     Call SqlConnect false 0; Call BqConnect false 0; Call GetDataset false 0;
     Call (Execute (QTracked "orders")) false 1;
     Call (Execute (QSchema "orders")) false 2;
     Call (Execute (QPrimaryKey "orders")) false 1;
     Call (GetTable "orders") false 0;
     Call (Execute (QTracked "orders")) false 1;
     Call (Execute QVersion) false 1;
     Call (Execute (QPrimaryKey "orders")) false 1;
     Call (Execute (QChanged "orders" ["id"] 50)) false 0;
     Call (Execute (QDeleted "orders" ["id"] 50)) false 0;
     Call WriteState true 0] ∧
  stored_version "orders" (snd r) = 55%Z ∧
  w_file (snd r) = Unparsable ∧
  persisted_version "orders" (snd r) = None ∧
  take 1 (w_trace (snd r')) = [Call ReadState true 0] ∧
  w_trace (snd r') !! 11%nat = Some (Call (Execute (QChanged "orders" ["id"] 0)) false 0).
Proof. vm_compute. repeat split; reflexivity. Qed.

(** ** C3, C4, C5: what [get_changed_data] reports *)

Section reports.
Import SQLServerConnection.

Lemma query_tracked_ok t w :
  never_raises w (Execute (QTracked t)) → tracked t w = true →
  query_failed (QTracked t) w = false ∧ query_result (QTracked t) w = [true].
Proof.
  intros Hn Ht. unfold query_failed, query_result. rewrite Hn. cbn.
  unfold tracked in Ht. destruct (src_tables (w_source w) !! t); [|done].
  cbn in *. by rewrite Ht.
Qed.

Lemma query_version_ok w :
  never_raises w (Execute QVersion) →
  query_failed QVersion w = false ∧
  query_result QVersion w = [src_version (w_source w)].
Proof.
  intros Hn. unfold query_failed, query_result. by rewrite Hn.
Qed.

(** On a tracked table, when the queries do not fail and the feed is not
    ahead of the watermark, the result is the empty change set with the
    current version of the feed. *)
Lemma get_changed_data_no_changes t since w :
  never_raises w (Execute (QTracked t)) →
  never_raises w (Execute QVersion) →
  tracked t w = true →
  (src_version (w_source w) ≤ since)%Z →
  get_changed_data t since w =
    ([], [], src_version (w_source w),
     extend [Call (Execute (QTracked t)) false 1; Call (Execute QVersion) false 1] w).
Proof.
  intros Ht Hv Htr Hle.
  pose proof (get_changed_data_run t since w) as H. cbv zeta in H. rewrite H.
  destruct (query_tracked_ok t w Ht Htr) as [-> ->]. cbn [negb hd length].
  destruct (query_version_ok (extend [Call (Execute (QTracked t)) false 1] w) Hv)
    as [-> ->].
  cbn [hd length]. autorewrite with world.
  destruct (Z.leb_spec (src_version (w_source w)) since); [|lia].
  by rewrite extend_extend.
Qed.

(** C3 (as the code has it).  On a tracked table, when none of the three
    queries before the change queries fails and the table has a primary
    key or the feed is not ahead of the watermark, the version reported
    is the current version [V] of the feed.  It is at least the watermark
    exactly when [V] is; when [V] is below the watermark the result is the
    empty change set with version [V]. *)
Theorem C3_new_version_is_the_current_version t since w :
  never_raises w (Execute (QTracked t)) →
  never_raises w (Execute QVersion) →
  never_raises w (Execute (QPrimaryKey t)) →
  tracked t w = true →
  (src_version (w_source w) ≤ since)%Z ∨ pk_of t w ≠ [] →
  let V := src_version (w_source w) in
  let r := fst (get_changed_data t since w) in
  new_version r = V ∧
  ((since ≤ new_version r)%Z ↔ (since ≤ V)%Z) ∧
  ((V ≤ since)%Z → r = ([], [], V)).
Proof.
  intros Ht Hv Hp Htr Hcase V r.
  assert (new_version r = V) as HV.
  { subst r V. pose proof (get_changed_data_run t since w) as H. cbv zeta in H.
    rewrite H. destruct (query_tracked_ok t w Ht Htr) as [-> ->].
    cbn [negb hd length].
    destruct (query_version_ok (extend [Call (Execute (QTracked t)) false 1] w) Hv)
      as [-> ->].
    cbn [hd length]. autorewrite with world.
    destruct (Z.leb_spec (src_version (w_source w)) since); [done|].
    destruct Hcase as [?|Hpk]; [lia|].
    rewrite query_primary_key. autorewrite with world. rewrite Hp.
    unfold pk_of in *. autorewrite with world.
    by destruct (from_option st_pk [] _). }
  split; [done|]. split; [by rewrite HV|].
  intros Hle. subst r V. by rewrite get_changed_data_no_changes.
Qed.

End reports.

Lemma C3_witness :
  let w := Scenario.later_run 55 Scenario.healthy in
  let V := src_version (w_source w) in
  let r := fst (SQLServerConnection.get_changed_data "orders" 50 w) in
  new_version r = V ∧
  ((50 ≤ new_version r)%Z ↔ (50 ≤ V)%Z) ∧
  ((V ≤ 50)%Z → r = ([], [], V)).
Proof.
  apply (C3_new_version_is_the_current_version "orders" 50
           (Scenario.later_run 55 Scenario.healthy)).
  - intros n. reflexivity.
  - intros n. reflexivity.
  - intros n. reflexivity.
  - reflexivity.
  - right. vm_compute. discriminate.
Defined.

Lemma C3_counterexample :
  let w := Scenario.later_run 40 Scenario.healthy in
  SQLServerConnection.get_changed_data "orders" 50 w =
    ([], [], 40%Z,
     extend [Call (Execute (QTracked "orders")) false 1;
             Call (Execute QVersion) false 1] w) ∧
  ¬ (50 ≤ new_version (fst (SQLServerConnection.get_changed_data "orders" 50 w)))%Z.
Proof. split; [reflexivity|]. vm_compute. intros H. by apply H. Qed.

Section no_primary_key.
Import SQLServerConnection.

(** Without a primary key, a feed that is ahead of the watermark ends in
    the failure value, whichever calls raise. *)
Lemma get_changed_data_no_pk t since w :
  pk_of t w = [] →
  (since < src_version (w_source w))%Z →
  fst (get_changed_data t since w) = ([], [], 0%Z).
Proof.
  intros Hpk Hv.
  pose proof (get_changed_data_run t since w) as H. cbv zeta in H. rewrite H.
  rewrite query_version, query_primary_key. autorewrite with world.
  unfold pk_of in *. autorewrite with world. rewrite Hpk.
  destruct (negb _); [done|].
  destruct (w_raises w _ (Execute QVersion)); cbn [hd].
  - destruct (0 <=? since)%Z; [done|]. by destruct (w_raises w _ _).
  - destruct (Z.leb_spec (src_version (w_source w)) since); [lia|].
    by destruct (w_raises w _ _).
Qed.

Lemma replicate_tables_failed cfg ts w :
  fst (Replicator.replicate_tables cfg ts false w) = false.
Proof.
  revert w. induction ts as [|t ts IH]; intros w; simpl; [done|].
  destruct (String.eqb _ _); [apply IH|].
  rewrite bind_eta. destruct (fst (Replicator.replicate_table cfg _ w)); apply IH.
Qed.

Lemma replicate_tables_first_fails cfg t rest success w :
  Py.strip t = t → t ≠ EmptyString →
  fst (Replicator.replicate_table cfg t w) = false →
  fst (Replicator.replicate_tables cfg (t :: rest) success w) = false.
Proof.
  intros Hs Hne Hf. simpl. rewrite Hs.
  destruct (String.eqb_spec t EmptyString); [done|].
  rewrite bind_eta, Hf. apply replicate_tables_failed.
Qed.

(** C4 (as the code has it).  For a table without a primary key whose feed
    is ahead of the watermark, [get_changed_data] returns the failure
    value, whichever calls raise.  A pass over such a table, once its
    target table exists, reports failure, and so does the run over a table
    list that starts with it. *)
Theorem C4_no_primary_key_fails_when_feed_is_ahead cfg t w :
  pk_of t w = [] →
  is_Some (w_target w !! t) →
  (stored_version t w < src_version (w_source w))%Z →
  (∀ since, (since < src_version (w_source w))%Z →
            fst (get_changed_data t since w) = ([], [], 0%Z)) ∧
  fst (Replicator.replicate_table cfg t w) = false ∧
  (Py.strip t = t → t ≠ EmptyString →
   ∀ rest success, fst (Replicator.replicate_tables cfg (t :: rest) success w) = false).
Proof.
  intros Hpk Hex Hv.
  split; [intros; by apply get_changed_data_no_pk|].
  assert (fst (Replicator.replicate_table cfg t w) = false) as Hfail.
  { destruct (Replicator.replicate_table cfg t w) as [b w'] eqn:Hrun.
    revert Hrun. unfold Replicator.replicate_table.
    step. destruct (negb _); [by leaf|].
    step. destruct (map column_of _) as [|c cs]; [by leaf|].
    step. step. destruct found; cbn [negb].
    - step.
      match goal with |- context [bind (get_changed_data t ?s) _ ?w1] =>
        pose proof (get_changed_data_no_pk t s w1 Hpk Hv) as Hgcd end.
      step. cbn in Hgcd. simplify_eq. by leaf.
    - step; [by leaf|]. destruct Hex. congruence. }
  split; [done|].
  intros Hs Hne rest success. by apply replicate_tables_first_fails.
Qed.

End no_primary_key.

Lemma C4_witness :
  let w := Scenario.keyless_run 55 in
  (∀ since, (since < src_version (w_source w))%Z →
            fst (SQLServerConnection.get_changed_data "orders" since w) = ([], [], 0%Z)) ∧
  fst (Replicator.replicate_table Scenario.cfg "orders" w) = false ∧
  (Py.strip "orders" = "orders" → "orders" ≠ EmptyString →
   ∀ rest success,
     fst (Replicator.replicate_tables Scenario.cfg ("orders" :: rest) success w) = false).
Proof.
  apply (C4_no_primary_key_fails_when_feed_is_ahead Scenario.cfg "orders"
           (Scenario.keyless_run 55)).
  - reflexivity.
  - vm_compute. eexists. reflexivity.
  - vm_compute. reflexivity.
Defined.

Lemma C4_counterexample :
  let w := Scenario.keyless_run 50 in
  tracked "orders" w = true ∧
  pk_of "orders" w = [] ∧
  SQLServerConnection.get_changed_data "orders" 50 w =
    ([], [], 50%Z,
     extend [Call (Execute (QTracked "orders")) false 1;
             Call (Execute QVersion) false 1] w) ∧
  SQLServerConnection.get_changed_data "orders" 60 w =
    ([], [], 50%Z,
     extend [Call (Execute (QTracked "orders")) false 1;
             Call (Execute QVersion) false 1] w) ∧
  fst (Replicator.replicate_table Scenario.cfg "orders" w) = true ∧
  fst (Replicator.replicate_all_tables Scenario.cfg w) = true.
Proof. vm_compute. repeat split; reflexivity. Qed.

(** ** C5: a pass with nothing to fetch *)

Section noop.
Import SQLServerConnection.

(** C5 (as the code has it).  For a tracked table whose target table
    exists and whose feed is at the stored version [V], with none of the
    reads failing: [get_changed_data] returns the empty change set with
    version [V]; the pass leaves the target as it is, makes no load, delete
    or create call, and the stored version is [V] afterwards.  It reports
    success when [V] is not 0.  When [V] is 0 it reports failure, although
    no call of the change fetch failed: the pass takes the version 0 of the
    feed for the failure value of [get_changed_data], stops after the
    version query and writes nothing. *)
Theorem C5_pass_without_changes_fails_at_version_0 cfg t w :
  is_Some (w_target w !! t) →
  tracked t w = true →
  from_option st_columns [] (src_tables (w_source w) !! t) ≠ [] →
  never_raises w (Execute (QTracked t)) →
  never_raises w (Execute (QSchema t)) →
  never_raises w (GetTable t) →
  never_raises w (Execute QVersion) →
  src_version (w_source w) = stored_version t w →
  let V := src_version (w_source w) in
  let r := Replicator.replicate_table cfg t w in
  fst (get_changed_data t V w) = ([], [], V) ∧
  fst r = negb (V =? 0)%Z ∧
  w_target (snd r) = w_target w ∧
  Forall (fun e => target_write e = false) (calls_since w (snd r)) ∧
  stored_version t (snd r) = V ∧
  (V = 0%Z →
   w_state (snd r) = w_state w ∧ w_file (snd r) = w_file w ∧
   ∃ key_failed keys,
     calls_since w (snd r) =
       [Call (Execute (QTracked t)) false 1;
        Call (Execute (QSchema t)) false
             (length (from_option st_columns [] (src_tables (w_source w) !! t)));
        Call (Execute (QPrimaryKey t)) key_failed keys;
        Call (GetTable t) false 0;
        Call (Execute (QTracked t)) false 1;
        Call (Execute QVersion) false 1]).
Proof.
  intros Hex Htr Hcols Ht Hs Hg Hv Heq V r.
  split.
  { subst V. by rewrite get_changed_data_no_changes. }
  subst r. destruct (Replicator.replicate_table cfg t w) as [b w'] eqn:Hrun.
  revert Hrun. unfold Replicator.replicate_table.
  rewrite (bind_run _ _ _ _ _ (is_change_tracking_enabled_run t w)).
  destruct (query_tracked_ok t w Ht Htr) as [-> ->]. cbn [hd negb length].
  rewrite (bind_run _ _ _ _ _ (get_table_schema_run t _)).
  unfold query_failed at 1. rewrite query_schema. autorewrite with world. rewrite Hs.
  cbn [orb].
  destruct (from_option st_columns [] _) as [|c cs] eqn:Hc; [done|].
  rewrite bool_decide_eq_false_2 by done.
  cbn [map]. tidy.
  step. step.
  rewrite Hg, (bool_decide_eq_true_2 _ Hex) in Hfound. cbn in Hfound. subst found.
  cbn [negb]. step. rewrite stored_version_extend, <- Heq.
  match goal with |- context [bind (get_changed_data t ?s) ?k ?w1] =>
    rewrite (bind_run _ k w1 _ _
               (get_changed_data_no_changes t s w1 Ht Hv Htr (Z.le_refl _)))
  end. tidy. fold V.
  destruct (Z.eqb_spec V 0) as [HV|HV].
  - leaf. repeat split.
    + erewrite calls_since_app by (cbn; reflexivity). by repeat constructor.
    + symmetry. exact Heq.
    + do 2 eexists. by apply calls_since_app.
  - cbn [df_empty forallb negb].
    step. step. step. leaf.
    do 2 (split; [done|]). split; [|split; [by eapply stored_version_insert|done]].
    erewrite calls_since_app by (cbn; reflexivity). by repeat constructor.
Qed.

End noop.

Lemma C5_witness :
  let w := Scenario.fresh_feed in
  let t := "orders" in
  let V := src_version (w_source w) in
  let r := Replicator.replicate_table Scenario.cfg t w in
  fst (SQLServerConnection.get_changed_data t V w) = ([], [], V) ∧
  fst r = negb (V =? 0)%Z ∧
  w_target (snd r) = w_target w ∧
  Forall (fun e => target_write e = false) (calls_since w (snd r)) ∧
  stored_version t (snd r) = V ∧
  (V = 0%Z →
   w_state (snd r) = w_state w ∧ w_file (snd r) = w_file w ∧
   ∃ key_failed keys,
     calls_since w (snd r) =
       [Call (Execute (QTracked t)) false 1;
        Call (Execute (QSchema t)) false
             (length (from_option st_columns [] (src_tables (w_source w) !! t)));
        Call (Execute (QPrimaryKey t)) key_failed keys;
        Call (GetTable t) false 0;
        Call (Execute (QTracked t)) false 1;
        Call (Execute QVersion) false 1]).
Proof.
  apply (C5_pass_without_changes_fails_at_version_0 Scenario.cfg "orders"
           Scenario.fresh_feed).
  - vm_compute. eexists. reflexivity.
  - reflexivity.
  - vm_compute. discriminate.
  - intros n. reflexivity.
  - intros n. reflexivity.
  - intros n. reflexivity.
  - intros n. reflexivity.
  - reflexivity.
Defined.

(** The two runs side by side: a feed at version 50 that the checkpoint
    has caught up with, and a feed at version 0 after an initial load made
    at version 0. *)
Example pass_without_changes_at_50_and_at_0 :
  let at_50 := Replicator.replicate_table Scenario.cfg "orders"
                 (Scenario.later_run 50 Scenario.healthy) in
  let at_0 := Replicator.replicate_table Scenario.cfg "orders" Scenario.fresh_feed in
  fst at_50 = true ∧
  stored_version "orders" (snd at_50) = 50%Z ∧
  fst (SQLServerConnection.get_changed_data "orders" 0 Scenario.fresh_feed)
    = ([], [], 0%Z) ∧
  fst at_0 = false ∧
  calls_since Scenario.fresh_feed (snd at_0) =
    [Call (Execute (QTracked "orders")) false 1;
     Call (Execute (QSchema "orders")) false 2;
     Call (Execute (QPrimaryKey "orders")) false 1;
     Call (GetTable "orders") false 0;
     Call (Execute (QTracked "orders")) false 1;
     Call (Execute QVersion) false 1].
Proof. vm_compute. repeat split; reflexivity. Qed.

(** ** C8: clustering fields *)

Section clustering.
Import SQLServerConnection BigQueryConnection.

(** The columns [create_table] finds flagged are the primary-key columns in
    the order of the schema. *)
Lemma flagged_columns_marked pk_columns (metas : list ColumnMeta) :
  flagged_columns (Replicator.mark_primary_keys pk_columns (map column_of metas)) =
    filter (fun c => c ∈ pk_columns) (map column_name metas).
Proof.
  unfold flagged_columns, Replicator.mark_primary_keys.
  induction metas as [|m metas IH]; [done|].
  cbn [map]. rewrite !filter_cons, <- IH. clear IH.
  unfold Py.contains. cbn [name column_of].
  destruct (bool_decide (column_name m ∈ pk_columns)) eqn:Hin.
  - apply bool_decide_eq_true in Hin. cbn [is_primary_key].
    rewrite (decide_True (P := column_name m ∈ pk_columns)) by done.
    by rewrite decide_True by done.
  - apply bool_decide_eq_false in Hin. cbn [is_primary_key].
    rewrite (decide_False (P := column_name m ∈ pk_columns)) by done.
    by rewrite decide_False by done.
Qed.

Lemma key_columns_in_column_order (pk names : list string) :
  NoDup names → NoDup pk → pk ⊆ names →
  filter (fun c => c ∈ pk) names ≡ₚ pk.
Proof.
  intros Hn Hp Hsub. apply NoDup_Permutation; [by apply NoDup_filter|done|].
  intros c. rewrite list_elem_of_filter. split; [by intros [? _]|].
  intros Hc. split; [done|]. by apply Hsub.
Qed.

Lemma clustering_fields_marked pk_columns (metas : list ColumnMeta) :
  let names := map column_name metas in
  NoDup names → NoDup pk_columns → pk_columns ⊆ names →
  clustering_fields (Replicator.mark_primary_keys pk_columns (map column_of metas)) =
    if decide (pk_columns = []) then None
    else Some (take 4 (filter (fun c => c ∈ pk_columns) names)).
Proof.
  intros names Hn Hp Hsub. unfold clustering_fields.
  rewrite flagged_columns_marked. fold names.
  pose proof (key_columns_in_column_order pk_columns names Hn Hp Hsub) as Hperm.
  destruct (filter _ names) as [|c l] eqn:Hf.
  - apply Permutation_nil_l in Hperm. subst. by case_decide.
  - case_decide as Hnil; [|done]. subst.
    by apply Permutation_nil_r in Hperm.
Qed.

(** C8 (as the code has it).  When a pass creates the target table of a
    source table with primary key [k1 .. kn], and the schema and key
    queries did not fail, the clustering fields of the new table are the
    first [min 4 n] primary-key columns in the order in which the source
    lists its columns, which need not be the order of the key; there are
    no clustering fields when there is no primary key. *)
Theorem C8_clustering_follows_column_order cfg t w tb created :
  src_tables (w_source w) !! t = Some tb →
  NoDup (Sql.names tb) → NoDup (st_pk tb) → st_pk tb ⊆ Sql.names tb →
  never_raises w (Execute (QSchema t)) →
  never_raises w (Execute (QPrimaryKey t)) →
  w_target w !! t = None →
  w_target (snd (Replicator.replicate_table cfg t w)) !! t = Some created →
  let in_column_order := filter (fun c => c ∈ st_pk tb) (Sql.names tb) in
  tt_clustering created =
    (if decide (st_pk tb = []) then None else Some (take 4 in_column_order)) ∧
  in_column_order ≡ₚ st_pk tb ∧
  length (take 4 in_column_order) = min 4 (length (st_pk tb)).
Proof.
  intros Htb Hn Hp Hsub Hs Hk Hfree Hcreated in_column_order.
  pose proof (key_columns_in_column_order _ _ Hn Hp Hsub) as Hperm.
  split; [|split; [done|]].
  2: { rewrite length_take. fold in_column_order in Hperm. by rewrite Hperm. }
  revert Hcreated.
  destruct (Replicator.replicate_table cfg t w) as [b w'] eqn:Hrun.
  revert Hrun. unfold Replicator.replicate_table.
  step. destruct (negb _); [leaf; congruence|].
  step. rewrite query_schema. autorewrite with world. rewrite Hs, Htb.
  cbn [from_option].
  destruct (map column_of (st_columns tb)) as [|c cs] eqn:Hcols; [leaf; congruence|].
  step. rewrite query_primary_key. autorewrite with world. rewrite Hk.
  unfold pk_of. autorewrite with world. rewrite Htb. cbn [from_option].
  step. rewrite Hfree in Hfound.
  rewrite bool_decide_eq_false_2, andb_false_r in Hfound by (by intros [? ?]).
  subst found. cbn [negb].
  rewrite <- Hcols.
  pose proof (clustering_fields_marked (st_pk tb) (st_columns tb) Hn Hp Hsub) as Hc.
  step; [leaf; congruence|].
  step. destruct (df_empty df) eqn:Hdf.
  - step. step. step. leaf. rewrite lookup_insert_eq. intros [= <-]. exact Hc.
  - step. leaf. rewrite lookup_insert_eq. intros [= <-]. exact Hc.
Qed.

End clustering.

Lemma C8_witness :
  let w := Scenario.regional_first_run in
  let tb := Scenario.regional in
  let created :=
    {| tt_schema := [ {| field_name := "id"; field_type := "INTEGER"; mode := "REQUIRED" |};
                      {| field_name := "region"; field_type := "STRING"; mode := "REQUIRED" |};
                      {| field_name := "amount"; field_type := "INTEGER"; mode := "REQUIRED" |} ];
       tt_clustering := Some ["id"; "region"];
       tt_rows := [] |} in
  let in_column_order := filter (fun c => c ∈ st_pk tb) (Sql.names tb) in
  tt_clustering created =
    (if decide (st_pk tb = []) then None else Some (take 4 in_column_order)) ∧
  in_column_order ≡ₚ st_pk tb ∧
  length (take 4 in_column_order) = min 4 (length (st_pk tb)).
Proof.
  apply (C8_clustering_follows_column_order Scenario.cfg "orders"
           Scenario.regional_first_run Scenario.regional).
  - reflexivity.
  - compute_done.
  - compute_done.
  - compute_done.
  - intros n. reflexivity.
  - intros n. reflexivity.
  - reflexivity.
  - vm_compute. reflexivity.
Defined.

Lemma C8_counterexample :
  let w := Scenario.regional_first_run in
  let w' := snd (Replicator.replicate_table Scenario.cfg "orders" w) in
  pk_of "orders" w = ["region"; "id"] ∧
  (tt_clustering <$> w_target w' !! "orders") = Some (Some ["id"; "region"]) ∧
  Some ["id"; "region"] ≠ Some (take (min 4 2) (pk_of "orders" w)).
Proof. vm_compute. repeat split; [reflexivity..|discriminate]. Qed.

(** ** The order of key values *)

Section key_order.

Lemma value_compare_refl a : value_compare a a = Eq.
Proof.
  destruct a as [|z|s]; simpl; [done|apply Z.compare_refl|].
  by apply String_as_OT.cmp_eq.
Qed.

Lemma value_compare_eq a b : value_compare a b = Eq → a = b.
Proof.
  destruct a as [|x|x], b as [|y|y]; simpl; try done.
  - by intros ->%Z.compare_eq.
  - by intros ->%String_as_OT.cmp_eq.
Qed.

Lemma value_compare_antisym a b :
  value_compare b a = CompOpp (value_compare a b).
Proof.
  destruct a as [|x|x], b as [|y|y]; simpl; try done.
  - apply Z.compare_antisym.
  - apply String_as_OT.cmp_antisym.
Qed.

Lemma value_compare_lt_trans a b c :
  value_compare a b = Lt → value_compare b c = Lt → value_compare a c = Lt.
Proof.
  destruct a as [|x|x], b as [|y|y], c as [|z|z]; simpl; try done.
  - rewrite !Z.compare_lt_iff. lia.
  - intros H1 H2.
    apply String_as_OT.cmp_lt in H1. apply String_as_OT.cmp_lt in H2.
    apply String_as_OT.cmp_lt. by eapply String_as_OT.lt_trans.
Qed.

Global Instance value_le_total : Total value_le.
Proof.
  intros a b. unfold value_le. rewrite (value_compare_antisym a b).
  destruct (value_compare a b); simpl; auto.
Qed.

Global Instance value_le_trans : Transitive value_le.
Proof.
  intros a b c. unfold value_le. intros Hab Hbc.
  destruct (value_compare a b) eqn:E1; [| |done].
  - by apply value_compare_eq in E1 as ->.
  - destruct (value_compare b c) eqn:E2; [| |done].
    + apply value_compare_eq in E2 as ->. by rewrite E1.
    + by rewrite (value_compare_lt_trans _ _ _ E1 E2).
Qed.

Lemma value_le_antisym a b : value_le a b → value_le b a → a = b.
Proof.
  unfold value_le. rewrite (value_compare_antisym a b).
  destruct (value_compare a b) eqn:E; simpl; [|done..].
  intros _ _. by apply value_compare_eq.
Qed.

Lemma sql_gt_spec k v :
  sql_gt k v = true ↔ k ≠ VNull ∧ v ≠ VNull ∧ value_compare v k = Lt.
Proof.
  unfold sql_gt. destruct k as [|x|x], v as [|y|y]; simpl;
    try (intuition congruence).
  - destruct (y ?= x)%Z; intuition congruence.
  - destruct (String.compare y x); intuition congruence.
Qed.

Lemma sql_gt_irrefl v : sql_gt v v = false.
Proof.
  apply not_true_is_false. rewrite sql_gt_spec, value_compare_refl.
  intuition congruence.
Qed.

Lemma sql_gt_trans a b c :
  sql_gt c b = true → sql_gt b a = true → sql_gt c a = true.
Proof.
  rewrite !sql_gt_spec. intros (? & ? & H1) (? & ? & H2).
  repeat split; [done..|]. by eapply value_compare_lt_trans.
Qed.

End key_order.

(** ** The keyed scan *)

Section keyed_scan.
Import SQLServerConnection.

(** One turn of the loop. *)
Lemma pk_loop_run fuel t pk b last_pk_value all_data w :
  let batch := batch_rows t pk b last_pk_value w in
  let w1 := extend [Call (Execute (batch_query t pk b last_pk_value))
                         (batch_failed t pk b last_pk_value w) (length batch)] w in
  let columns := from_option Sql.names [] (src_tables (w_source w) !! t) in
  let all_data' := all_data ++ to_dicts columns batch in
  pk_loop (S fuel) t pk b last_pk_value all_data w =
    match batch with
    | [] => (Normal all_data, w1)
    | _ =>
        match (i ← Py.index pk columns; row ← last batch; row !! i) with
        | None => (Exception, w1)
        | Some v =>
            if (length batch <? b)%nat then (Normal all_data', w1)
            else pk_loop fuel t pk b (Some v) all_data' w1
        end
    end.
Proof.
  cbv zeta. cbn [pk_loop]. unfold batch_rows, batch_failed, batch_query.
  destruct last_pk_value as [v|].
  - rewrite (bind_run _ _ _ _ _ (execute_query_run (QTopAfter t pk b v) w)).
    destruct (query_result _ w) as [|row batch] eqn:Hb; [done|].
    unfold description. cbn [bind gets]. autorewrite with world.
    destruct (_ ≫= _); [|done]. by destruct (_ <? _)%nat.
  - rewrite (bind_run _ _ _ _ _ (execute_query_run (QTop t pk b) w)).
    destruct (query_result _ w) as [|row batch] eqn:Hb; [done|].
    unfold description. cbn [bind gets]. autorewrite with world.
    destruct (_ ≫= _); [|done]. by destruct (_ <? _)%nat.
Qed.

(** A batch is empty, or it is the first [b] of the remaining rows in key
    order. *)
Lemma batch_rows_cases t pk b last_pk_value w :
  batch_rows t pk b last_pk_value w = [] ∨
  ∃ tb i,
    src_tables (w_source w) !! t = Some tb ∧
    Py.index pk (Sql.names tb) = Some i ∧
    batch_failed t pk b last_pk_value w = false ∧
    batch_rows t pk b last_pk_value w =
      take b (Sql.order_by (Sql.names tb) pk (remaining tb pk last_pk_value)).
Proof.
  unfold batch_rows, batch_failed, batch_query, query_result, query_failed.
  destruct last_pk_value as [v|]; cbn [answer];
    (destruct (w_raises w _ _); [by left|]);
    [unfold Sql.top_after|unfold Sql.top];
    (destruct (src_tables (w_source w) !! t) as [tb|] eqn:Htb; [|by left]);
    cbn [mbind option_bind];
    (destruct (Py.index pk (Sql.names tb)) as [i|] eqn:Hi; [|by left]);
    right; exists tb, i; cbn; done.
Qed.

Lemma remaining_shrinks tb pk last_pk_value row :
  row ∈ remaining tb pk last_pk_value →
  length (remaining tb pk (Some (Sql.key_of (Sql.names tb) pk row)))
    < length (remaining tb pk last_pk_value).
Proof.
  set (key := Sql.key_of (Sql.names tb) pk). intros Hrow.
  destruct last_pk_value as [v0|]; cbn [remaining] in *; fold key in Hrow |- *.
  - apply list_elem_of_filter in Hrow as [Hgt Hin].
    rewrite (list_filter_iff _
               (fun r => sql_gt (key r) (key row) = true ∧ sql_gt (key r) v0 = true)).
    2: { intros r. split; [|by intros [? _]]. intros Hr. split; [done|].
         by eapply sql_gt_trans. }
    rewrite <- list_filter_filter.
    apply (length_filter_lt _ _ row).
    + by apply list_elem_of_filter.
    + by rewrite sql_gt_irrefl.
  - apply (length_filter_lt _ _ row); [done|]. by rewrite sql_gt_irrefl.
Qed.

(** The loop ends before its fuel does when it has more fuel than rows
    remain beyond the cursor. *)
Lemma pk_loop_enough_fuel fuel t pk b last_pk_value all_data w :
  (∀ tb, src_tables (w_source w) !! t = Some tb →
         length (remaining tb pk last_pk_value) < fuel) →
  0 < fuel →
  fst (pk_loop fuel t pk b last_pk_value all_data w) ≠ OutOfFuel.
Proof.
  revert last_pk_value all_data w.
  induction fuel as [|fuel IH]; intros last_pk_value all_data w Hfuel Hpos; [lia|].
  pose proof (pk_loop_run fuel t pk b last_pk_value all_data w) as Hrun.
  cbv zeta in Hrun. rewrite Hrun. clear Hrun.
  destruct (batch_rows_cases t pk b last_pk_value w)
    as [->|(tb & i & Htb & Hi & _ & Hbatch)]; [done|].
  destruct (batch_rows t pk b last_pk_value w) as [|row0 batch] eqn:Hb; [done|].
  rewrite Htb. cbn [from_option]. rewrite Hi. cbn [mbind option_bind].
  destruct (last (row0 :: batch)) as [row|] eqn:Hlast; [|done].
  cbn [mbind option_bind].
  destruct (row !! i) as [v|] eqn:Hv; [|done].
  destruct (_ <? _)%nat; [done|].
  assert (row ∈ remaining tb pk last_pk_value) as Hrow.
  { assert (row ∈ row0 :: batch) as Hin.
    { by apply last_Some_elem_of. }
    rewrite Hbatch in Hin. apply elem_of_take in Hin as (j & Hj & _).
    apply list_elem_of_lookup_2 in Hj. unfold Sql.order_by in Hj.
    by rewrite merge_sort_Permutation in Hj. }
  assert (v = Sql.key_of (Sql.names tb) pk row) as ->.
  { unfold Sql.key_of. rewrite Hi. cbn. by rewrite Hv. }
  pose proof (remaining_shrinks tb pk last_pk_value row Hrow) as Hlt.
  specialize (Hfuel tb Htb).
  apply IH.
  - autorewrite with world. intros tb' Htb'. simplify_eq. lia.
  - lia.
Qed.

(** [_get_all_data_with_pk] never runs out of the fuel it gives its loop. *)
Lemma _get_all_data_with_pk_finishes t pk b total_rows w :
  fst (_get_all_data_with_pk t pk b total_rows w) ≠ OutOfFuel.
Proof.
  unfold _get_all_data_with_pk. cbn [bind gets].
  apply pk_loop_enough_fuel; [|lia].
  intros tb ->. cbn. lia.
Qed.

End keyed_scan.

(** ** Batches of a table with distinct, non-null keys *)

Section sorted_batches.
Context (names : list string) (pk : string).

Local Abbreviation key := (Sql.key_of names pk).
Local Abbreviation R := (Sql.by_key names pk).
Local Abbreviation above v := (fun r : tuple => sql_gt (key r) v = true).

Local Instance by_key_total : Total R.
Proof. intros x y. apply value_le_total. Qed.

Local Instance by_key_trans : Transitive R.
Proof. intros x y z. apply value_le_trans. Qed.

Lemma filter_all {A} (P : A → Prop) `{∀ x, Decision (P x)} (l : list A) :
  Forall P l → filter P l = l.
Proof.
  induction 1 as [|x l Hx _ IH]; [done|].
  by rewrite filter_cons_True, IH.
Qed.

Lemma filter_none {A} (P : A → Prop) `{∀ x, Decision (P x)} (l : list A) :
  Forall (fun x => ¬ P x) l → filter P l = [].
Proof.
  induction 1 as [|x l Hx _ IH]; [done|].
  by rewrite filter_cons_False, IH.
Qed.

Lemma key_inj (rows : list tuple) x y :
  NoDup (map key rows) → x ∈ rows → y ∈ rows → key x = key y → x = y.
Proof.
  induction rows as [|r rows IH]; [by intros _ ?%not_elem_of_nil|].
  cbn [map]. rewrite NoDup_cons, !elem_of_cons.
  intros [Hr Hnd] [->|Hx] [->|Hy] Heq; [done| | |by apply IH].
  - destruct Hr. rewrite Heq. change (map key rows) with (key <$> rows).
    by apply list_elem_of_fmap_2.
  - destruct Hr. rewrite <- Heq. change (map key rows) with (key <$> rows).
    by apply list_elem_of_fmap_2.
Qed.

Lemma order_by_sorted rows : StronglySorted R (Sql.order_by names pk rows).
Proof. apply StronglySorted_merge_sort; apply _. Qed.

Lemma order_by_perm rows : Sql.order_by names pk rows ≡ₚ rows.
Proof. apply merge_sort_Permutation. Qed.

(** Two sorted arrangements of the same rows are the same list. *)
Lemma sorted_unique (rows l1 l2 : list tuple) :
  NoDup (map key rows) → l1 ⊆ rows →
  StronglySorted R l1 → StronglySorted R l2 → l1 ≡ₚ l2 → l1 = l2.
Proof.
  intros Hnd Hsub H1 H2 Hperm.
  apply (StronglySorted_unique_strong R); [|done..].
  intros x1 x2 Hx1 Hx2 Hle Hge.
  apply (key_inj rows); [done|by apply Hsub| |by apply value_le_antisym].
  apply Hsub. by rewrite Hperm.
Qed.

(** In a sorted list with distinct, non-null keys, the rows above the key
    of a row are the rows after it. *)
Lemma filter_above_cut (l1 l2 : list tuple) r :
  StronglySorted R (l1 ++ r :: l2) →
  NoDup (map key (l1 ++ r :: l2)) →
  Forall (fun x => key x ≠ VNull) (l1 ++ r :: l2) →
  filter (above (key r)) (l1 ++ r :: l2) = l2.
Proof.
  intros Hs Hnd Hnn.
  apply StronglySorted_app in Hs as (Hcross & _ & Hs2).
  apply StronglySorted_cons in Hs2 as (Hr2 & _).
  rewrite filter_app, filter_cons_False by (by rewrite sql_gt_irrefl).
  rewrite filter_none, filter_all; [done| |].
  - apply Forall_forall. intros y Hy. apply sql_gt_spec.
    rewrite Forall_forall in Hnn, Hr2.
    split; [apply Hnn; rewrite elem_of_app, elem_of_cons; auto|].
    split; [apply Hnn; rewrite elem_of_app, elem_of_cons; auto|].
    pose proof (Hr2 y Hy) as Hle. unfold Sql.by_key, value_le in Hle.
    destruct (value_compare (key r) (key y)) eqn:E; [|done..].
    apply value_compare_eq in E.
    assert (r = y) as ->.
    { apply (key_inj (l1 ++ r :: l2)); [done| | |done];
        rewrite elem_of_app, elem_of_cons; auto. }
    rewrite map_app in Hnd. cbn [map] in Hnd.
    apply NoDup_app in Hnd as (_ & _ & Hnd). apply NoDup_cons in Hnd as [Hnd _].
    destruct Hnd. change (map key l2) with (key <$> l2).
    by apply list_elem_of_fmap_2.
  - apply Forall_forall. intros x Hx Hgt. apply sql_gt_spec in Hgt as (_ & _ & Hlt).
    assert (R x r) as Hle by (apply Hcross; [done|by left]).
    unfold Sql.by_key, value_le in Hle.
    rewrite (value_compare_antisym (key r) (key x)), Hlt in Hle. done.
Qed.

End sorted_batches.

Section keyed_table.
Import SQLServerConnection.
Context (tb : SrcTable) (pk : string) (i : nat).
Hypothesis Hkeyed : keyed_by tb pk i.

Local Abbreviation names := (Sql.names tb).
Local Abbreviation key := (Sql.key_of (Sql.names tb) pk).
Local Abbreviation sorted := (Sql.order_by (Sql.names tb) pk (st_rows tb)).

Lemma sorted_keys_distinct : NoDup (map key sorted).
Proof.
  destruct Hkeyed as (_ & Hnd & _).
  change (NoDup (key <$> sorted)). rewrite (order_by_perm names pk (st_rows tb)).
  exact Hnd.
Qed.

Lemma sorted_keys_not_null : Forall (fun r => key r ≠ VNull) sorted.
Proof.
  destruct Hkeyed as (_ & _ & Hnn).
  by rewrite (order_by_perm names pk (st_rows tb)).
Qed.

(** The cell of the key column of a row of the table. *)
Lemma key_cell r : r ∈ sorted → r !! i = Some (key r).
Proof.
  intros Hr. pose proof sorted_keys_not_null as Hnn.
  rewrite Forall_forall in Hnn. specialize (Hnn r Hr).
  destruct Hkeyed as (Hi & _ & _). unfold Sql.key_of in *. rewrite Hi in *.
  cbn in *. by destruct (r !! i).
Qed.

(** Beyond the key of its [n]-th row, the table holds the rows after it. *)
Lemma remaining_after n r :
  sorted !! n = Some r →
  Sql.order_by names pk (remaining tb pk (Some (key r))) = drop (S n) sorted.
Proof.
  intros Hn. pose proof (take_drop_middle _ _ _ Hn) as Hsplit.
  pose proof (order_by_sorted names pk (st_rows tb)) as Hs.
  assert (filter (fun x => sql_gt (key x) (key r) = true) sorted = drop (S n) sorted)
    as Hcut.
  { rewrite <- Hsplit at 1. apply filter_above_cut; rewrite Hsplit;
      [done|apply sorted_keys_distinct|apply sorted_keys_not_null]. }
  destruct Hkeyed as (_ & Hnd & _).
  apply (sorted_unique names pk (st_rows tb)); [done| | | |].
  - intros x. unfold Sql.order_by. rewrite merge_sort_Permutation.
    cbn [remaining]. rewrite list_elem_of_filter. by intros [_ ?].
  - apply order_by_sorted.
  - rewrite <- Hsplit in Hs. apply StronglySorted_app_1_r in Hs.
    by apply StronglySorted_cons in Hs as [_ ?].
  - rewrite <- Hcut. rewrite order_by_perm. cbn [remaining].
    by rewrite <- (order_by_perm names pk (st_rows tb)) at 1.
Qed.

(** The rows the [m]-th cursor position leaves to scan, in key order. *)
Lemma remaining_at m :
  (m ≤ length sorted)%nat →
  Sql.order_by names pk (remaining tb pk (cursor_after tb pk m)) = drop m sorted.
Proof.
  intros Hm. destruct m as [|n]; [done|].
  cbn [cursor_after].
  destruct (lookup_lt_is_Some_2 sorted n ltac:(lia)) as [r Hr].
  rewrite Hr. cbn [fmap option_fmap option_map]. by apply remaining_after.
Qed.

Section batches.
Context (t : string) (w : World).
Hypothesis Htable : src_tables (w_source w) !! t = Some tb.
Hypothesis Hquiet : batches_never_raise w t pk.

Lemma batch_at b m tr :
  (m ≤ length sorted)%nat →
  batch_rows t pk b (cursor_after tb pk m) (extend tr w) = take b (drop m sorted) ∧
  batch_failed t pk b (cursor_after tb pk m) (extend tr w) = false.
Proof.
  intros Hm. destruct Hkeyed as (Hi & _ & _).
  pose proof (remaining_at m Hm) as Hrem.
  unfold batch_rows, batch_failed, query_result, query_failed.
  autorewrite with world.
  pose proof (Hquiet (length (w_trace w ++ tr)) b (cursor_after tb pk m)) as Hq.
  destruct m as [|n].
  - cbn [cursor_after batch_query] in *. rewrite Hq. cbn [answer orb].
    unfold Sql.top. rewrite Htable. cbn [mbind option_bind]. rewrite Hi. done.
  - cbn [cursor_after] in *.
    destruct (lookup_lt_is_Some_2 sorted n ltac:(lia)) as [r Hr].
    rewrite Hr in *. cbn [fmap option_fmap option_map batch_query remaining] in *.
    rewrite Hq. cbn [answer orb].
    unfold Sql.top_after. rewrite Htable. cbn [mbind option_bind]. rewrite Hi.
    cbn [mbind option_bind]. by rewrite Hrem.
Qed.

(** The cursor value the loop computes from a batch of [c] rows. *)
Lemma cursor_of_batch b m c :
  c = (b `min` (length sorted - m))%nat → (0 < c)%nat →
  (j ← Py.index pk names; row ← last (take b (drop m sorted)); row !! j)
    = cursor_after tb pk (m + c) ∧
  is_Some (cursor_after tb pk (m + c)).
Proof.
  intros Hc Hpos. destruct Hkeyed as (Hi & _ & _). rewrite Hi. cbn [mbind option_bind].
  rewrite last_lookup, length_take, length_drop, <- Hc.
  replace (Init.Nat.pred c) with (c - 1)%nat by lia.
  rewrite lookup_take_lt by lia. rewrite lookup_drop.
  replace (m + c)%nat with (S (m + (c - 1))) by lia. cbn [cursor_after].
  destruct (lookup_lt_is_Some_2 sorted (m + (c - 1)) ltac:(lia)) as [r Hr].
  rewrite Hr. cbn. split; [|done]. apply key_cell. by eapply list_elem_of_lookup_2.
Qed.

(** A turn of the loop over a batch of [c] rows: the loop goes on after a
    full batch and returns after a short one. *)
Lemma pk_loop_turn fuel b m c all_data tr :
  c = (b `min` (length sorted - m))%nat → (0 < c)%nat →
  pk_loop (S fuel) t pk b (cursor_after tb pk m) all_data (extend tr w) =
    let all_data' := all_data ++ to_dicts names (take b (drop m sorted)) in
    let w1 := extend (tr ++ [Call (Execute (batch_query t pk b (cursor_after tb pk m)))
                                  false c]) w in
    if (c <? b)%nat then (Normal all_data', w1)
    else pk_loop fuel t pk b (cursor_after tb pk (m + c)) all_data' w1.
Proof.
  intros Hc Hpos.
  pose proof (pk_loop_run fuel t pk b (cursor_after tb pk m) all_data (extend tr w))
    as Hrun. cbv zeta in Hrun. rewrite Hrun. clear Hrun.
  destruct (batch_at b m tr ltac:(lia)) as [-> ->].
  assert (length (take b (drop m sorted)) = c) as Hlen
    by (by rewrite length_take, length_drop).
  autorewrite with world. rewrite Htable. cbn [from_option].
  destruct (cursor_of_batch b m c Hc Hpos) as [-> [v Hv]].
  rewrite Hlen, Hv, extend_extend.
  destruct (take b (drop m sorted)) as [|row batch] eqn:Hb; [cbn in Hlen; lia|].
  done.
Qed.

Lemma pk_loop_first_turn fuel b c :
  c = (b `min` length sorted)%nat → (0 < c)%nat →
  pk_loop (S fuel) t pk b None [] w =
    let all_data' := to_dicts names (take b sorted) in
    let w1 := extend [Call (Execute (QTop t pk b)) false c] w in
    if (c <? b)%nat then (Normal all_data', w1)
    else pk_loop fuel t pk b (cursor_after tb pk c) all_data' w1.
Proof.
  intros Hc Hpos.
  pose proof (pk_loop_turn fuel b 0 c [] [] ltac:(rewrite Nat.sub_0_r; exact Hc) Hpos)
    as H.
  by rewrite extend_nil in H.
Qed.

End batches.
End keyed_table.

(** C9.  A table of 2,500 rows with distinct, non-null values in its key
    column is scanned with batch size 1000 in exactly three queries, which
    return 1000, 1000 and 500 rows: the first takes the lowest keys, each
    later one the keys above the last key seen, and the loop returns after
    the batch that is shorter than the batch size.  The frame returned
    holds all 2,500 rows, each once, by ascending key; a row is returned
    as the pairs of the names of the columns and its values. *)
Theorem C9_keyed_scan_of_2500_rows t pk i tb w :
  src_tables (w_source w) !! t = Some tb →
  keyed_by tb pk i →
  batches_never_raise w t pk →
  length (st_rows tb) = 2500 →
  let sorted := Sql.order_by (Sql.names tb) pk (st_rows tb) in
  ∃ k1 k2,
    cursor_after tb pk 1000 = Some k1 ∧
    cursor_after tb pk 2000 = Some k2 ∧
    SQLServerConnection._get_all_data_with_pk t pk 1000 2500 w =
      (Normal ((fun row => zip (Sql.names tb) row) <$> sorted),
       extend [Call (Execute (QTop t pk 1000)) false 1000;
               Call (Execute (QTopAfter t pk 1000 k1)) false 1000;
               Call (Execute (QTopAfter t pk 1000 k2)) false 500] w) ∧
    sorted ≡ₚ st_rows tb ∧
    StronglySorted (Sql.by_key (Sql.names tb) pk) sorted ∧
    length sorted = 2500.
Proof.
  intros Htb Hk Hq Hlen sorted.
  assert (length sorted = 2500) as Hsorted.
  { subst sorted. by rewrite (order_by_perm _ _ (st_rows tb)). }
  destruct (cursor_of_batch tb pk i Hk 1000 0 1000) as [_ [k1 Hk1]];
    [fold sorted; rewrite Hsorted; reflexivity|lia|].
  destruct (cursor_of_batch tb pk i Hk 1000 1000 1000) as [_ [k2 Hk2]];
    [fold sorted; rewrite Hsorted; reflexivity|lia|].
  change (0 + 1000)%nat with 1000%nat in Hk1.
  change (1000 + 1000)%nat with 2000%nat in Hk2.
  exists k1, k2. split; [done|]. split; [done|].
  split; [|split; [apply order_by_perm|split; [apply order_by_sorted|done]]].
  unfold SQLServerConnection._get_all_data_with_pk. cbn [bind gets].
  rewrite Htb. cbn [from_option]. rewrite Hlen.
  rewrite (pk_loop_first_turn tb pk i Hk t w Htb Hq 2500 1000 1000);
    [|fold sorted; rewrite Hsorted; reflexivity|lia].
  cbv zeta. change (1000 <? 1000)%nat with false. cbv iota.
  rewrite (pk_loop_turn tb pk i Hk t w Htb Hq 2499 1000 1000 1000);
    [|fold sorted; rewrite Hsorted; reflexivity|lia].
  cbv zeta. change (1000 <? 1000)%nat with false. cbv iota.
  change (1000 + 1000)%nat with 2000%nat.
  rewrite (pk_loop_turn tb pk i Hk t w Htb Hq 2498 1000 2000 500);
    [|fold sorted; rewrite Hsorted; reflexivity|lia].
  cbv zeta. change (500 <? 1000)%nat with true. cbv iota.
  rewrite Hk1, Hk2. cbn [batch_query app]. f_equal. f_equal.
  fold sorted. unfold to_dicts. rewrite <- !map_app.
  change (map (fun row : tuple => zip (Sql.names tb) row) ?l)
    with ((fun row : tuple => zip (Sql.names tb) row) <$> l).
  f_equal.
  rewrite (take_ge (drop 2000 sorted)) by (rewrite length_drop; lia).
  rewrite <- (take_drop 1000 sorted) at 4.
  rewrite <- (take_drop 1000 (drop 1000 sorted)) at 2.
  by rewrite drop_drop, app_assoc.
Qed.

Lemma many_rows_keyed :
  keyed_by (Scenario.orders Scenario.many_rows) "id" 0.
Proof.
  split; [reflexivity|].
  assert (∀ n, Sql.key_of (Sql.names (Scenario.orders Scenario.many_rows)) "id"
                 (Scenario.order_row n) = VInt (Z.of_nat n)) as Hkey by done.
  cbn [st_rows Scenario.orders]. unfold Scenario.many_rows. split.
  - rewrite map_map.
    rewrite (map_ext _ (fun n => VInt (Z.of_nat n))) by exact Hkey.
    change (NoDup ((fun n => VInt (Z.of_nat n)) <$> reverse (seq 1 2500))).
    apply NoDup_fmap_2_strong; [|rewrite reverse_Permutation; apply NoDup_seq].
    intros x y _ _ [= Heq]. lia.
  - apply Forall_forall. intros r Hr.
    change (r ∈ Scenario.order_row <$> reverse (seq 1 2500)) in Hr.
    apply list_elem_of_fmap in Hr as (n & -> & _). by rewrite Hkey.
Qed.

Lemma C9_witness :
  let w := Scenario.large_first_run in
  let tb := Scenario.orders Scenario.many_rows in
  let sorted := Sql.order_by (Sql.names tb) "id" (st_rows tb) in
  ∃ k1 k2,
    cursor_after tb "id" 1000 = Some k1 ∧
    cursor_after tb "id" 2000 = Some k2 ∧
    SQLServerConnection._get_all_data_with_pk "orders" "id" 1000 2500 w =
      (Normal ((fun row => zip (Sql.names tb) row) <$> sorted),
       extend [Call (Execute (QTop "orders" "id" 1000)) false 1000;
               Call (Execute (QTopAfter "orders" "id" 1000 k1)) false 1000;
               Call (Execute (QTopAfter "orders" "id" 1000 k2)) false 500] w) ∧
    sorted ≡ₚ st_rows tb ∧
    StronglySorted (Sql.by_key (Sql.names tb) "id") sorted ∧
    length sorted = 2500.
Proof.
  apply (C9_keyed_scan_of_2500_rows "orders" "id" 0
           (Scenario.orders Scenario.many_rows) Scenario.large_first_run).
  - reflexivity.
  - exact many_rows_keyed.
  - intros n b last_pk_value. reflexivity.
  - reflexivity.
Defined.

(** ** The keyed scan, for any batch size *)

Section keyed_scan_any_batch.
Import SQLServerConnection.
Context (tb : SrcTable) (pk : string) (i : nat).
Hypothesis Hkeyed : keyed_by tb pk i.
Context (t : string) (w : World).
Hypothesis Htable : src_tables (w_source w) !! t = Some tb.
Hypothesis Hquiet : batches_never_raise w t pk.

Local Abbreviation names := (Sql.names tb).
Local Abbreviation sorted := (Sql.order_by (Sql.names tb) pk (st_rows tb)).

(** The query past the last row returns nothing and ends the loop. *)
Lemma pk_loop_empty_turn fuel b all_data tr :
  pk_loop (S fuel) t pk b (cursor_after tb pk (length sorted)) all_data (extend tr w) =
    (Normal all_data,
     extend (tr ++ [Call (Execute (batch_query t pk b (cursor_after tb pk (length sorted))))
                         false 0]) w).
Proof.
  pose proof (pk_loop_run fuel t pk b (cursor_after tb pk (length sorted)) all_data
                (extend tr w)) as Hrun.
  cbv zeta in Hrun. rewrite Hrun. clear Hrun.
  destruct (batch_at tb pk i Hkeyed t w Htable Hquiet b (length sorted) tr (le_n _))
    as [-> ->].
  rewrite drop_all, take_nil. by rewrite extend_extend.
Qed.

Lemma pk_loop_scan b fuel : (0 < b)%nat →
  ∀ m all_data tr,
  (m ≤ length sorted)%nat → (length sorted - m < fuel)%nat →
  ∃ batches,
    pk_loop fuel t pk b (cursor_after tb pk m) all_data (extend tr w) =
      (Normal (all_data ++ to_dicts names (drop m sorted)), extend (tr ++ batches) w) ∧
    Forall (fun e => batch_ok e = true) batches ∧
    rows_of <$> batches =
      replicate ((length sorted - m) / b) b ++ [((length sorted - m) mod b)%nat].
Proof.
  intros Hb. induction fuel as [|fuel IH]; intros m all_data tr Hm Hfuel; [lia|].
  destruct (decide (m = length sorted)) as [->|Hne].
  - rewrite pk_loop_empty_turn. eexists. split; [|split].
    + by rewrite drop_all, app_nil_r.
    + repeat constructor. by destruct (cursor_after _ _ _).
    + by rewrite Nat.sub_diag, Nat.Div0.div_0_l, Nat.Div0.mod_0_l.
  - set (c := (b `min` (length sorted - m))%nat).
    assert (0 < c)%nat as Hc by lia.
    rewrite (pk_loop_turn tb pk i Hkeyed t w Htable Hquiet fuel b m c all_data tr eq_refl Hc).
    cbv zeta. destruct (Nat.ltb_spec c b) as [Hlt|Hge].
    + assert (length sorted - m < b)%nat as Hshort by lia.
      eexists. split; [|split].
      * rewrite take_ge by (rewrite length_drop; lia). done.
      * repeat constructor. by destruct (cursor_after _ _ _).
      * rewrite Nat.div_small, Nat.mod_small by done. cbn. f_equal. lia.
    + assert (c = b) as Hcb by lia. rewrite Hcb.
      destruct (IH (m + b)%nat
                  (all_data ++ to_dicts names (take b (drop m sorted)))
                  (tr ++ [Call (Execute (batch_query t pk b (cursor_after tb pk m))) false b])
                  ltac:(lia) ltac:(lia))
        as (batches & -> & Hok & Hrows).
      eexists (_ :: batches). split; [|split].
      * rewrite <- !app_assoc. cbn [app]. do 2 f_equal.
        unfold to_dicts. rewrite <- map_app. f_equal.
        rewrite <- drop_drop. by rewrite take_drop.
      * constructor; [|done]. by destruct (cursor_after _ _ _).
      * rewrite fmap_cons, Hrows. cbn [rows_of].
        replace (length sorted - m)%nat with (length sorted - (m + b) + 1 * b)%nat
          by lia.
        rewrite Nat.div_add, Nat.Div0.mod_add by lia.
        by rewrite Nat.add_1_r.
Qed.

End keyed_scan_any_batch.

Section full_scan.
Import SQLServerConnection.

Lemma query_count t tb w :
  src_tables (w_source w) !! t = Some tb →
  never_raises w (Execute (QCount t)) →
  query_result (QCount t) w = [length (st_rows tb)] ∧ query_failed (QCount t) w = false.
Proof.
  intros Htb Hn. unfold query_result, query_failed. rewrite Hn. cbn.
  unfold Sql.count. by rewrite Htb.
Qed.

Lemma query_primary_key_ok t tb w :
  src_tables (w_source w) !! t = Some tb →
  never_raises w (Execute (QPrimaryKey t)) →
  query_result (QPrimaryKey t) w = st_pk tb ∧ query_failed (QPrimaryKey t) w = false.
Proof.
  intros Htb Hn. unfold query_result, query_failed. rewrite Hn. cbn.
  unfold Sql.primary_key. by rewrite Htb.
Qed.

Lemma _get_all_data_with_pk_run t pk b total_rows w :
  _get_all_data_with_pk t pk b total_rows w =
    pk_loop (S (length (from_option st_rows [] (src_tables (w_source w) !! t))))
            t pk b None [] w.
Proof. reflexivity. Qed.

Lemma get_all_data_keyed_run t pk pks i tb b w :
  src_tables (w_source w) !! t = Some tb →
  st_pk tb = pk :: pks →
  keyed_by tb pk i →
  never_raises w (Execute (QCount t)) →
  never_raises w (Execute (QPrimaryKey t)) →
  batches_never_raise w t pk →
  (0 < b)%nat →
  st_rows tb ≠ [] →
  ∃ batches,
    get_all_data t b w =
      (to_dicts (Sql.names tb) (Sql.order_by (Sql.names tb) pk (st_rows tb)),
       extend (Call (Execute (QCount t)) false 1
               :: Call (Execute (QPrimaryKey t)) false (S (length pks)) :: batches) w) ∧
    Forall (fun e => batch_ok e = true) batches ∧
    rows_of <$> batches =
      replicate (length (st_rows tb) / b) b ++ [(length (st_rows tb) mod b)%nat].
Proof.
  intros Htb Hpk Hk Hc Hp Hq Hb Hrows.
  assert (length (Sql.order_by (Sql.names tb) pk (st_rows tb)) = length (st_rows tb))
    as Hlen by (by rewrite order_by_perm).
  unfold get_all_data.
  rewrite (bind_run _ _ _ _ _ (execute_query_run (QCount t) w)).
  destruct (query_count t tb w Htb Hc) as [-> ->]. cbn [length].
  destruct (Nat.eqb_spec (length (st_rows tb)) 0) as [Hz|Hnz].
  { by apply nil_length_inv in Hz. }
  rewrite (bind_run _ _ _ _ _ (get_primary_key_columns_run t _)).
  destruct (query_primary_key_ok t tb (extend [Call (Execute (QCount t)) false 1] w))
    as [-> ->]; [done..|].
  rewrite Hpk, extend_extend. cbn [app length].
  rewrite bind_eta, _get_all_data_with_pk_run. autorewrite with world.
  rewrite Htb. cbn [from_option].
  destruct (pk_loop_scan tb pk i Hk t w Htb Hq b (S (length (st_rows tb))) Hb 0 []
              [Call (Execute (QCount t)) false 1;
               Call (Execute (QPrimaryKey t)) false (S (length pks))]
              ltac:(lia) ltac:(lia)) as (batches & Hrun & Hok & Hn).
  cbn [cursor_after] in Hrun. cbn [row_type]. rewrite Hrun. cbn [fst snd]. cbv [ret].
  exists batches. rewrite Nat.sub_0_r, Hlen in Hn. by rewrite drop_0.
Qed.

(** X1.  [get_all_data] over a table with a primary key whose first column
    holds distinct, non-null values returns every row of the table exactly
    once, by ascending value of that column, for any positive batch size,
    when none of its queries fails; a row is returned as the pairs of the
    names of the columns and its values.  A table of [n > 0] rows takes
    [n / b] batch queries that return [b] rows each, and one more that
    returns the [n mod b] rows left: none, when [b] divides [n]. *)
Theorem X1_keyed_scan_returns_every_row t pk pks i tb b w :
  src_tables (w_source w) !! t = Some tb →
  st_pk tb = pk :: pks →
  keyed_by tb pk i →
  never_raises w (Execute (QCount t)) →
  never_raises w (Execute (QPrimaryKey t)) →
  batches_never_raise w t pk →
  (0 < b)%nat →
  let n := length (st_rows tb) in
  let sorted := Sql.order_by (Sql.names tb) pk (st_rows tb) in
  let r := get_all_data t b w in
  fst r = (fun row => zip (Sql.names tb) row) <$> sorted ∧
  sorted ≡ₚ st_rows tb ∧
  StronglySorted (Sql.by_key (Sql.names tb) pk) sorted ∧
  (n ≠ 0%nat →
   ∃ batches,
     calls_since w (snd r) =
       Call (Execute (QCount t)) false 1
       :: Call (Execute (QPrimaryKey t)) false (S (length pks)) :: batches ∧
     Forall (fun e => batch_ok e = true) batches ∧
     rows_of <$> batches = replicate (n / b) b ++ [(n mod b)%nat]).
Proof.
  intros Htb Hpk Hk Hc Hp Hq Hb n sorted r.
  split; [|split; [apply order_by_perm|split; [apply order_by_sorted|]]].
  - destruct (st_rows tb) as [|row rows] eqn:Hrows.
    + subst r. unfold get_all_data.
      rewrite (bind_run _ _ _ _ _ (execute_query_run (QCount t) w)).
      destruct (query_count t tb w Htb Hc) as [-> _]. by rewrite Hrows.
    + destruct (get_all_data_keyed_run t pk pks i tb b w) as (batches & Hrun & _);
        [done..|by rewrite Hrows|].
      subst r sorted. rewrite Hrun, Hrows. done.
  - intros Hn. subst n.
    destruct (get_all_data_keyed_run t pk pks i tb b w) as (batches & Hrun & Hrest);
      [done..|by intros Hnil; rewrite Hnil in Hn|].
    exists batches. subst r. rewrite Hrun. split; [|done].
    by apply calls_since_app.
Qed.

Lemma five_rows_keyed : keyed_by (Scenario.orders Cases.five_rows) "id" 0.
Proof.
  split; [reflexivity|]. split; compute_done.
Qed.

Lemma X1_witness :
  let w := Cases.first_run_of (Scenario.orders Cases.five_rows) Scenario.healthy in
  let tb := Scenario.orders Cases.five_rows in
  let n := length (st_rows tb) in
  let sorted := Sql.order_by (Sql.names tb) "id" (st_rows tb) in
  let r := SQLServerConnection.get_all_data "orders" 2 w in
  fst r = (fun row => zip (Sql.names tb) row) <$> sorted ∧
  sorted ≡ₚ st_rows tb ∧
  StronglySorted (Sql.by_key (Sql.names tb) "id") sorted ∧
  (n ≠ 0%nat →
   ∃ batches,
     calls_since w (snd r) =
       Call (Execute (QCount "orders")) false 1
       :: Call (Execute (QPrimaryKey "orders")) false 1 :: batches ∧
     Forall (fun e => batch_ok e = true) batches ∧
     rows_of <$> batches = replicate (n / 2) 2%nat ++ [(n mod 2)%nat]).
Proof.
  apply (X1_keyed_scan_returns_every_row "orders" "id" [] 0
           (Scenario.orders Cases.five_rows) 2
           (Cases.first_run_of (Scenario.orders Cases.five_rows) Scenario.healthy)).
  - reflexivity.
  - reflexivity.
  - exact five_rows_keyed.
  - intros n. reflexivity.
  - intros n. reflexivity.
  - intros n b last_pk_value. reflexivity.
  - lia.
Defined.

End full_scan.

(** ** The scan by offset *)

Section offset_scan.
Import SQLServerConnection.
Context (tb : SrcTable) (t : string) (w : World) (b : nat).
Hypothesis Htable : src_tables (w_source w) !! t = Some tb.
Hypothesis Hquiet : ∀ n o, w_raises w n (Execute (QOffset t o b)) = false.
Hypothesis Hb : (0 < b)%nat.

Local Abbreviation names := (Sql.names tb).
Local Abbreviation rows := (st_rows tb).

Lemma query_offset o tr :
  query_result (QOffset t o b) (extend tr w) = take b (drop o rows) ∧
  query_failed (QOffset t o b) (extend tr w) = false.
Proof.
  unfold query_result, query_failed. autorewrite with world. rewrite Hquiet.
  cbn. unfold Sql.offset. by rewrite Htable.
Qed.

Lemma offset_loop_scan fuel :
  ∀ o all_data tr,
  (length rows - o ≤ fuel)%nat →
  ∃ batches,
    offset_loop t b (range_from fuel o (length rows) b) all_data (extend tr w) =
      (all_data ++ to_dicts names (drop o rows), extend (tr ++ batches) w) ∧
    length batches = ((length rows - o + (b - 1)) / b)%nat ∧
    Forall (fun e => batch_ok e = true) batches ∧
    sum_list (rows_of <$> batches) = (length rows - o)%nat.
Proof.
  assert (∀ o all_data tr, (length rows ≤ o)%nat →
    ∃ batches,
      (all_data, extend tr w) =
        (all_data ++ to_dicts names (drop o rows), extend (tr ++ batches) w) ∧
      length batches = ((length rows - o + (b - 1)) / b)%nat ∧
      Forall (fun e => batch_ok e = true) batches ∧
      sum_list (rows_of <$> batches) = (length rows - o)%nat) as Hend.
  { intros o all_data tr Ho. exists []. rewrite drop_ge, !app_nil_r by done.
    replace (length rows - o)%nat with 0%nat by lia.
    rewrite Nat.div_small by lia. done. }
  induction fuel as [|fuel IH]; intros o all_data tr Hfuel.
  { cbn. apply Hend. lia. }
  cbn [range_from]. destruct (Nat.ltb_spec o (length rows)) as [Hlt|Hge].
  2: { cbn. by apply Hend. }
  cbn [offset_loop].
  rewrite (bind_run _ _ _ _ _ (execute_query_run (QOffset t o b) (extend tr w))).
  destruct (query_offset o tr) as [-> ->].
  assert (length (take b (drop o rows)) = (b `min` (length rows - o))%nat) as Hlen
    by (by rewrite length_take, length_drop).
  destruct (take b (drop o rows)) as [|row batch] eqn:Hbatch; [cbn in Hlen; lia|].
  cbv beta match. rewrite <- Hbatch in *. clear Hbatch row batch.
  unfold description. rewrite bind_eta. cbn [gets fst snd]. autorewrite with world.
  rewrite Htable. cbn [from_option row_type]. rewrite extend_extend.
  destruct (IH (o + b)%nat (all_data ++ to_dicts names (take b (drop o rows)))
              (tr ++ [Call (Execute (QOffset t o b)) false
                           (length (take b (drop o rows)))]) ltac:(lia))
    as (batches & -> & Hn & Hok & Hsum).
  eexists (_ :: batches). split; [|split; [|split]].
  - rewrite <- !app_assoc. cbn [app]. do 2 f_equal.
    unfold to_dicts. rewrite <- map_app. f_equal.
    rewrite <- drop_drop. by rewrite take_drop.
  - cbn [length]. rewrite Hn.
    destruct (decide (b ≤ length rows - o)%nat).
    + replace (length rows - o + (b - 1))%nat
        with (1 * b + (length rows - (o + b) + (b - 1)))%nat by lia.
      by rewrite Nat.div_add_l by lia.
    + replace (length rows - (o + b))%nat with 0%nat by lia.
      replace (length rows - o + (b - 1))%nat
        with (1 * b + (length rows - o - 1))%nat by lia.
      rewrite Nat.div_add_l by lia. rewrite !Nat.div_small by lia. done.
  - by constructor.
  - cbn. rewrite Hsum, Hlen. lia.
Qed.

End offset_scan.

Section keyless_scan.
Import SQLServerConnection.

Lemma get_all_data_keyless_run t tb b w :
  src_tables (w_source w) !! t = Some tb →
  st_pk tb = [] →
  never_raises w (Execute (QCount t)) →
  never_raises w (Execute (QPrimaryKey t)) →
  (∀ n o, w_raises w n (Execute (QOffset t o b)) = false) →
  (0 < b)%nat →
  st_rows tb ≠ [] →
  ∃ batches,
    get_all_data t b w =
      (to_dicts (Sql.names tb) (st_rows tb),
       extend (Call (Execute (QCount t)) false 1
               :: Call (Execute (QPrimaryKey t)) false 0 :: batches) w) ∧
    length batches = ((length (st_rows tb) + (b - 1)) / b)%nat ∧
    Forall (fun e => batch_ok e = true) batches ∧
    sum_list (rows_of <$> batches) = length (st_rows tb).
Proof.
  intros Htb Hpk Hc Hp Hq Hb Hrows.
  unfold get_all_data.
  rewrite (bind_run _ _ _ _ _ (execute_query_run (QCount t) w)).
  destruct (query_count t tb w Htb Hc) as [-> ->]. cbn [length].
  destruct (Nat.eqb_spec (length (st_rows tb)) 0) as [Hz|Hnz].
  { by apply nil_length_inv in Hz. }
  rewrite (bind_run _ _ _ _ _ (get_primary_key_columns_run t _)).
  destruct (query_primary_key_ok t tb (extend [Call (Execute (QCount t)) false 1] w))
    as [-> ->]; [done..|].
  rewrite Hpk, extend_extend. cbn [app length].
  unfold _get_all_data_with_offset. destruct b as [|b']; [lia|].
  rewrite !bind_eta.
  destruct (offset_loop_scan tb t w (S b') Htb Hq Hb (length (st_rows tb)) 0 []
              [Call (Execute (QCount t)) false 1;
               Call (Execute (QPrimaryKey t)) false 0] ltac:(lia))
    as (batches & Hrun & Hn & Hok & Hsum).
  rewrite Hrun. cbn [fst snd]. cbv [ret]. cbn [fst snd].
  exists batches. rewrite Nat.sub_0_r in Hn, Hsum. by rewrite drop_0.
Qed.

(** X2.  [get_all_data] over a table without a primary key pages through
    it by offset and returns every row exactly once, for any positive batch
    size, when none of its queries fails and the server lists the rows in
    the same order for every batch (the statement itself asks for no
    order); a row is returned as the pairs of the names of the columns and
    its values.  A table of [n] rows takes [n / b] batch queries of size
    [b], rounded up. *)
Theorem X2_keyless_scan_returns_every_row t tb b w :
  src_tables (w_source w) !! t = Some tb →
  st_pk tb = [] →
  never_raises w (Execute (QCount t)) →
  never_raises w (Execute (QPrimaryKey t)) →
  (∀ n o, w_raises w n (Execute (QOffset t o b)) = false) →
  (0 < b)%nat →
  let n := length (st_rows tb) in
  let r := get_all_data t b w in
  fst r = (fun row => zip (Sql.names tb) row) <$> st_rows tb ∧
  (n ≠ 0%nat →
   ∃ batches,
     calls_since w (snd r) =
       Call (Execute (QCount t)) false 1
       :: Call (Execute (QPrimaryKey t)) false 0 :: batches ∧
     length batches = ((n + (b - 1)) / b)%nat ∧
     Forall (fun e => batch_ok e = true) batches ∧
     sum_list (rows_of <$> batches) = n).
Proof.
  intros Htb Hpk Hc Hp Hq Hb n r. split.
  - destruct (st_rows tb) as [|row rows] eqn:Hrows.
    + subst r. unfold get_all_data.
      rewrite (bind_run _ _ _ _ _ (execute_query_run (QCount t) w)).
      destruct (query_count t tb w Htb Hc) as [-> _]. by rewrite Hrows.
    + destruct (get_all_data_keyless_run t tb b w) as (batches & Hrun & _);
        [done..|by rewrite Hrows|].
      subst r. rewrite Hrun, Hrows. done.
  - intros Hn. subst n.
    destruct (get_all_data_keyless_run t tb b w) as (batches & Hrun & Hrest);
      [done..|by intros Hnil; rewrite Hnil in Hn|].
    exists batches. subst r. rewrite Hrun. split; [|done].
    by apply calls_since_app.
Qed.

Lemma X2_witness :
  let w := Cases.first_run_of Scenario.keyless Scenario.healthy in
  let tb := Scenario.keyless in
  let n := length (st_rows tb) in
  let r := SQLServerConnection.get_all_data "orders" 2 w in
  fst r = (fun row => zip (Sql.names tb) row) <$> st_rows tb ∧
  (n ≠ 0%nat →
   ∃ batches,
     calls_since w (snd r) =
       Call (Execute (QCount "orders")) false 1
       :: Call (Execute (QPrimaryKey "orders")) false 0 :: batches ∧
     length batches = ((n + (2 - 1)) / 2)%nat ∧
     Forall (fun e => batch_ok e = true) batches ∧
     sum_list (rows_of <$> batches) = n).
Proof.
  apply (X2_keyless_scan_returns_every_row "orders" Scenario.keyless 2
           (Cases.first_run_of Scenario.keyless Scenario.healthy)).
  - reflexivity.
  - reflexivity.
  - intros n. reflexivity.
  - intros n. reflexivity.
  - intros n o. reflexivity.
  - lia.
Defined.

End keyless_scan.

(** ** What a full scan can return *)

Section scan_edges.
Import SQLServerConnection.

(** X3.  With a batch size of 0 [get_all_data] returns the empty frame for
    every table, whatever the table holds and whichever calls raise: the
    keyed scan asks for [TOP 0] rows and stops at the empty batch, and the
    scan by offset ends in the [ValueError] of [range], which the [except]
    clause turns into an empty frame. *)
Theorem X3_batch_size_zero_scans_nothing t w :
  fst (get_all_data t 0 w) = [].
Proof.
  unfold get_all_data.
  rewrite (bind_run _ _ _ _ _ (execute_query_run (QCount t) w)).
  destruct (_ =? 0)%nat; [done|].
  rewrite (bind_run _ _ _ _ _ (get_primary_key_columns_run t _)).
  destruct (query_result (QPrimaryKey t) _) as [|pk pks]; [done|].
  rewrite bind_eta, _get_all_data_with_pk_run.
  match goal with |- context [pk_loop (S ?f) t pk 0 None [] ?w1] =>
    pose proof (pk_loop_run f t pk 0 None [] w1) as Hrun;
    destruct (batch_rows_cases t pk 0 None w1) as [Hb|(tb & i & _ & _ & _ & Hb)]
  end; cbv zeta in Hrun; rewrite Hrun, Hb; done.
Qed.

Lemma rows_of_table_batch t src tb columns (all_data : DataFrame) (batch : list tuple) :
  src_tables src !! t = Some tb →
  columns = Sql.names tb →
  batch ⊆ st_rows tb →
  rows_of_table t src all_data →
  rows_of_table t src (all_data ++ to_dicts columns batch).
Proof.
  intros Htb -> Hsub Hall. apply Forall_app. split; [done|].
  unfold to_dicts. apply Forall_forall. intros d Hd.
  change (d ∈ (fun row : tuple => zip (Sql.names tb) row) <$> batch) in Hd.
  apply list_elem_of_fmap in Hd as (row & -> & Hrow).
  exists tb, row. auto.
Qed.

Lemma offset_batch_rows t o b w :
  query_result (QOffset t o b) w = [] ∨
  ∃ tb, src_tables (w_source w) !! t = Some tb ∧
        query_result (QOffset t o b) w ⊆ st_rows tb.
Proof.
  unfold query_result. destruct (w_raises w _ _); [by left|].
  cbn [answer]. unfold Sql.offset.
  destruct (src_tables (w_source w) !! t) as [tb|]; [|by left].
  right. exists tb. split; [done|]. cbn.
  intros row Hrow. eapply elem_of_sublist; [exact Hrow|].
  etrans; [apply sublist_take|apply sublist_drop].
Qed.

Lemma offset_loop_sound t b src offsets :
  ∀ all_data w, w_source w = src →
  rows_of_table t src all_data →
  rows_of_table t src (fst (offset_loop t b offsets all_data w)).
Proof.
  induction offsets as [|o rest IH]; intros all_data w Hsrc Hall; [done|].
  cbn [offset_loop].
  rewrite (bind_run _ _ _ _ _ (execute_query_run (QOffset t o b) w)).
  destruct (offset_batch_rows t o b w) as [->|(tb & Htb & Hsub)]; [done|].
  destruct (query_result (QOffset t o b) w) as [|row batch] eqn:Hbatch; [done|].
  unfold description. rewrite bind_eta. cbn [gets fst snd]. autorewrite with world.
  apply IH; [by autorewrite with world|].
  rewrite Htb. cbn [from_option]. subst src. by eapply rows_of_table_batch.
Qed.

Lemma keyed_batch_rows t pk b last_pk_value w :
  batch_rows t pk b last_pk_value w = [] ∨
  ∃ tb, src_tables (w_source w) !! t = Some tb ∧
        batch_rows t pk b last_pk_value w ⊆ st_rows tb.
Proof.
  destruct (batch_rows_cases t pk b last_pk_value w)
    as [->|(tb & i & Htb & _ & _ & ->)]; [by left|].
  right. exists tb. split; [done|].
  intros row Hrow. apply elem_of_take in Hrow as (j & Hj & _).
  apply list_elem_of_lookup_2 in Hj.
  rewrite (order_by_perm (Sql.names tb) pk) in Hj.
  destruct last_pk_value as [v|]; cbn [remaining] in Hj; [|done].
  by apply list_elem_of_filter in Hj as [_ ?].
Qed.

Lemma pk_loop_sound t pk b src fuel :
  ∀ last_pk_value all_data w, w_source w = src →
  rows_of_table t src all_data →
  ∀ df, fst (pk_loop fuel t pk b last_pk_value all_data w) = Normal df →
        rows_of_table t src df.
Proof.
  induction fuel as [|fuel IH]; intros last_pk_value all_data w Hsrc Hall df; [done|].
  pose proof (pk_loop_run fuel t pk b last_pk_value all_data w) as Hrun.
  cbv zeta in Hrun. rewrite Hrun. clear Hrun.
  destruct (keyed_batch_rows t pk b last_pk_value w) as [->|(tb & Htb & Hsub)].
  { by intros [= <-]. }
  destruct (batch_rows t pk b last_pk_value w) as [|row batch] eqn:Hbatch.
  { by intros [= <-]. }
  destruct (_ ≫= _) as [v|]; [|done].
  assert (rows_of_table t src
            (all_data ++ to_dicts (from_option Sql.names [] (src_tables (w_source w) !! t))
               (row :: batch))) as Hall'.
  { rewrite Htb. cbn [from_option]. subst src. by eapply rows_of_table_batch. }
  destruct (_ <? _)%nat; [by intros [= <-]|].
  apply IH; [by autorewrite with world|done].
Qed.

(** X4.  Whatever the batch size and whichever calls raise, every row of
    the frame [get_all_data] returns is a row of the source table, keyed by
    the names of the table's columns: a scan that fails part of the way
    returns fewer rows, never rows that are not in the table. *)
Theorem X4_scan_returns_only_rows_of_the_table t b w :
  rows_of_table t (w_source w) (fst (get_all_data t b w)).
Proof.
  unfold get_all_data.
  rewrite (bind_run _ _ _ _ _ (execute_query_run (QCount t) w)).
  destruct (_ =? 0)%nat; [by constructor|].
  rewrite (bind_run _ _ _ _ _ (get_primary_key_columns_run t _)).
  destruct (query_result (QPrimaryKey t) _) as [|pk pks].
  - unfold _get_all_data_with_offset. destruct b as [|b']; [by constructor|].
    rewrite !bind_eta. cbn [ret fst snd].
    apply offset_loop_sound; [by autorewrite with world|by constructor].
  - rewrite bind_eta.
    match goal with |- context [_get_all_data_with_pk t pk b ?n ?w1] =>
      pose proof (pk_loop_sound t pk b (w_source w)
                    (S (length (from_option st_rows [] (src_tables (w_source w1) !! t))))
                    None [] w1) as Hsound;
      rewrite (_get_all_data_with_pk_run t pk b n w1)
    end.
    destruct (pk_loop _ _ _ _ _ _ _) as [[df| |] w2]; cbn [fst snd ret];
      [|by constructor..].
    apply Hsound; [by autorewrite with world|by constructor|done].
Qed.

End scan_edges.

(** ** Passes that go wrong *)

Section precise_steps.
Import SQLServerConnection BigQueryConnection.

Lemma create_table_ok t schema w :
  w_raises w (length (w_trace w)) (CreateTable t) = false →
  w_target w !! t = None →
  create_table t schema w =
    (true, extend [Call (CreateTable t) false 0]
             (with_target (<[t := {| tt_schema := _convert_schema schema;
                                     tt_clustering := clustering_fields schema;
                                     tt_rows := [] |}]> (w_target w)) w)).
Proof.
  intros Hr Hfree. rewrite create_table_run, Hr, Hfree.
  by rewrite bool_decide_eq_false_2 by (by intros [? ?]).
Qed.

(** The rows a [DELETE] with the conditions of [pk_df] leaves, when the
    text of the statement is the statement meant. *)
Lemma delete_rows_cases t pk_df w :
  df_empty pk_df = false →
  quotable t = true →
  plain_frame pk_df = true →
  delete_rows t pk_df w = (false, extend [Call (DeleteJob t) true (length pk_df)] w) ∨
  ∃ tb,
    w_target w !! t = Some tb ∧
    w_raises w (length (w_trace w)) (DeleteJob t) = false ∧
    delete_rows t pk_df w =
      (true, extend [Call (DeleteJob t) false (length pk_df)]
               (with_target
                  (<[t := {| tt_schema := tt_schema tb;
                             tt_clustering := tt_clustering tb;
                             tt_rows := filter (fun r => existsb (fun key => condition key r)
                                                           pk_df = false)
                                               (tt_rows tb) |}]> (w_target w)) w)).
Proof.
  intros Hne Hq Hp. unfold delete_rows, bind, raises, gets. rewrite Hne, Hq, Hp.
  cbn [andb].
  destruct (w_raises w _ _); [by left|].
  destruct (w_target w !! t) as [tb|] eqn:Htb; [|by left].
  right. by exists tb.
Qed.

(** A row count that fails, or finds no row, ends the scan at once. *)
Lemma get_all_data_no_count t b w :
  hd 0%nat (query_result (QCount t) w) = 0%nat →
  get_all_data t b w =
    ([], extend [Call (Execute (QCount t)) (query_failed (QCount t) w)
                      (length (query_result (QCount t) w))] w).
Proof.
  intros Hc. unfold get_all_data.
  rewrite (bind_run _ _ _ _ _ (execute_query_run (QCount t) w)).
  destruct (query_result (QCount t) w) as [|n ns]; [done|].
  cbn in Hc. by subst n.
Qed.

Lemma get_all_data_count_raises t b w :
  w_raises w (length (w_trace w)) (Execute (QCount t)) = true →
  get_all_data t b w = ([], extend [Call (Execute (QCount t)) true 0] w).
Proof.
  intros Hr. rewrite get_all_data_no_count; unfold query_result, query_failed;
    by rewrite Hr.
Qed.

End precise_steps.

(** The head of the computation in the goal, run by an equation for it. *)
Ltac run_by E :=
  lazymatch type of E with
  | ?m ?w0 = _ =>
      lazymatch goal with
      | |- context [bind m ?k w0] => rewrite (bind_run _ k w0 _ _ E); tidy
      end
  end.

(** Side conditions on the oracle of a world with a longer trace. *)
Ltac oracle :=
  autorewrite with world;
  first [ done
        | match goal with H : never_raises _ _ |- _ => by apply H end
        | match goal with H : nothing_raises _ |- _ => by apply H end
        | by auto ].

Section failing_passes.
Import SQLServerConnection BigQueryConnection.

(** X5.  A row count that raises is taken for an empty table.  The initial
    load of a tracked table then fetches no batch and starts no load job,
    and still reports success: the target table is created and left empty,
    and the checkpoint is set to the current version of the feed, whatever
    rows the source table holds. *)
Theorem X5_failed_row_count_loads_nothing cfg t w :
  tracked t w = true →
  from_option st_columns [] (src_tables (w_source w) !! t) ≠ [] →
  w_target w !! t = None →
  never_raises w (Execute (QTracked t)) →
  never_raises w (Execute (QSchema t)) →
  never_raises w (CreateTable t) →
  never_raises w (Execute QVersion) →
  (∀ n, w_raises w n (Execute (QCount t)) = true) →
  let r := Replicator.replicate_table cfg t w in
  fst r = true ∧
  (tt_rows <$> w_target (snd r) !! t) = Some [] ∧
  Forall (fun e => is_batch e = false ∧ is_load e = false) (calls_since w (snd r)) ∧
  stored_version t (snd r) = src_version (w_source w).
Proof.
  intros Htr Hcols Hfree Ht Hs Hc Hv Hcount r. subst r.
  destruct (Replicator.replicate_table cfg t w) as [b w'] eqn:Hrun.
  revert Hrun. unfold Replicator.replicate_table.
  step. rewrite Ht, Htr. cbn [negb andb].
  step. rewrite query_schema. autorewrite with world. rewrite Hs.
  destruct (from_option st_columns [] _) as [|c cs] eqn:Hcs; [done|]. cbn [map].
  step. step. rewrite Hfree in Hfound.
  rewrite bool_decide_eq_false_2, andb_false_r in Hfound by (by intros [? ?]).
  subst found. cbn [negb].
  lazymatch goal with
  | |- context [bind (create_table t ?s) _ ?w0] =>
      pose proof (create_table_ok t s w0 ltac:(oracle) ltac:(oracle)) as E
  end.
  run_by E. clear E.
  lazymatch goal with
  | |- context [bind (get_all_data t ?b) _ ?w0] =>
      pose proof (get_all_data_count_raises t b w0 ltac:(oracle)) as E
  end.
  run_by E. clear E. cbn [df_empty forallb].
  step. step. step. leaf. rewrite Hv.
  split; [done|]. split; [by rewrite lookup_insert_eq|]. split.
  - erewrite calls_since_app by (cbn; reflexivity). by repeat constructor.
  - by eapply stored_version_insert.
Qed.

Lemma X5_witness :
  let w := Cases.first_run_of (Scenario.orders Scenario.three_rows) Cases.counts_fail in
  let r := Replicator.replicate_table Scenario.cfg "orders" w in
  fst r = true ∧
  (tt_rows <$> w_target (snd r) !! "orders") = Some [] ∧
  Forall (fun e => is_batch e = false ∧ is_load e = false) (calls_since w (snd r)) ∧
  stored_version "orders" (snd r) = src_version (w_source w).
Proof.
  apply (X5_failed_row_count_loads_nothing Scenario.cfg "orders"
           (Cases.first_run_of (Scenario.orders Scenario.three_rows) Cases.counts_fail)).
  - reflexivity.
  - vm_compute. discriminate.
  - reflexivity.
  - intros n. reflexivity.
  - intros n. reflexivity.
  - intros n. reflexivity.
  - intros n. reflexivity.
  - intros n. reflexivity.
Defined.

Lemma get_changed_data_queries_fail t since w :
  never_raises w (Execute (QTracked t)) →
  never_raises w (Execute QVersion) →
  never_raises w (Execute (QPrimaryKey t)) →
  tracked t w = true →
  pk_of t w ≠ [] →
  (since < src_version (w_source w))%Z →
  (∀ n pks s, w_raises w n (Execute (QChanged t pks s)) = true) →
  (∀ n pks s, w_raises w n (Execute (QDeleted t pks s)) = true) →
  get_changed_data t since w =
    ([], [], src_version (w_source w),
     extend [Call (Execute (QTracked t)) false 1;
             Call (Execute QVersion) false 1;
             Call (Execute (QPrimaryKey t)) false (length (pk_of t w));
             Call (Execute (QChanged t (pk_of t w) since)) true 0;
             Call (Execute (QDeleted t (pk_of t w) since)) true 0] w).
Proof.
  intros Ht Hv Hp Htr Hpk Hlt Hch Hdel.
  pose proof (get_changed_data_run t since w) as H. cbv zeta in H. rewrite H. clear H.
  destruct (query_tracked_ok t w Ht Htr) as [-> ->]. cbn [negb hd length].
  destruct (query_version_ok (extend [Call (Execute (QTracked t)) false 1] w) Hv)
    as [-> ->].
  cbn [hd length]. autorewrite with world.
  destruct (Z.leb_spec (src_version (w_source w)) since); [lia|].
  rewrite query_primary_key. autorewrite with world. rewrite Hp.
  unfold query_failed at 1. autorewrite with world. rewrite Hp. cbn [orb].
  unfold pk_of in *.
  destruct (from_option st_pk [] (src_tables (w_source w) !! t)) as [|pk pks] eqn:Hpks;
    [done|].
  unfold query_result, query_failed. autorewrite with world.
  rewrite Hch, Hdel. cbn [orb length to_dicts map].
  rewrite !extend_extend. cbn [app]. rewrite !Hpks, Hp. cbn [orb length].
  rewrite bool_decide_eq_false_2; [done|].
  cbn [answer]. unfold Sql.primary_key. done.
Qed.

(** X6.  Change queries that raise are taken for an empty change set.  When
    both queries of [get_changed_data] fail on a tracked table with a
    primary key whose feed is ahead of the checkpoint, the call still
    reports the current version of the feed; the pass writes nothing to the
    target, moves the checkpoint to that version and reports success, so
    the changes in between are never fetched. *)
Theorem X6_failed_change_queries_drop_the_changes cfg t w :
  is_Some (w_target w !! t) →
  tracked t w = true →
  from_option st_columns [] (src_tables (w_source w) !! t) ≠ [] →
  pk_of t w ≠ [] →
  never_raises w (Execute (QTracked t)) →
  never_raises w (Execute (QSchema t)) →
  never_raises w (Execute (QPrimaryKey t)) →
  never_raises w (GetTable t) →
  never_raises w (Execute QVersion) →
  (∀ n pks s, w_raises w n (Execute (QChanged t pks s)) = true) →
  (∀ n pks s, w_raises w n (Execute (QDeleted t pks s)) = true) →
  (stored_version t w < src_version (w_source w))%Z →
  src_version (w_source w) ≠ 0%Z →
  let V := src_version (w_source w) in
  let r := Replicator.replicate_table cfg t w in
  fst (get_changed_data t (stored_version t w) w) = ([], [], V) ∧
  fst r = true ∧
  w_target (snd r) = w_target w ∧
  Forall (fun e => target_write e = false) (calls_since w (snd r)) ∧
  stored_version t (snd r) = V.
Proof.
  intros Hex Htr Hcols Hpk Ht Hs Hp Hg Hv Hch Hdel Hlt Hne V r.
  split; [by rewrite get_changed_data_queries_fail|].
  subst r. destruct (Replicator.replicate_table cfg t w) as [b w'] eqn:Hrun.
  revert Hrun. unfold Replicator.replicate_table.
  step. rewrite Ht, Htr. cbn [negb andb].
  step. rewrite query_schema. autorewrite with world. rewrite Hs.
  destruct (from_option st_columns [] _) as [|c cs] eqn:Hcs; [done|]. cbn [map].
  step. step.
  rewrite Hg, (bool_decide_eq_true_2 _ Hex) in Hfound. cbn in Hfound. subst found.
  cbn [negb]. step. rewrite stored_version_extend.
  lazymatch goal with
  | |- context [bind (get_changed_data t ?s) _ ?w0] =>
      pose proof (get_changed_data_queries_fail t s w0 Ht Hv Hp Htr Hpk Hlt Hch Hdel) as E
  end.
  run_by E. clear E. fold V.
  destruct (Z.eqb_spec V 0); [done|]. cbn [df_empty forallb negb].
  step. step. step. leaf.
  repeat split.
  - erewrite calls_since_app by (cbn; reflexivity). by repeat constructor.
  - by eapply stored_version_insert.
Qed.

Lemma X6_witness :
  let w := Cases.catching_up Cases.change_queries_fail in
  let V := src_version (w_source w) in
  let r := Replicator.replicate_table Scenario.cfg "orders" w in
  fst (SQLServerConnection.get_changed_data "orders" (stored_version "orders" w) w)
    = ([], [], V) ∧
  fst r = true ∧
  w_target (snd r) = w_target w ∧
  Forall (fun e => target_write e = false) (calls_since w (snd r)) ∧
  stored_version "orders" (snd r) = V.
Proof.
  apply (X6_failed_change_queries_drop_the_changes Scenario.cfg "orders"
           (Cases.catching_up Cases.change_queries_fail)).
  - vm_compute. eexists. reflexivity.
  - reflexivity.
  - vm_compute. discriminate.
  - vm_compute. discriminate.
  - intros n. reflexivity.
  - intros n. reflexivity.
  - intros n. reflexivity.
  - intros n. reflexivity.
  - intros n. reflexivity.
  - intros n pks s. reflexivity.
  - intros n pks s. reflexivity.
  - vm_compute. reflexivity.
  - vm_compute. discriminate.
Defined.

(** X7.  A pass over a table that is unknown to the source, or not
    tracked, or whose tracking or schema query fails, or that has no
    column, stops after one or two queries and reports failure.  Nothing
    else has happened: the target, the state and the state file are as
    before, and no call was made to the warehouse. *)
Theorem X7_pass_without_tracking_or_schema_stops cfg t w :
  tracked t w = false ∨
  from_option st_columns [] (src_tables (w_source w) !! t) = [] ∨
  w_raises w (length (w_trace w)) (Execute (QTracked t)) = true ∨
  w_raises w (S (length (w_trace w))) (Execute (QSchema t)) = true →
  ∃ tr,
    Replicator.replicate_table cfg t w = (false, extend tr w) ∧
    Forall (fun e => is_query e = true) tr ∧
    (1 ≤ length tr ≤ 2)%nat.
Proof.
  intros H.
  destruct (Replicator.replicate_table cfg t w) as [b w'] eqn:Hrun.
  revert Hrun. unfold Replicator.replicate_table.
  step. destruct (negb _) eqn:Hcheck.
  { leaf. eexists. split; [reflexivity|]. split; [by repeat constructor|cbn; lia]. }
  apply negb_false_iff, andb_true_iff in Hcheck as [Hr Htr].
  apply negb_true_iff in Hr.
  step. rewrite query_schema. autorewrite with world.
  rewrite length_app, Nat.add_1_r. cbn [length].
  destruct H as [H|[H|[H|H]]]; [congruence| |congruence|]; rewrite H.
  - destruct (w_raises w (S (length (w_trace w))) (Execute (QSchema t)));
      cbn [map]; leaf;
      (eexists; split; [reflexivity|]; split; [by repeat constructor|cbn; lia]).
  - cbn [map]. leaf. eexists. split; [reflexivity|].
    split; [by repeat constructor|cbn; lia].
Qed.

Lemma X7_witness :
  let w := Scenario.first_run in
  ∃ tr,
    Replicator.replicate_table Scenario.cfg "customers" w = (false, extend tr w) ∧
    Forall (fun e => is_query e = true) tr ∧
    (1 ≤ length tr ≤ 2)%nat.
Proof.
  apply (X7_pass_without_tracking_or_schema_stops Scenario.cfg "customers"
           Scenario.first_run).
  left. reflexivity.
Defined.

(** X8.  [table_exists] answers [False] when the lookup raises.  A pass
    over a table that is in the warehouse while its lookup raises goes on
    to [create_table], which fails on the existing table: the pass reports
    failure and the target, the state and the state file stay as they
    were. *)
Theorem X8_lookup_failure_on_an_existing_table_changes_nothing cfg t w :
  is_Some (w_target w !! t) →
  (∀ n, w_raises w n (GetTable t) = true) →
  let r := Replicator.replicate_table cfg t w in
  fst r = false ∧
  w_target (snd r) = w_target w ∧
  w_state (snd r) = w_state w ∧
  w_file (snd r) = w_file w ∧
  Forall (fun e => is_load e = false) (calls_since w (snd r)).
Proof.
  intros Hex Hg r. subst r.
  destruct (Replicator.replicate_table cfg t w) as [b w'] eqn:Hrun.
  revert Hrun. unfold Replicator.replicate_table.
  step. destruct (negb _).
  { leaf. repeat split. erewrite calls_since_app by (cbn; reflexivity).
    by repeat constructor. }
  step. destruct (map column_of _) as [|c cs].
  { leaf. repeat split. erewrite calls_since_app by (cbn; reflexivity).
    by repeat constructor. }
  step. step. rewrite Hg in Hfound. cbn in Hfound. subst found. cbn [negb].
  step.
  - leaf. repeat split. erewrite calls_since_app by (cbn; reflexivity).
    by repeat constructor.
  - destruct Hex as [tb Htb]. congruence.
Qed.

Lemma X8_witness :
  let w := Cases.catching_up Cases.lookups_fail in
  let r := Replicator.replicate_table Scenario.cfg "orders" w in
  fst r = false ∧
  w_target (snd r) = w_target w ∧
  w_state (snd r) = w_state w ∧
  w_file (snd r) = w_file w ∧
  Forall (fun e => is_load e = false) (calls_since w (snd r)).
Proof.
  apply (X8_lookup_failure_on_an_existing_table_changes_nothing Scenario.cfg "orders"
           (Cases.catching_up Cases.lookups_fail)).
  - vm_compute. eexists. reflexivity.
  - intros n. reflexivity.
Defined.

End failing_passes.

(** ** The order of writes *)

Section write_order.
Import SQLServerConnection BigQueryConnection.

Lemma queries_are_no_writes tr :
  Forall (fun e => is_query e = true) tr →
  Forall (fun e => is_state_write e = false ∧ target_write e = false) tr.
Proof.
  intros H. eapply Forall_impl; [exact H|]. by intros [[] ? ?].
Qed.

Lemma extend_inj tr tr' w : extend tr w = extend tr' w → tr = tr'.
Proof.
  intros H. apply (f_equal w_trace) in H. cbn in H. by apply app_inv_head in H.
Qed.

(** [get_changed_data] sends queries and does nothing else. *)
Lemma get_changed_data_queries t since w :
  ∃ tr, snd (get_changed_data t since w) = extend tr w ∧
        Forall (fun e => is_query e = true) tr.
Proof.
  pose proof (get_changed_data_run t since w) as H. cbv zeta in H. rewrite H.
  repeat case_match; simpl; repeat rewrite extend_extend; simpl;
    eexists; (split; [reflexivity|]); repeat constructor.
Qed.

Ltac order_solve :=
  leaf; erewrite calls_since_app by (cbn; reflexivity);
  split; intros ?; try done;
  repeat first
    [ by apply Forall_nil
    | apply Forall_cons; split; [by cbn|]
    | apply Forall_app; split
    | match goal with
      | H : Forall (fun e => is_state_write e = false ∧ target_write e = false) ?tr
        |- Forall _ ?tr =>
          eapply Forall_impl; [exact H|]; cbn; intros ? [? ?]; (done || congruence)
      end ].

(** X9.  The checkpoint comes last.  A pass that reports failure has not
    written the state file.  A pass that reports success has made no call
    to the warehouse that raised: every table creation, load job and
    delete job it started went through before the checkpoint was
    written. *)
Theorem X9_checkpoint_follows_the_writes cfg t w :
  let r := Replicator.replicate_table cfg t w in
  (fst r = false →
   Forall (fun e => is_state_write e = false) (calls_since w (snd r))) ∧
  (fst r = true →
   Forall (fun e => target_write e = true → has_raised e = false)
          (calls_since w (snd r))).
Proof.
  cbv zeta. destruct (Replicator.replicate_table cfg t w) as [b w'] eqn:Hrun.
  revert Hrun. unfold Replicator.replicate_table.
  step. destruct (negb _); [order_solve|].
  step. destruct (map column_of _) as [|c cs]; [order_solve|].
  step. step. destruct found; cbn [negb].
  - step.
    lazymatch goal with
    | |- context [bind (get_changed_data t ?s) _ ?w0] =>
        destruct (get_changed_data_queries t s w0) as (tr & Htr & Hq)
    end.
    step. cbn [snd] in Htr. apply extend_inj in Htr. subst tr.
    apply queries_are_no_writes in Hq.
    destruct (_ =? _)%Z; [order_solve|].
    destruct (df_empty changed_df) eqn:Hd; cbn [negb]; step; try solve [order_solve].
    all: destruct (df_empty deleted_df) eqn:Hd0; cbn [negb]; step;
      try solve [order_solve].
    all: step; order_solve.
  - step; [order_solve|]. step. apply queries_are_no_writes in Hscan.
    destruct (df_empty df) eqn:Hdf; step; try solve [order_solve].
    all: step; step; order_solve.
Qed.

End write_order.

(** ** What a run leaves alone *)

Section frame.
Import SQLServerConnection BigQueryConnection.

Lemma keeps_tables_refl tg : keeps_tables tg tg.
Proof. intros t tb Htb. by exists tb. Qed.


(** A table that is not there is added. *)
Lemma keeps_tables_new tg t tb :
  tg !! t = None → keeps_tables tg (<[t := tb]> tg).
Proof.
  intros Hfree t' tb' Htb'. exists tb'. split; [|done].
  rewrite lookup_insert_ne; [done|]. congruence.
Qed.

(** A table is replaced by one of the same layout. *)
Lemma keeps_tables_update tg t tb tb' :
  tg !! t = Some tb → same_layout tb tb' → keeps_tables tg (<[t := tb']> tg).
Proof.
  intros Htb Hl t0 tb0 Htb0. destruct (decide (t0 = t)) as [->|Hne].
  - rewrite lookup_insert_eq. exists tb'. split; [done|]. congruence.
  - rewrite lookup_insert_ne by done. by exists tb0.
Qed.

(** The frame of deleted keys that [get_changed_data] builds from a source
    with plain keys is a plain frame. *)
Lemma plain_frame_to_dicts pks rows :
  Forall (fun pk => identifier pk = true) pks →
  Forall (fun key : tuple => Forall (fun v => plain v = true) key) rows →
  plain_frame (to_dicts pks rows) = true.
Proof.
  intros Hpks Hrows. unfold plain_frame, to_dicts.
  apply forallb_forall. intros d Hd. apply in_map_iff in Hd as (key & <- & Hkey).
  rewrite Forall_forall in Hrows. specialize (Hrows key ltac:(by apply list_elem_of_In)).
  clear Hkey. revert key Hrows.
  induction Hpks as [|pk pks Hpk _ IH]; intros key Hkey; [done|].
  destruct Hkey as [|v key Hv Hkey]; [done|].
  cbn. rewrite Hpk, Hv. by apply IH.
Qed.

Lemma query_primary_key_identifiers t w :
  plain_keys (w_source w) →
  Forall (fun pk => identifier pk = true) (query_result (QPrimaryKey t) w).
Proof.
  intros Hplain. rewrite query_primary_key.
  destruct (w_raises w _ _); [by apply Forall_nil|].
  unfold pk_of. destruct (src_tables (w_source w) !! t) as [tb|] eqn:Htb;
    [|by apply Forall_nil].
  by destruct (Hplain t tb Htb).
Qed.

Lemma query_deleted_plain t pks since w :
  plain_keys (w_source w) →
  Forall (fun key : tuple => Forall (fun v => plain v = true) key)
         (query_result (QDeleted t pks since) w).
Proof.
  intros Hplain. unfold query_result.
  destruct (w_raises w _ _); [by apply Forall_nil|].
  cbn [answer]. unfold Sql.deleted.
  destruct (src_tables (w_source w) !! t) as [tb|] eqn:Htb; [|by apply Forall_nil].
  cbn [mbind option_bind].
  destruct (negb (st_tracked tb)); [by apply Forall_nil|].
  destruct (negb (forallb _ _)); [by apply Forall_nil|].
  cbn [default]. destruct (Hplain t tb Htb) as [_ Hkeys].
  apply Forall_forall. intros key Hkey.
  change (key ∈ ch_key <$> filter (fun c => ch_op c = Deleted) (Sql.changetable tb since))
    in Hkey.
  apply list_elem_of_fmap in Hkey as (c & -> & Hc).
  apply list_elem_of_filter in Hc as [_ Hc]. unfold Sql.changetable in Hc.
  apply list_elem_of_filter in Hc as [_ Hc].
  rewrite Forall_forall in Hkeys. by apply Hkeys.
Qed.

Lemma get_changed_data_plain t since w :
  plain_keys (w_source w) →
  plain_frame (snd (fst (fst (get_changed_data t since w)))) = true.
Proof.
  intros Hplain.
  pose proof (get_changed_data_run t since w) as H. cbv zeta in H. rewrite H. clear H.
  destruct (negb _); [done|]. destruct (_ <=? _)%Z; [done|].
  destruct (query_result (QPrimaryKey t) _) as [|pk pks] eqn:Hpks; [done|].
  cbn [fst snd]. apply plain_frame_to_dicts.
  - rewrite <- Hpks. by apply query_primary_key_identifiers.
  - by apply query_deleted_plain.
Qed.

(** A source that holds one table. *)
Lemma plain_keys_source tb v :
  Forall (fun pk => identifier pk = true) (st_pk tb) →
  Forall (fun c => Forall (fun v => plain v = true) (ch_key c)) (st_changes tb) →
  plain_keys (Scenario.source tb v).
Proof.
  intros Hpk Hch t tb' Htb'. cbn in Htb'.
  apply lookup_singleton_Some in Htb' as [_ <-]. done.
Qed.

(** The head of the computation in the goal is [get_changed_data]: its
    result is named, and the frame of its deleted keys is plain. *)
Ltac step_changes Hplain :=
  lazymatch goal with
  | |- context [bind (get_changed_data ?t ?s) _ ?w0] =>
      let H := fresh "Hkeys" in
      pose proof (get_changed_data_plain t s w0 Hplain) as H;
      step; cbn [fst snd] in H
  end.

(** The head of the computation in the goal is a delete job whose
    statement is the one meant. *)
Ltac step_delete :=
  lazymatch goal with
  | |- context [bind (delete_rows ?t0 ?df) ?k ?w0] =>
      let E := fresh "E" in let tb := fresh "tb" in
      let Htb := fresh "Htb" in let Hr := fresh "Hr" in
      destruct (delete_rows_cases t0 df w0 ltac:(assumption) ltac:(assumption)
                  ltac:(assumption))
        as [E|(tb & Htb & Hr & E)]; step_by E k w0
  end.

Ltac frame_solve :=
  leaf; split; [done|]; split; [done|]; split;
  [ intros ? ?; by rewrite ?lookup_insert_ne by done
  | first [ apply keeps_tables_refl
          | by apply keeps_tables_new
          | by eapply keeps_tables_update ] ].

(** A pass reads the source and writes to its own table of the warehouse:
    the source, the oracle and the other tables are as before, and no table
    is dropped or laid out anew.  This takes a delete statement that is the
    one meant. *)
Lemma replicate_table_frame cfg t w :
  plain_keys (w_source w) →
  quotable t = true →
  let w' := snd (Replicator.replicate_table cfg t w) in
  w_source w' = w_source w ∧
  w_raises w' = w_raises w ∧
  (∀ t', t' ≠ t → w_target w' !! t' = w_target w !! t') ∧
  keeps_tables (w_target w) (w_target w').
Proof.
  intros Hplain Hq.
  cbv zeta. destruct (Replicator.replicate_table cfg t w) as [b w'] eqn:Hrun.
  revert Hrun. unfold Replicator.replicate_table.
  step. destruct (negb _); [frame_solve|].
  step. destruct (map column_of _) as [|c cs]; [frame_solve|].
  step. step. destruct found; cbn [negb].
  - step. step_changes Hplain. destruct (_ =? _)%Z; [frame_solve|].
    destruct (df_empty changed_df) eqn:Hd; cbn [negb]; step; try solve [frame_solve].
    destruct (df_empty deleted_df) eqn:Hd0; cbn [negb].
    + step. step. frame_solve.
    + step_delete; [frame_solve|]. step. frame_solve.
  - step; [frame_solve|]. step.
    destruct (df_empty df) eqn:Hdf; step; try solve [frame_solve].
    step. step. frame_solve.
Qed.


(** Start-up reads the state file at most. *)
Lemma init_run w :
  ∃ st tr, StateManager.init w = (tt, with_state st (extend tr w)) ∧
           Forall (fun e => is_query e = false ∧ target_write e = false) tr.
Proof.
  unfold StateManager.init, StateManager._load_state, bind, gets, raises, log, modify, ret.
  destruct (w_file w); [exists ∅, []; by rewrite extend_nil|..];
    destruct (w_raises w _ _); do 2 eexists; (split; [reflexivity|]);
    by repeat constructor.
Qed.

(** What [main] does before the first table: it gives up at once, or reads
    the state file and makes the connections, which touch neither the source
    nor a table of the warehouse; then it gives up or goes through the
    tables. *)
Lemma main_cases cfg w :
  main cfg w = (1%Z, w) ∨
  ∃ st ds tr,
    let w2 := extend tr (with_dataset ds (with_state st w)) in
    Forall (fun e => is_query e = false ∧ target_write e = false) tr ∧
    (main cfg w = (1%Z, w2) ∨
     main cfg w = ((if fst (Replicator.replicate_all_tables cfg w2) then 0 else 1)%Z,
                   snd (Replicator.replicate_all_tables cfg w2))).
Proof.
  unfold main.
  destruct (_ || _); [by left|]. destruct (_ || _); [by left|].
  destruct (TABLES_TO_REPLICATE cfg) as [|t0 ts] eqn:Hts; [by left|]. right.
  unfold Replicator.init.
  destruct (init_run w) as (st & tr & Hinit & Htr).
  rewrite (bind_run _ _ _ _ _ Hinit).
  destruct (initialize_step (with_state st (extend tr w)))
    as (tr' & ds & Hrun & Htr' & _).
  rewrite (bind_run _ _ _ _ _ Hrun).
  exists st, ds, (tr ++ Call SqlConnect
                     (w_raises w (length (w_trace w ++ tr)) SqlConnect) 0
                   :: Call BqConnect
                        (w_raises w (S (length (w_trace w ++ tr))) BqConnect) 0
                   :: tr').
  cbv zeta. autorewrite with world.
  rewrite with_state_extend, with_dataset_extend, extend_extend.
  split.
  { apply Forall_app. split; [done|]. do 2 (constructor; [done|]).
    eapply Forall_impl; [exact Htr'|]. by intros [[] ? ?]. }
  destruct (negb _ && negb _); cbn [negb]; [right|by left].
  rewrite bind_eta. unfold Replicator.close, SQLServerConnection.close,
    BigQueryConnection.close.
  by cbn [bind ret fst snd].
Qed.



(** The hypothesis on the keys is needed: a key value with a quote in it
    gives a statement that is not the one meant, and what that does is not
    confined to the table of the pass. *)
Example unescaped_key_reaches_another_table :
  let feed :=
    {| st_tracked := true;
       st_columns := [Scenario.column "id" "varchar"];
       st_pk := ["id"];
       st_rows := [];
       st_changes := [ {| ch_version := 51; ch_op := Deleted;
                          ch_key := [VStr "x' OR 'a' = 'a"] |} ] |} in
  let w := Scenario.running (Scenario.source feed 55)
             {[ "orders" := Cases.replica; "invoices" := Cases.replica ]}
             (Scenario.checkpoint 50) Scenario.healthy in
  let r := Replicator.replicate_table Scenario.cfg "orders" w in
  plain_frame [[("id", VStr "x' OR 'a' = 'a")]] = false ∧
  fst r = true ∧
  last (calls_since w (snd r)) = Some (Call WriteState false 0) ∧
  w_target (snd r) = w_garbled w 9 ∧
  w_target (snd r) !! "invoices" = None.
Proof. vm_compute. repeat split; reflexivity. Qed.

Lemma no_row_added_refl tg : no_row_added tg tg.
Proof. intros t tb' Htb'. by rewrite Htb'. Qed.

Lemma no_row_added_trans tg1 tg2 tg3 :
  no_row_added tg1 tg2 → no_row_added tg2 tg3 → no_row_added tg1 tg3.
Proof.
  intros H12 H23 t tb3 Htb3. specialize (H23 t tb3 Htb3).
  destruct (tg2 !! t) as [tb2|] eqn:Htb2.
  - specialize (H12 t tb2 Htb2). destruct (tg1 !! t) as [tb1|].
    + by etrans.
    + rewrite H12 in H23. by apply sublist_nil_r.
  - destruct (tg1 !! t) as [tb1|]; [|done]. rewrite H23. apply sublist_nil_l.
Qed.

Lemma no_row_added_new tg t tb :
  tg !! t = None → tt_rows tb = [] → no_row_added tg (<[t := tb]> tg).
Proof.
  intros Hfree Hrows t' tb'. destruct (decide (t' = t)) as [->|Hne].
  - rewrite lookup_insert_eq, Hfree. by intros [= <-].
  - rewrite lookup_insert_ne by done. intros Htb'. by rewrite Htb'.
Qed.

Lemma no_row_added_filter tg t tb tb' (P : rowdict → Prop) `{∀ r, Decision (P r)} :
  tg !! t = Some tb → tt_rows tb' = filter P (tt_rows tb) →
  no_row_added tg (<[t := tb']> tg).
Proof.
  intros Htb Hrows t0 tb0. destruct (decide (t0 = t)) as [->|Hne].
  - rewrite lookup_insert_eq, Htb. intros [= <-]. rewrite Hrows.
    apply sublist_filter.
  - rewrite lookup_insert_ne by done. intros Htb0. by rewrite Htb0.
Qed.

Lemma replicate_table_adds_no_row cfg t w :
  plain_keys (w_source w) →
  quotable t = true →
  no_row_added (w_target w) (w_target (snd (Replicator.replicate_table cfg t w))).
Proof.
  intros Hplain Hq.
  destruct (Replicator.replicate_table cfg t w) as [b w'] eqn:Hrun.
  revert Hrun. unfold Replicator.replicate_table.
  step. destruct (negb _); [leaf; apply no_row_added_refl|].
  step. destruct (map column_of _) as [|c cs]; [leaf; apply no_row_added_refl|].
  step. step. destruct found; cbn [negb].
  - step. step_changes Hplain. destruct (_ =? _)%Z; [leaf; apply no_row_added_refl|].
    destruct (df_empty changed_df) eqn:Hd; cbn [negb]; step;
      [|leaf; apply no_row_added_refl].
    destruct (df_empty deleted_df) eqn:Hd0; cbn [negb].
    { step. step. leaf. apply no_row_added_refl. }
    step_delete.
    + leaf. apply no_row_added_refl.
    + step. leaf. by eapply no_row_added_filter.
  - step; [leaf; apply no_row_added_refl|]. step.
    destruct (df_empty df) eqn:Hdf; step.
    + step. step. leaf. by apply no_row_added_new.
    + leaf. by apply no_row_added_new.
Qed.

Lemma replicate_tables_add_no_row cfg ts : ∀ success w,
  plain_keys (w_source w) →
  Forall (fun t => quotable (Py.strip t) = true) ts →
  no_row_added (w_target w)
    (w_target (snd (Replicator.replicate_tables cfg ts success w))).
Proof.
  induction ts as [|t0 ts IH]; intros success w Hplain Hts;
    cbn [Replicator.replicate_tables]; [apply no_row_added_refl|].
  apply Forall_cons in Hts as [Hq Hts].
  cbv zeta. destruct (String.eqb _ _); [by apply IH|].
  rewrite bind_eta.
  destruct (replicate_table_frame cfg (Py.strip t0) w Hplain Hq) as (Hs & _).
  eapply no_row_added_trans; [by apply replicate_table_adds_no_row|].
  apply IH; [by rewrite Hs|done].
Qed.

(** X11.  As the repository stands no run adds a row to the warehouse: the
    module that builds the load job uses the name [io] without binding it,
    so every load of a frame that is not empty fails before a job is sent.
    When the deletes can be written into their statement as they are, every
    table that was there holds some of its former rows at most after a run,
    and a table the run has created is empty, whichever calls raise. *)
Theorem X11_no_run_adds_a_row cfg w :
  plain_keys (w_source w) →
  quotable_names cfg →
  no_row_added (w_target w) (w_target (snd (main cfg w))).
Proof.
  intros Hplain Hnames.
  destruct (main_cases cfg w) as [->|(st & ds & tr & _ & [->| ->])];
    [apply no_row_added_refl..|].
  cbn [snd]. unfold Replicator.replicate_all_tables.
  match goal with |- context [Replicator.replicate_tables cfg ?l true ?w0] =>
    pose proof (replicate_tables_add_no_row cfg l true w0) as H
  end.
  autorewrite with world in H. by apply H.
Qed.

Lemma X11_witness :
  let w := Cases.catching_up Scenario.healthy in
  no_row_added (w_target w) (w_target (snd (main Scenario.cfg w))).
Proof.
  apply (X11_no_run_adds_a_row Scenario.cfg (Cases.catching_up Scenario.healthy)).
  - apply plain_keys_source; repeat constructor.
  - repeat constructor.
Defined.

End frame.

(** ** The run as a whole *)

Section run.
Import SQLServerConnection BigQueryConnection.

Ltac trace_solve := leaf; eexists; reflexivity.

(** The calls of a pass are added to the trace. *)
Lemma replicate_table_trace cfg t w :
  ∃ tr, w_trace (snd (Replicator.replicate_table cfg t w)) = w_trace w ++ tr.
Proof.
  destruct (Replicator.replicate_table cfg t w) as [b w'] eqn:Hrun.
  revert Hrun. unfold Replicator.replicate_table.
  step. destruct (negb _); [trace_solve|].
  step. destruct (map column_of _) as [|c cs]; [trace_solve|].
  step. step. destruct found; cbn [negb].
  - step. step. destruct (_ =? _)%Z; [trace_solve|].
    destruct (df_empty changed_df) eqn:Hd; cbn [negb]; step; try solve [trace_solve].
    all: destruct (df_empty deleted_df) eqn:Hd0; cbn [negb]; step;
      try solve [trace_solve].
    all: step; trace_solve.
  - step; [trace_solve|]. step.
    destruct (df_empty df) eqn:Hdf; step; try solve [trace_solve].
    all: step; step; trace_solve.
Qed.

Lemma replicate_tables_trace cfg ts : ∀ success w,
  ∃ tr, w_trace (snd (Replicator.replicate_tables cfg ts success w)) = w_trace w ++ tr.
Proof.
  induction ts as [|t0 ts IH]; intros success w; cbn [Replicator.replicate_tables].
  { exists []. by rewrite app_nil_r. }
  cbv zeta. destruct (String.eqb _ _); [apply IH|].
  rewrite bind_eta.
  destruct (replicate_table_trace cfg (Py.strip t0) w) as (tr1 & H1).
  destruct (IH (if fst (Replicator.replicate_table cfg (Py.strip t0) w)
                then success else false)
               (snd (Replicator.replicate_table cfg (Py.strip t0) w))) as (tr2 & H2).
  exists (tr1 ++ tr2). by rewrite H2, H1, app_assoc.
Qed.

Lemma config_complete_guards cfg :
  config_complete cfg =
    negb (negb (Py.truthy (SQL_SERVER cfg)) || negb (Py.truthy (SQL_DATABASE cfg)))
    && negb (negb (Py.truthy (BQ_PROJECT_ID cfg)) || negb (Py.truthy (BQ_DATASET cfg))).
Proof.
  unfold config_complete.
  by destruct (Py.truthy (SQL_SERVER cfg)), (Py.truthy (SQL_DATABASE cfg)),
    (Py.truthy (BQ_PROJECT_ID cfg)), (Py.truthy (BQ_DATASET cfg)).
Qed.

(** [main] with its configuration in order. *)
Lemma main_run cfg w :
  config_complete cfg = true →
  let w1 := snd (StateManager.init w) in
  let sql_raised := w_raises w1 (length (w_trace w1)) SqlConnect in
  let bq_raised := w_raises w1 (S (length (w_trace w1))) BqConnect in
  let w2 := snd (Replicator.initialize w1) in
  main cfg w =
    if sql_raised || bq_raised then (1%Z, w2)
    else ((if fst (Replicator.replicate_all_tables cfg w2) then 0 else 1)%Z,
          snd (Replicator.replicate_all_tables cfg w2)).
Proof.
  intros Hcfg. rewrite config_complete_guards in Hcfg.
  apply andb_true_iff in Hcfg as [H1%negb_true_iff H2%negb_true_iff].
  cbv zeta. unfold main. rewrite H1, H2.
  pose proof (TABLES_TO_REPLICATE_nonempty cfg) as Hne.
  destruct (TABLES_TO_REPLICATE cfg) as [|t0 ts] eqn:Hts; [done|].
  unfold Replicator.init.
  destruct (StateManager.init w) as [[] w1] eqn:Hinit.
  rewrite (bind_run _ _ _ _ _ Hinit). cbn [snd].
  destruct (Replicator.initialize w1) as [b w2] eqn:Hi.
  rewrite (bind_run _ _ _ _ _ Hi). cbn [snd].
  pose proof (initialize_run w1) as Hr. cbv zeta in Hr. rewrite Hi in Hr.
  apply pair_equal_spec in Hr as [-> _].
  destruct (w_raises w1 (length (w_trace w1)) SqlConnect);
    [by destruct (w_raises w1 _ _)|].
  destruct (w_raises w1 (S (length (w_trace w1))) BqConnect); [done|].
  cbn [negb andb orb]. rewrite bind_eta.
  unfold Replicator.close, SQLServerConnection.close, BigQueryConnection.close.
  by cbn [bind ret fst snd].
Qed.

(** X12.  [main] checks its configuration before it does anything: when one
    of the four identifiers of the source and the warehouse is unset or
    empty it exits with code 1 and has made no call, not even read the
    state file.  With the four identifiers set it always goes on to the
    connections, so an untouched trace is the mark of a missing
    identifier. *)
Theorem X12_incomplete_configuration_makes_no_call cfg w :
  (config_complete cfg = false → main cfg w = (1%Z, w)) ∧
  (w_trace (snd (main cfg w)) = w_trace w ↔ config_complete cfg = false).
Proof.
  assert (config_complete cfg = false → main cfg w = (1%Z, w)) as Hstop.
  { rewrite config_complete_guards. intros H. unfold main.
    destruct (negb _ || negb _); [done|]. cbn [negb andb] in H.
    by destruct (negb _ || negb _). }
  split; [done|]. split; [|by intros ->%Hstop].
  destruct (config_complete cfg) eqn:Hcfg; [|done].
  intros Htrace. exfalso.
  pose proof (main_run cfg w Hcfg) as Hrun. cbv zeta in Hrun.
  destruct (init_run w) as (st & tr & Hinit & _). rewrite Hinit in Hrun.
  cbn [snd] in Hrun.
  destruct (initialize_step (with_state st (extend tr w)))
    as (tr0 & ds & Hconn & _ & _).
  rewrite Hconn in Hrun. cbn [snd] in Hrun. autorewrite with world in Hrun.
  rewrite Hrun in Htrace. clear Hrun.
  destruct (_ || _).
  - cbn in Htrace. apply (f_equal length) in Htrace.
    rewrite !length_app in Htrace. cbn in Htrace. lia.
  - cbn [snd] in Htrace. unfold Replicator.replicate_all_tables in Htrace.
    match type of Htrace with
    | context [Replicator.replicate_tables cfg ?l true ?w0] =>
        destruct (replicate_tables_trace cfg l true w0) as (tr' & Htr')
    end.
    rewrite Htr' in Htrace. cbn in Htrace. apply (f_equal length) in Htrace.
    rewrite !length_app in Htrace. cbn in Htrace. lia.
Qed.

(** X13.  With the configuration in order, [main] reads the state file and
    attempts both connections, the second also when the first has failed.
    When either fails it exits with code 1: no query has been sent, no
    table of the warehouse has been touched, and the state file is as it
    was.  The dataset is another matter: when the client of the warehouse
    was built, the run has looked the dataset up before it stops, and has
    created it when the lookup raised and the creation did not. *)
Theorem X13_failed_connection_stops_the_run cfg w :
  config_complete cfg = true →
  let w1 := snd (StateManager.init w) in
  let sql_raised := w_raises w1 (length (w_trace w1)) SqlConnect in
  let bq_raised := w_raises w1 (S (length (w_trace w1))) BqConnect in
  let w2 := extend [Call SqlConnect sql_raised 0; Call BqConnect bq_raised 0] w1 in
  sql_raised || bq_raised = true →
  main cfg w = (1%Z, if bq_raised then w2 else snd (_ensure_dataset_exists w2)) ∧
  w_target (snd (main cfg w)) = w_target w ∧
  w_file (snd (main cfg w)) = w_file w ∧
  Forall (fun e => is_query e = false ∧ target_write e = false)
         (calls_since w (snd (main cfg w))) ∧
  (bq_raised = true → w_dataset (snd (main cfg w)) = w_dataset w) ∧
  (bq_raised = false →
   let lookup_raised := w_raises w2 (length (w_trace w2)) GetDataset in
   let create_raised := w_raises w2 (S (length (w_trace w2))) CreateDataset in
   w_dataset (snd (main cfg w)) =
     w_dataset w || ((lookup_raised || negb (w_dataset w)) && negb create_raised)).
Proof.
  intros Hcfg w1 sql_raised bq_raised w2 Hfail.
  pose proof (main_run cfg w Hcfg) as Hrun. cbv zeta in Hrun.
  fold w1 sql_raised bq_raised in Hrun. rewrite Hfail in Hrun.
  rewrite (initialize_run w1) in Hrun. cbn [snd] in Hrun.
  fold sql_raised bq_raised w2 in Hrun.
  split; [done|]. rewrite Hrun. cbn [snd]. clear Hrun.
  destruct (init_run w) as (st & tr & Hinit & Htr).
  assert (w1 = with_state st (extend tr w)) as Hw1 by (subst w1; by rewrite Hinit).
  destruct bq_raised eqn:Hbq.
  - subst w2. rewrite Hw1. autorewrite with world. repeat split; [|done].
    erewrite calls_since_app by (cbn; rewrite <- app_assoc; reflexivity).
    apply Forall_app. split; [done|]. by repeat constructor.
  - destruct (_ensure_dataset_exists_step w2) as (tr' & ds & Hrun & Htr').
    pose proof (_ensure_dataset_exists_run w2) as Hds. cbv zeta in Hds.
    assert (w_dataset w2 = w_dataset w) as Hsame
      by (subst w2; rewrite Hw1; by autorewrite with world).
    split; [|split; [|split; [|split; [done|]]]].
    + rewrite Hrun. cbn [snd]. subst w2. rewrite Hw1. by autorewrite with world.
    + rewrite Hrun. cbn [snd]. subst w2. rewrite Hw1. by autorewrite with world.
    + rewrite Hrun. cbn [snd]. subst w2. rewrite Hw1.
      erewrite calls_since_app
        by (autorewrite with world; rewrite <- !app_assoc; reflexivity).
      apply Forall_app. split; [done|]. cbn [app]. do 2 (constructor; [done|]).
      eapply Forall_impl; [exact Htr'|]. by intros [[] ? ?].
    + intros _. cbv zeta. rewrite Hds, <- Hsame. cbn [snd].
      destruct (w_raises w2 (length (w_trace w2)) GetDataset),
        (w_raises w2 (S (length (w_trace w2))) CreateDataset),
        (w_dataset w2) eqn:Hd; cbn; autorewrite with world; by rewrite ?Hd.
Qed.

Lemma X13_witness :
  let cfg := Scenario.cfg in
  let w := Cases.before_the_dataset in
  let w1 := snd (StateManager.init w) in
  let sql_raised := w_raises w1 (length (w_trace w1)) SqlConnect in
  let bq_raised := w_raises w1 (S (length (w_trace w1))) BqConnect in
  let w2 := extend [Call SqlConnect sql_raised 0; Call BqConnect bq_raised 0] w1 in
  main cfg w =
    (1%Z, if bq_raised then w2
          else snd (BigQueryConnection._ensure_dataset_exists w2)) ∧
  w_target (snd (main cfg w)) = w_target w ∧
  w_file (snd (main cfg w)) = w_file w ∧
  Forall (fun e => is_query e = false ∧ target_write e = false)
         (calls_since w (snd (main cfg w))) ∧
  (bq_raised = true → w_dataset (snd (main cfg w)) = w_dataset w) ∧
  (bq_raised = false →
   let lookup_raised := w_raises w2 (length (w_trace w2)) GetDataset in
   let create_raised := w_raises w2 (S (length (w_trace w2))) CreateDataset in
   w_dataset (snd (main cfg w)) =
     w_dataset w || ((lookup_raised || negb (w_dataset w)) && negb create_raised)).
Proof.
  apply (X13_failed_connection_stops_the_run Scenario.cfg Cases.before_the_dataset);
    reflexivity.
Defined.

(** The run of a process that cannot reach the source, in a project whose
    dataset is not there yet: it exits with code 1, and the dataset has
    been created. *)
Example dataset_is_created_before_the_run_stops :
  let r := main Scenario.cfg Cases.before_the_dataset in
  fst r = 1%Z ∧
  w_trace (snd r) =
    [Call SqlConnect true 0; Call BqConnect false 0;
     Call GetDataset true 0; Call CreateDataset false 0] ∧
  w_dataset Cases.before_the_dataset = false ∧
  w_dataset (snd r) = true.
Proof. vm_compute. repeat split; reflexivity. Qed.

(** X14.  A table that fails does not stop the run or change what is done
    for the tables after it: the worlds in which [replicate_tables] ends
    are the same whether or not a failure has been recorded, and the result
    is the conjunction of the flag it is given and the result of the run
    started without a failure. *)
Theorem X14_failure_does_not_stop_later_tables cfg ts success w :
  snd (Replicator.replicate_tables cfg ts success w)
    = snd (Replicator.replicate_tables cfg ts true w) ∧
  fst (Replicator.replicate_tables cfg ts success w)
    = success && fst (Replicator.replicate_tables cfg ts true w).
Proof.
  revert success w. induction ts as [|t0 ts IH]; intros success w;
    cbn [Replicator.replicate_tables].
  { cbn. by rewrite andb_true_r. }
  cbv zeta. destruct (String.eqb _ _); [apply IH|].
  rewrite !bind_eta.
  set (r := Replicator.replicate_table cfg (Py.strip t0) w).
  destruct (IH (if fst r then success else false) (snd r)) as [-> ->].
  destruct (IH (if fst r then true else false) (snd r)) as [-> ->].
  split; [done|]. by destruct (fst r), success.
Qed.

End run.

(** ** Table names *)

Section names.

Lemma rstrip_cons c s :
  Py.rstrip (String c s) =
    match Py.rstrip s with
    | EmptyString => if Py.is_space c then EmptyString else String c EmptyString
    | rest => String c rest
    end.
Proof. reflexivity. Qed.

Lemma rstrip_idemp s : Py.rstrip (Py.rstrip s) = Py.rstrip s.
Proof.
  induction s as [|c s IH]; [done|]. rewrite rstrip_cons.
  destruct (Py.rstrip s) as [|c' s'] eqn:Hs.
  - destruct (Py.is_space c) eqn:Hc; [done|]. rewrite rstrip_cons. cbn. by rewrite Hc.
  - rewrite rstrip_cons. by rewrite IH.
Qed.

Lemma lstrip_head s :
  match Py.lstrip s with
  | EmptyString => True
  | String c _ => Py.is_space c = false
  end.
Proof.
  induction s as [|c s IH]; [done|]. cbn [Py.lstrip].
  destruct (Py.is_space c) eqn:Hc; [done|]. by rewrite Hc.
Qed.

Lemma rstrip_head c s :
  Py.is_space c = false → ∃ s', Py.rstrip (String c s) = String c s'.
Proof.
  intros Hc. rewrite rstrip_cons. destruct (Py.rstrip s); [|by eexists].
  rewrite Hc. by eexists.
Qed.

Lemma strip_idemp s : Py.strip (Py.strip s) = Py.strip s.
Proof.
  unfold Py.strip. pose proof (lstrip_head s) as Hh.
  destruct (Py.lstrip s) as [|c s0] eqn:Hl; [done|].
  destruct (rstrip_head c s0 Hh) as (s' & Hr). rewrite Hr.
  cbn [Py.lstrip]. rewrite Hh, <- Hr. apply rstrip_idemp.
Qed.

(** X15.  The entries of the table list are stripped of surrounding white
    space and the blank ones are skipped: a run over a list does what a run
    over its stripped, non-blank names does.  Over a list of blank entries
    only, such as the one an unset [TABLES_TO_REPLICATE] gives, nothing is
    called and the result is the flag passed in. *)
Theorem X15_blank_names_are_skipped cfg ts success w :
  Replicator.replicate_tables cfg ts success w
    = Replicator.replicate_tables cfg (table_names ts) success w ∧
  (table_names ts = [] → Replicator.replicate_tables cfg ts success w = (success, w)).
Proof.
  assert (Replicator.replicate_tables cfg ts success w
            = Replicator.replicate_tables cfg (table_names ts) success w) as Heq.
  { revert success w. unfold table_names.
    induction ts as [|t0 ts IH]; intros success w; [done|].
    rewrite fmap_cons. cbn [Replicator.replicate_tables]. cbv zeta.
    destruct (String.eqb_spec (Py.strip t0) EmptyString) as [He|Hne].
    - rewrite filter_cons_False by (by intros ?). apply IH.
    - rewrite filter_cons_True by done. cbn [Replicator.replicate_tables]. cbv zeta.
      rewrite strip_idemp.
      destruct (String.eqb_spec (Py.strip t0) EmptyString) as [|_]; [done|].
      rewrite !bind_eta. apply IH. }
  split; [done|]. intros Hnil. by rewrite Heq, Hnil.
Qed.

End names.

(** ** The state file across runs *)

Section state_file.
Import StateManager.

(** X16.  A checkpoint that was written is read back by the next process.
    After [update_sync_version] whose write did not raise, a process
    started on the same files, and able to read the state file, holds the
    state the first one held: the version just set for the table, and for
    every other table the version it had. *)
Theorem X16_checkpoint_survives_a_restart t v w oracle :
  w_raises w (length (w_trace w)) WriteState = false →
  oracle 0%nat ReadState = false →
  let w1 := snd (update_sync_version t v w) in
  let w2 := snd (init (restart oracle w1)) in
  w_state w2 = w_state w1 ∧
  fst (get_last_sync_version t w2) = v ∧
  (∀ t', t' ≠ t →
     fst (get_last_sync_version t' w2) = fst (get_last_sync_version t' w)) ∧
  calls_since (restart oracle w1) w2 = [Call ReadState false 0].
Proof.
  intros Hw Hr w1 w2. subst w2 w1.
  rewrite update_sync_version_run. cbv zeta. rewrite Hw. cbn [snd].
  unfold init, _load_state, bind, gets, raises, log, modify, ret, restart.
  cbn. rewrite Hr. cbn. repeat split.
  - unfold stored_version. cbn. by rewrite lookup_insert_eq.
  - intros t' Hne. unfold stored_version. cbn. by rewrite lookup_insert_ne.
Qed.

Lemma X16_witness :
  let w := Scenario.later_run 55 Scenario.healthy in
  let w1 := snd (StateManager.update_sync_version "orders" 55 w) in
  let w2 := snd (StateManager.init (restart Scenario.healthy w1)) in
  w_state w2 = w_state w1 ∧
  fst (StateManager.get_last_sync_version "orders" w2) = 55%Z ∧
  (∀ t', t' ≠ "orders" →
     fst (StateManager.get_last_sync_version t' w2)
       = fst (StateManager.get_last_sync_version t' w)) ∧
  calls_since (restart Scenario.healthy w1) w2 = [Call ReadState false 0].
Proof.
  apply (X16_checkpoint_survives_a_restart "orders" 55
           (Scenario.later_run 55 Scenario.healthy) Scenario.healthy);
    reflexivity.
Defined.

End state_file.

(** ** Tables of the warehouse *)

Section warehouse.
Import SQLServerConnection BigQueryConnection.

Lemma bq_type_known sql_type : bq_type sql_type ∈ bq_types.
Proof. unfold bq_type. repeat case_match; compute_done. Qed.

(** The flags the replicator sets do not show in the converted schema. *)
Lemma _convert_schema_marked pk_columns schema :
  _convert_schema (Replicator.mark_primary_keys pk_columns schema)
    = _convert_schema schema.
Proof.
  unfold _convert_schema, Replicator.mark_primary_keys.
  rewrite map_map. apply map_ext. intros c. by destruct (Py.contains _ _).
Qed.

(** X17.  [_convert_schema] gives one field for each column, under the
    name of the column and in the order of the columns; the type of a field
    is one of eight BigQuery types, whatever the type of the column is
    called, and its mode is NULLABLE or REQUIRED as the column is nullable
    or not.  Marking the primary-key columns, as the replicator does before
    it creates a table, changes nothing in the result. *)
Theorem X17_converted_schema_follows_the_columns schema pk_columns :
  map field_name (_convert_schema schema) = map name schema ∧
  Forall (fun f => field_type f ∈ bq_types) (_convert_schema schema) ∧
  Forall2 (fun c f => mode f = if is_nullable c then "NULLABLE" else "REQUIRED")
          schema (_convert_schema schema) ∧
  _convert_schema (Replicator.mark_primary_keys pk_columns schema)
    = _convert_schema schema.
Proof.
  split; [|split; [|split]].
  - unfold _convert_schema. rewrite map_map. by apply map_ext.
  - unfold _convert_schema. apply Forall_forall. intros f Hf.
    change (f ∈ (fun column =>
                   {| field_name := name column;
                      field_type := bq_type (Py.lower (type column));
                      mode := if is_nullable column then "NULLABLE" else "REQUIRED" |})
                <$> schema) in Hf.
    apply list_elem_of_fmap in Hf as (c & -> & _). apply bq_type_known.
  - induction schema as [|c schema IH]; by constructor.
  - apply _convert_schema_marked.
Qed.

(** X18.  A table that [create_table] has created is there: it is empty,
    has the converted schema and the clustering fields of the flagged
    columns, and the other tables are as before.  From then on
    [table_exists] finds it unless the lookup raises, and [create_table]
    fails on it and leaves it as it is; it was not there before, since
    [create_table] does not succeed on a table that exists. *)
Theorem X18_created_table_is_there_to_stay t schema w :
  fst (create_table t schema w) = true →
  let w1 := snd (create_table t schema w) in
  w_target w !! t = None ∧
  w_target w1 !! t = Some {| tt_schema := _convert_schema schema;
                             tt_clustering := clustering_fields schema;
                             tt_rows := [] |} ∧
  (∀ t', t' ≠ t → w_target w1 !! t' = w_target w !! t') ∧
  (∀ w2, w_target w2 = w_target w1 →
     fst (table_exists t w2) = negb (w_raises w2 (length (w_trace w2)) (GetTable t))) ∧
  (∀ w2 schema', w_target w2 = w_target w1 →
     create_table t schema' w2 = (false, extend [Call (CreateTable t) true 0] w2)).
Proof.
  intros Hok w1. subst w1. revert Hok.
  destruct (create_table_step t schema w) as [->|[Hfree ->]]; [done|].
  intros _. cbn [snd]. autorewrite with world.
  split; [done|]. split; [by rewrite lookup_insert_eq|].
  split; [by intros; rewrite lookup_insert_ne|]. split.
  - intros w2 Htg. rewrite table_exists_run. cbv zeta. cbn [fst].
    rewrite Htg, lookup_insert_eq. rewrite bool_decide_eq_true_2 by done.
    by rewrite andb_true_r.
  - intros w2 schema' Htg. rewrite create_table_run, Htg, lookup_insert_eq.
    rewrite bool_decide_eq_true_2 by done. by rewrite orb_true_r.
Qed.

Lemma X18_witness :
  let w := Cases.first_run_of (Scenario.orders Scenario.three_rows) Scenario.healthy in
  let schema := map SQLServerConnection.column_of
                    (st_columns (Scenario.orders Scenario.three_rows)) in
  let w1 := snd (BigQueryConnection.create_table "orders" schema w) in
  w_target w !! "orders" = None ∧
  w_target w1 !! "orders" =
    Some {| tt_schema := BigQueryConnection._convert_schema schema;
            tt_clustering := BigQueryConnection.clustering_fields schema;
            tt_rows := [] |} ∧
  (∀ t', t' ≠ "orders" → w_target w1 !! t' = w_target w !! t') ∧
  (∀ w2, w_target w2 = w_target w1 →
     fst (BigQueryConnection.table_exists "orders" w2)
       = negb (w_raises w2 (length (w_trace w2)) (GetTable "orders"))) ∧
  (∀ w2 schema', w_target w2 = w_target w1 →
     BigQueryConnection.create_table "orders" schema' w2
       = (false, extend [Call (CreateTable "orders") true 0] w2)).
Proof.
  apply (X18_created_table_is_there_to_stay "orders"
           (map SQLServerConnection.column_of
                (st_columns (Scenario.orders Scenario.three_rows)))
           (Cases.first_run_of (Scenario.orders Scenario.three_rows) Scenario.healthy)).
  reflexivity.
Defined.

End warehouse.

(** ** Passes in which the calls go through *)

Section going_through.
Import SQLServerConnection BigQueryConnection.


Lemma reads_never_raise_extend tr w :
  reads_never_raise w → reads_never_raise (extend tr w).
Proof. intros H n q. apply H. Qed.

Lemma query_result_reads q w :
  reads_never_raise w → query_result q w = default [] (answer q (w_source w)).
Proof. intros H. unfold query_result. by rewrite H. Qed.

(** When no query raises, what [get_changed_data] returns depends on the
    source only. *)
Lemma get_changed_data_reads t since w w' :
  reads_never_raise w → reads_never_raise w' → w_source w' = w_source w →
  fst (get_changed_data t since w') = fst (get_changed_data t since w).
Proof.
  intros Hr Hr' Hsrc.
  pose proof (get_changed_data_run t since w) as H. cbv zeta in H. rewrite H. clear H.
  pose proof (get_changed_data_run t since w') as H. cbv zeta in H. rewrite H. clear H.
  rewrite !query_result_reads by (repeat apply reads_never_raise_extend; done).
  autorewrite with world. rewrite Hsrc.
  destruct (negb _); [done|]. destruct (_ <=? _)%Z; [done|].
  by destruct (default [] (answer (QPrimaryKey t) (w_source w))).
Qed.

(** A version other than 0 comes from a tracked table. *)
Lemma get_changed_data_tracked t since w :
  new_version (fst (get_changed_data t since w)) ≠ 0%Z → tracked t w = true.
Proof.
  pose proof (get_changed_data_run t since w) as H. cbv zeta in H. rewrite H. clear H.
  rewrite query_tracked. destruct (tracked t w); [done|].
  rewrite andb_false_r. cbn. done.
Qed.


(** A pass over a table of the warehouse whose change set holds upserts:
    the load fails and the pass stops there. *)
Lemma pass_with_upserts_fails cfg t w tb0 changed_df deleted_df V :
  reads_never_raise w →
  never_raises w (GetTable t) →
  w_target w !! t = Some tb0 →
  from_option st_columns [] (src_tables (w_source w) !! t) ≠ [] →
  fst (get_changed_data t (stored_version t w) w) = (changed_df, deleted_df, V) →
  V ≠ 0%Z →
  df_empty changed_df = false →
  ∃ reads,
    Replicator.replicate_table cfg t w =
      (false, extend (reads ++ [Call (LoadJob t WRITE_APPEND) true (length changed_df)]) w) ∧
    Forall (fun e => target_write e = false) reads.
Proof.
  intros Hh Hg Htb Hcols Hgcd Hne Hd.
  assert (tracked t w = true) as Htr.
  { apply (get_changed_data_tracked t (stored_version t w)). by rewrite Hgcd. }
  destruct (Replicator.replicate_table cfg t w) as [b w'] eqn:Hrun.
  revert Hrun. unfold Replicator.replicate_table.
  step. rewrite Hh, Htr. cbn [negb andb].
  step. rewrite query_schema. autorewrite with world. rewrite Hh.
  destruct (from_option st_columns [] _) as [|c cs] eqn:Hcs; [done|]. cbn [map].
  step. step.
  rewrite Hg, (bool_decide_eq_true_2 _ (mk_is_Some _ _ Htb)) in Hfound.
  cbn in Hfound. subst found. cbn [negb].
  step. rewrite stored_version_extend.
  lazymatch goal with
  | |- context [bind (get_changed_data t ?s) _ ?w0] =>
      pose proof (get_changed_data_reads t s w w0 Hh
                    ltac:(intros ? ?; oracle) ltac:(by autorewrite with world)) as Hsame
  end.
  step. cbn [fst] in Hsame. rewrite Hgcd in Hsame. simplify_eq.
  destruct (Z.eqb_spec V 0); [done|]. rewrite Hd. cbn [negb].
  step. leaf.
  eexists (_ :: _ :: _ :: _ :: fetch). split.
  { reflexivity. }
  do 4 (constructor; [done|]).
  eapply Forall_impl; [exact Hfetch|].
  intros e. unfold read_only_call. by destruct (target_write e); rewrite ?andb_false_r.
Qed.



(** X20.  As the repository stands an upsert is never applied.  When the
    change set of an incremental pass holds a row to insert or update, the
    load of that row fails, the pass reports failure and stops: the table
    of the warehouse is as before, the deletes of the change set are not
    applied either, and no checkpoint is written.  The table is stuck
    there: as long as the source and the state are the same, every later
    pass fetches the same change set and fails in the same way. *)
Theorem X20_pass_with_upserts_fails_every_time cfg t w tb0 changed_df deleted_df V :
  reads_never_raise w →
  never_raises w (GetTable t) →
  w_target w !! t = Some tb0 →
  from_option st_columns [] (src_tables (w_source w) !! t) ≠ [] →
  fst (get_changed_data t (stored_version t w) w) = (changed_df, deleted_df, V) →
  V ≠ 0%Z →
  df_empty changed_df = false →
  let r := Replicator.replicate_table cfg t w in
  fst r = false ∧
  w_target (snd r) = w_target w ∧
  w_state (snd r) = w_state w ∧
  w_file (snd r) = w_file w ∧
  last (calls_since w (snd r))
    = Some (Call (LoadJob t WRITE_APPEND) true (length changed_df)) ∧
  Forall (fun e => target_write e = true → e = Call (LoadJob t WRITE_APPEND) true
                                                    (length changed_df))
         (calls_since w (snd r)) ∧
  ∀ cfg' w2,
    reads_never_raise w2 → never_raises w2 (GetTable t) →
    w_source w2 = w_source w → w_state w2 = w_state (snd r) →
    w_target w2 = w_target (snd r) →
    fst (get_changed_data t (stored_version t w2) w2) = (changed_df, deleted_df, V) ∧
    fst (Replicator.replicate_table cfg' t w2) = false.
Proof.
  intros Hh Hg Htb Hcols Hgcd Hne Hd r. subst r.
  destruct (pass_with_upserts_fails cfg t w tb0 changed_df deleted_df V)
    as (reads & Hrun & Hreads); [done..|].
  rewrite Hrun. cbn [fst snd]. autorewrite with world.
  do 4 (split; [done|]). rewrite calls_since_extend.
  split; [by rewrite last_snoc|]. split.
  { apply Forall_app. split.
    - eapply Forall_impl; [exact Hreads|]. intros e He. by rewrite He.
    - by repeat constructor. }
  intros cfg' w2 Hh2 Hg2 Hsrc Hst Htg.
  assert (fst (get_changed_data t (stored_version t w2) w2)
          = (changed_df, deleted_df, V)) as Hgcd2.
  { assert (stored_version t w2 = stored_version t w) as ->
      by (unfold stored_version; by rewrite Hst).
    by rewrite (get_changed_data_reads t _ w w2). }
  split; [done|].
  destruct (pass_with_upserts_fails cfg' t w2 tb0 changed_df deleted_df V)
    as (reads2 & -> & _); [done|done|by rewrite Htg|by rewrite Hsrc|done..].
Qed.

Lemma X20_witness :
  let w := Cases.catching_up Scenario.healthy in
  let t := "orders" in
  let r := Replicator.replicate_table Scenario.cfg t w in
  fst r = false ∧
  w_target (snd r) = w_target w ∧
  w_state (snd r) = w_state w ∧
  w_file (snd r) = w_file w ∧
  last (calls_since w (snd r))
    = Some (Call (LoadJob t WRITE_APPEND) true (length Cases.upserts)) ∧
  Forall (fun e => target_write e = true → e = Call (LoadJob t WRITE_APPEND) true
                                                    (length Cases.upserts))
         (calls_since w (snd r)) ∧
  ∀ cfg' w2,
    reads_never_raise w2 → never_raises w2 (GetTable t) →
    w_source w2 = w_source w → w_state w2 = w_state (snd r) →
    w_target w2 = w_target (snd r) →
    fst (SQLServerConnection.get_changed_data t (stored_version t w2) w2)
      = (Cases.upserts, Cases.deletes, 55%Z) ∧
    fst (Replicator.replicate_table cfg' t w2) = false.
Proof.
  apply (X20_pass_with_upserts_fails_every_time Scenario.cfg "orders"
           (Cases.catching_up Scenario.healthy) Cases.replica
           Cases.upserts Cases.deletes 55).
  - intros n q. reflexivity.
  - intros n. reflexivity.
  - reflexivity.
  - vm_compute. discriminate.
  - vm_compute. reflexivity.
  - discriminate.
  - reflexivity.
Defined.

Lemma keyed_frame_not_empty tb pk i :
  keyed_by tb pk i → st_rows tb ≠ [] →
  df_empty (to_dicts (Sql.names tb) (Sql.order_by (Sql.names tb) pk (st_rows tb))) = false.
Proof.
  intros Hk Hrows.
  pose proof (sorted_keys_not_null tb pk i Hk) as Hnn.
  pose proof (order_by_perm (Sql.names tb) pk (st_rows tb)) as Hperm.
  destruct Hk as (Hi & _ & _).
  destruct (Sql.order_by (Sql.names tb) pk (st_rows tb)) as [|row rows] eqn:Hs.
  { apply Permutation_nil_l in Hperm. by destruct Hrows. }
  apply Forall_cons in Hnn as [Hrow _]. unfold Sql.key_of in Hrow. rewrite Hi in Hrow.
  cbn in Hrow.
  destruct (Sql.names tb) as [|n ns]; [done|].
  destruct row as [|v vs]; [by destruct i|]. done.
Qed.

(** X21.  As the repository stands an initial load loads nothing.  For a
    tracked table that is not in the warehouse and whose first key column
    holds distinct, non-null values, in a run in which no call raises, the
    pass creates the table with the converted schema and leaves it empty.
    When the source table has no row the pass sets the checkpoint to the
    current version of the feed and reports success.  When it has rows, the
    pass scans them all, the load of the frame fails, and the pass reports
    failure without a checkpoint. *)
Theorem X21_initial_load_loads_nothing cfg t pk pks i tb w :
  nothing_raises w →
  src_tables (w_source w) !! t = Some tb →
  st_tracked tb = true →
  st_columns tb ≠ [] →
  st_pk tb = pk :: pks →
  keyed_by tb pk i →
  w_target w !! t = None →
  (0 < BATCH_SIZE cfg)%nat →
  let r := Replicator.replicate_table cfg t w in
  let columns := map column_of (st_columns tb) in
  w_target (snd r) =
    <[t := {| tt_schema := _convert_schema columns;
              tt_clustering :=
                clustering_fields (Replicator.mark_primary_keys (st_pk tb) columns);
              tt_rows := [] |}]> (w_target w) ∧
  (st_rows tb = [] →
   fst r = true ∧
   stored_version t (snd r) = src_version (w_source w) ∧
   persisted_version t (snd r) = Some (src_version (w_source w))) ∧
  (st_rows tb ≠ [] →
   fst r = false ∧
   w_state (snd r) = w_state w ∧
   w_file (snd r) = w_file w ∧
   last (calls_since w (snd r))
     = Some (Call (LoadJob t WRITE_TRUNCATE) true (length (st_rows tb)))).
Proof.
  intros Hh Htb Htr Hcols Hpk Hk Hfree Hb r columns. subst r columns.
  destruct (Replicator.replicate_table cfg t w) as [b w'] eqn:Hrun.
  revert Hrun. unfold Replicator.replicate_table.
  step. rewrite Hh. unfold tracked. rewrite Htb. cbn [from_option]. rewrite Htr.
  cbn [negb andb].
  step. rewrite query_schema. autorewrite with world. rewrite Hh, Htb.
  cbn [from_option].
  destruct (map column_of (st_columns tb)) as [|c cs] eqn:Hmap.
  { by destruct (st_columns tb). }
  rewrite <- Hmap. clear Hmap c cs.
  step. rewrite query_primary_key. autorewrite with world. rewrite Hh.
  unfold pk_of. autorewrite with world. rewrite Htb. cbn [from_option].
  step. rewrite Hfree in Hfound.
  rewrite bool_decide_eq_false_2, andb_false_r in Hfound by (by intros [? ?]).
  subst found. cbn [negb].
  lazymatch goal with
  | |- context [bind (create_table t ?s) _ ?w0] =>
      pose proof (create_table_ok t s w0 ltac:(oracle) ltac:(oracle)) as E
  end.
  run_by E. clear E. rewrite _convert_schema_marked.
  destruct (st_rows tb) as [|row rows] eqn:Hrows.
  - lazymatch goal with
    | |- context [bind (get_all_data t ?b0) _ ?w0] =>
        assert (hd 0%nat (query_result (QCount t) w0) = 0%nat) as Hcount
          by (destruct (query_count t tb w0 ltac:(by autorewrite with world)
                          ltac:(intros ?; oracle)) as [-> _]; by rewrite Hrows);
        pose proof (get_all_data_no_count t b0 w0 Hcount) as E
    end.
    run_by E. clear E Hcount. cbn [df_empty forallb].
    step. step. step. leaf. rewrite Hh.
    split; [done|]. split; [|done]. intros _.
    split; [done|].
    split; [by eapply stored_version_insert|].
    unfold persisted_version, written. subst raised. rewrite Hh. cbn.
    by rewrite lookup_insert_eq.
  - rewrite <- Hrows.
    assert (st_rows tb ≠ []) as Hne by (by rewrite Hrows).
    lazymatch goal with
    | |- context [bind (get_all_data t ?b0) _ ?w0] =>
        destruct (get_all_data_keyed_run t pk pks i tb b0 w0
                    ltac:(by autorewrite with world) Hpk Hk
                    ltac:(intros ?; oracle) ltac:(intros ?; oracle)
                    ltac:(intros ? ? ?; oracle) Hb Hne)
          as (batches & E & _)
    end.
    run_by E. clear E.
    rewrite (keyed_frame_not_empty tb pk i Hk Hne).
    lazymatch goal with
    | |- context [bind (load_dataframe ?df t ?d) _ ?w0] =>
        pose proof (load_dataframe_step df t d w0
                      (keyed_frame_not_empty tb pk i Hk Hne)) as E
    end.
    run_by E. clear E. leaf.
    split; [done|]. split; [intros Hnil; by rewrite Hnil in Hne|]. intros _.
    do 3 (split; [done|]).
    erewrite calls_since_app by (cbn; reflexivity).
    rewrite !app_comm_cons, last_snoc. do 2 f_equal.
    unfold to_dicts. rewrite length_map. by rewrite order_by_perm.
Qed.

Lemma X21_witness :
  let tb := Scenario.orders Cases.five_rows in
  let t := "orders" in
  let w := Cases.first_run_of tb Scenario.healthy in
  let r := Replicator.replicate_table Cases.cfg_pairs t w in
  let columns := map SQLServerConnection.column_of (st_columns tb) in
  w_target (snd r) =
    <[t := {| tt_schema := BigQueryConnection._convert_schema columns;
              tt_clustering :=
                BigQueryConnection.clustering_fields
                  (Replicator.mark_primary_keys (st_pk tb) columns);
              tt_rows := [] |}]> (w_target w) ∧
  (st_rows tb = [] →
   fst r = true ∧
   stored_version t (snd r) = src_version (w_source w) ∧
   persisted_version t (snd r) = Some (src_version (w_source w))) ∧
  (st_rows tb ≠ [] →
   fst r = false ∧
   w_state (snd r) = w_state w ∧
   w_file (snd r) = w_file w ∧
   last (calls_since w (snd r))
     = Some (Call (LoadJob t WRITE_TRUNCATE) true (length (st_rows tb)))).
Proof.
  apply (X21_initial_load_loads_nothing Cases.cfg_pairs "orders" "id" [] 0
           (Scenario.orders Cases.five_rows)
           (Cases.first_run_of (Scenario.orders Cases.five_rows) Scenario.healthy)).
  - intros n op. reflexivity.
  - reflexivity.
  - reflexivity.
  - discriminate.
  - reflexivity.
  - exact five_rows_keyed.
  - reflexivity.
  - cbn. lia.
Defined.

End going_through.

(** ** The table list of the configuration *)

Section table_list.

Lemma concat_cons sep x y l :
  String.concat sep (x :: y :: l) = (x ++ sep ++ String.concat sep (y :: l))%string.
Proof. reflexivity. Qed.

Lemma split_concat sep s :
  String.concat (String sep EmptyString) (Py.split sep s) = s.
Proof.
  induction s as [|c s IH]; [done|]. cbn [Py.split].
  pose proof (split_nonempty sep s) as Hne.
  destruct (Py.split sep s) as [|piece pieces]; [done|].
  destruct (Ascii.eqb_spec c sep) as [->|_].
  - rewrite concat_cons, IH. done.
  - destruct pieces as [|piece' pieces].
    + cbn in *. by rewrite IH.
    + rewrite concat_cons in *. cbn. by rewrite <- IH.
Qed.

Lemma split_pieces sep s :
  Forall (fun piece => sep ∉ list_ascii_of_string piece) (Py.split sep s).
Proof.
  induction s as [|c s IH]; cbn [Py.split].
  { constructor; [|done]. cbn. apply not_elem_of_nil. }
  destruct (Ascii.eqb_spec c sep) as [->|Hne].
  - constructor; [|done]. cbn. apply not_elem_of_nil.
  - destruct (Py.split sep s) as [|piece pieces].
    + constructor; [|done]. cbn. rewrite elem_of_cons.
      intros [?|?%not_elem_of_nil]; [congruence|done].
    + apply Forall_cons in IH as [Hp Hps]. constructor; [|done].
      cbn. rewrite elem_of_cons. intros [?|?]; [congruence|done].
Qed.

(** X22.  The table list is the value of [TABLES_TO_REPLICATE] cut at its
    commas: no entry holds a comma, the entries joined by commas give the
    value back, and the list is never empty (an unset or empty variable
    gives the list of one empty name). *)
Theorem X22_table_list_is_the_variable_cut_at_commas cfg :
  String.concat "," (TABLES_TO_REPLICATE cfg)
    = default EmptyString (TABLES_TO_REPLICATE_env cfg) ∧
  Forall (fun t => ","%char ∉ list_ascii_of_string t) (TABLES_TO_REPLICATE cfg) ∧
  (1 ≤ length (TABLES_TO_REPLICATE cfg))%nat.
Proof.
  unfold TABLES_TO_REPLICATE. split; [apply split_concat|].
  split; [apply split_pieces|].
  pose proof (split_nonempty "," (default EmptyString (TABLES_TO_REPLICATE_env cfg))).
  destruct (Py.split _ _); [done|cbn; lia].
Qed.

End table_list.

(** ** A key column with repeated values *)

Section repeated_keys.
Import SQLServerConnection.

(** X23.  The keyed scan pages on the first column of the primary key
    alone.  When all rows of a table hold the same non-null value in that
    column and the table has more rows than the batch size [b], the scan
    returns the first batch and stops: the second query asks for the keys
    above the value and finds none, so [get_all_data] returns [b] rows of
    the table, each as the pairs of the names of the columns and its
    values, and leaves the others out.  Which [b] rows these are is for the
    server to choose. *)
Theorem X23_scan_stops_at_a_repeated_key t pk pks i tb b v w :
  src_tables (w_source w) !! t = Some tb →
  st_pk tb = pk :: pks →
  Py.index pk (Sql.names tb) = Some i →
  Forall (fun row => row !! i = Some v) (st_rows tb) →
  v ≠ VNull →
  never_raises w (Execute (QCount t)) →
  never_raises w (Execute (QPrimaryKey t)) →
  batches_never_raise w t pk →
  (0 < b < length (st_rows tb))%nat →
  let df := fst (get_all_data t b w) in
  ∃ rows,
    df = (fun row => zip (Sql.names tb) row) <$> rows ∧
    rows ⊆+ st_rows tb ∧
    length rows = b ∧
    (length df < length (st_rows tb))%nat.
Proof.
  intros Htb Hpk Hi Hrows Hv Hc Hp Hq Hb df.
  assert (Forall (fun row => Sql.key_of (Sql.names tb) pk row = v) (st_rows tb)) as Hkeys.
  { eapply Forall_impl; [exact Hrows|]. intros row Hrow. unfold Sql.key_of.
    rewrite Hi. cbn. by rewrite Hrow. }
  set (sorted := Sql.order_by (Sql.names tb) pk (st_rows tb)).
  assert (sorted ≡ₚ st_rows tb) as Hperm by apply order_by_perm.
  assert (length sorted = length (st_rows tb)) as Hlen by (by rewrite Hperm).
  assert (length (take b sorted) = b) as Hlb by (rewrite length_take; lia).
  assert (df = to_dicts (Sql.names tb) (take b sorted)) as Hdf.
  2: { exists (take b sorted). split; [done|]. split.
       - rewrite <- Hperm. apply sublist_submseteq, sublist_take.
       - split; [done|]. rewrite Hdf. unfold to_dicts. rewrite length_map. lia. }
  subst df. unfold get_all_data.
  rewrite (bind_run _ _ _ _ _ (execute_query_run (QCount t) w)).
  destruct (query_count t tb w Htb Hc) as [-> ->]. cbn [length].
  destruct (Nat.eqb_spec (length (st_rows tb)) 0) as [Hz|_]; [lia|].
  rewrite (bind_run _ _ _ _ _ (get_primary_key_columns_run t _)).
  destruct (query_primary_key_ok t tb (extend [Call (Execute (QCount t)) false 1] w))
    as [-> ->]; [done..|].
  rewrite Hpk, extend_extend. cbn [app length].
  rewrite bind_eta, _get_all_data_with_pk_run. autorewrite with world.
  rewrite Htb. cbn [from_option row_type].
  (* the first batch *)
  match goal with |- context [pk_loop (S ?f) t pk b None [] ?w1] =>
    pose proof (pk_loop_run f t pk b None [] w1) as Hrun
  end.
  cbv zeta in Hrun. rewrite Hrun. clear Hrun.
  assert (∀ w1 last_pk_value, w_source w1 = w_source w → w_raises w1 = w_raises w →
            batch_rows t pk b last_pk_value w1
              = take b (Sql.order_by (Sql.names tb) pk (remaining tb pk last_pk_value)))
    as Hbatch.
  { intros w1 last_pk_value Hs Hr. unfold batch_rows, query_result.
    pose proof (Hq (length (w_trace w1)) b last_pk_value) as Hn.
    destruct last_pk_value as [v0|]; cbn [batch_query] in Hn; rewrite Hr, Hn;
      cbn [answer]; [unfold Sql.top_after|unfold Sql.top]; rewrite Hs, Htb;
      cbn [mbind option_bind]; rewrite Hi; done. }
  rewrite Hbatch by done. cbn [remaining]. fold sorted.
  autorewrite with world. rewrite Htb. cbn [from_option]. rewrite Hi.
  cbn [mbind option_bind].
  destruct (take b sorted) as [|row0 batch] eqn:Htake; [cbn in Hlb; lia|].
  rewrite <- Htake in *.
  destruct (last (take b sorted)) as [row|] eqn:Hlast.
  2: { rewrite Htake in Hlast. by rewrite last_cons in Hlast; destruct (last batch). }
  assert (row ∈ st_rows tb) as Hin.
  { rewrite <- Hperm. eapply elem_of_sublist; [|apply (sublist_take _ b)].
    by apply last_Some_elem_of. }
  rewrite Forall_forall in Hrows. cbn [mbind option_bind]. rewrite (Hrows row Hin).
  rewrite Hlb, Nat.ltb_irrefl.
  (* the second batch *)
  match goal with |- context [pk_loop ?f t pk b (Some v) ?acc ?w1] =>
    destruct f as [|f']; [lia|];
    pose proof (pk_loop_run f' t pk b (Some v) acc w1) as Hrun
  end.
  cbv zeta in Hrun. rewrite Hrun. clear Hrun.
  rewrite Hbatch by done. cbn [remaining].
  rewrite filter_none.
  2: { eapply Forall_impl; [exact Hkeys|]. intros r ->. by rewrite sql_gt_irrefl. }
  change (Sql.order_by (Sql.names tb) pk []) with (@nil tuple).
  rewrite take_nil. by cbn [fst snd ret app].
Qed.

Lemma X23_witness :
  let tb := Cases.one_region in
  let w := Cases.first_run_of tb Scenario.healthy in
  let df := fst (SQLServerConnection.get_all_data "orders" 2 w) in
  ∃ rows,
    df = (fun row => zip (Sql.names tb) row) <$> rows ∧
    rows ⊆+ st_rows tb ∧
    length rows = 2%nat ∧
    (length df < length (st_rows tb))%nat.
Proof.
  apply (X23_scan_stops_at_a_repeated_key "orders" "region" ["id"] 0 Cases.one_region 2
           (VStr "north") (Cases.first_run_of Cases.one_region Scenario.healthy)).
  - reflexivity.
  - reflexivity.
  - reflexivity.
  - repeat constructor.
  - discriminate.
  - intros n. reflexivity.
  - intros n. reflexivity.
  - intros n b last_pk_value. reflexivity.
  - cbn. lia.
Defined.

End repeated_keys.
